(** * CategoricalDQN: the C51 agent of [src/agent/CategoricalDQN.py]

    A shallow embedding of [CategoricalDQNAgent]: the construction of the
    support in [__init__], the distributional Bellman projection of
    [train_by_replay] ("algorithm 1 in the paper"), the greedy action
    choice of [eval_step] and the interaction loop of [transition].

    Numbers.  numpy's float64 arrays are embedded as lists of exact
    rationals ([Q] with its setoid equality [==]); integer arrays as lists
    of [Z].  Rounding error is therefore outside the model: every
    statement below about sums and bounds is a statement about the
    real-number semantics of the arithmetic the code performs.  [Q]'s
    division returns 0 on a zero divisor, where numpy gives nan or inf; the
    statements that depend on a quotient carry the hypothesis that makes
    the divisor non-zero.  Where rounding decides a discrete outcome -
    on which side of an integer the quotient of line 88 falls - the
    binary64 operations themselves are given ([delta_z_f64], [b_f64],
    [l_f64], [u_f64]) and evaluated.

    Errors.  Python exceptions are embedded as the [Raise] branch of
    [result]; a numpy call that raises is written out at the place where it
    raises. *)

From Stdlib Require Import ZArith QArith Qround Qminmax Qfield Lia Lqa.
From Stdlib Require Import Floats.
From stdpp Require Import base list.

Local Open Scope Q_scope.

(** ** Exceptions and the error monad *)

Inductive exn : Set :=
| ValueError          (* numpy: bad count, shapes that do not agree *)
| ZeroDivisionError   (* Python float division by 0.0 *)
| IndexError          (* index out of bounds *)
| AttributeError.     (* a collaborator that is still None *)

Inductive result (A : Type) : Type :=
| Ok (a : A)
| Raise (e : exn).
Arguments Ok {A} a.
Arguments Raise {A} e.

Definition bind {A B} (m : result A) (k : A -> result B) : result B :=
  match m with
  | Ok a => k a
  | Raise e => Raise e
  end.

Notation "'do' x <- m ; k" := (bind m (fun x => k))
  (at level 10, x name, m at level 100, k at level 200).
Notation "'do' ' p <- m ; k" := (bind m (fun x => match x with p => k end))
  (at level 10, p pattern, m at level 100, k at level 200).

(** [for i in range: s = body(s, i)], stopping at the first exception. *)
Fixpoint for_each {S I} (body : S -> I -> result S) (range : list I) (s : S)
  : result S :=
  match range with
  | [] => Ok s
  | i :: range' => do s' <- body s i ; for_each body range' s'
  end.

Definition from_option {A} (e : exn) (o : option A) : result A :=
  match o with
  | Some a => Ok a
  | None => Raise e
  end.

Fixpoint mapM {A B} (f : A -> result B) (xs : list A) : result (list B) :=
  match xs with
  | [] => Ok []
  | x :: xs' => do y <- f x ; do ys <- mapM f xs' ; Ok (y :: ys)
  end.

(** ** numpy primitives *)

Definition Qsum (xs : list Q) : Q := foldr Qplus 0 xs.

Definition Zq (i : nat) : Q := inject_Z (Z.of_nat i).

(** [np.arange(0, num)] as floats. *)
Definition arange (num : nat) : list Q := map Zq (seq 0 num).

(** [y[-1] = stop]. *)
Definition set_last (y : list Q) (stop : Q) : list Q :=
  <[pred (length y) := stop]> y.

(** [np.linspace(start, stop, num)] with its defaults (endpoint=True),
    following numpy's function_base.linspace: div = num - 1,
    step = delta / div, y = arange(0, num) * step + start (or
    arange / div * delta when the step is zero, or arange * delta when
    div is not positive), and the last entry overwritten by [stop] when
    num > 1.  A negative num raises ValueError. *)
Definition linspace (start stop : Q) (num : Z) : result (list Q) :=
  if (num <? 0)%Z then Raise ValueError
  else
    let div := (num - 1)%Z in
    let delta := stop - start in
    let y := arange (Z.to_nat num) in
    let y :=
      if (0 <? div)%Z then
        let step := delta / inject_Z div in
        if Qeq_bool step 0
        then map (fun t => t / inject_Z div * delta) y
        else map (fun t => t * step) y
      else map (fun t => t * delta) y in
    let y := map (fun t => t + start) y in
    Ok (if (1 <? num)%Z then set_last y stop else y).

(** [np.dot(p, atoms)] of two vectors; numpy raises ValueError when the
    lengths differ. *)
Definition np_dot (p z : list Q) : result Q :=
  if (length p =? length z)%nat then Ok (Qsum (zip_with Qmult p z))
  else Raise ValueError.

(** [np.argmax] of a vector: one pass keeping the first entry that is
    strictly greater than everything before it; ValueError on an empty
    vector. *)
Fixpoint argmax_from (best : Q) (best_i i : nat) (xs : list Q) : nat :=
  match xs with
  | [] => best_i
  | x :: xs' =>
      if Qle_bool x best then argmax_from best best_i (S i) xs'
      else argmax_from x i (S i) xs'
  end.

Definition argmax (xs : list Q) : result nat :=
  match xs with
  | [] => Raise ValueError
  | x :: xs' => Ok (argmax_from x 0 1 xs')
  end.

(** [np.clip(x, lo, hi)] is [minimum(maximum(x, lo), hi)]. *)
Definition clip (x lo hi : Q) : Q := Qmin (Qmax x lo) hi.

(** An index into an array of length [n], as numpy resolves it: a
    negative index counts from the end, anything outside [-n, n) raises
    IndexError. *)
Definition resolve_index (n : nat) (k : Z) : result nat :=
  if ((0 <=? k) && (k <? Z.of_nat n))%Z then Ok (Z.to_nat k)
  else if ((- Z.of_nat n <=? k) && (k <? 0))%Z then Ok (Z.to_nat (Z.of_nat n + k))
  else Raise IndexError.

(** [np.add.at(row, idx, vals)]: the unbuffered [row[idx[k]] += vals[k]]
    for every k in order, so that repeated indices accumulate.  Here
    [idx] and [vals] are rows of arrays of one shape (both have one entry
    per atom); shapes that do not agree raise ValueError. *)
Fixpoint add_at_loop (row : list Q) (idx : list Z) (vals : list Q)
  : result (list Q) :=
  match idx, vals with
  | k :: idx', v :: vals' =>
      do i <- resolve_index (length row) k ;
      add_at_loop (alter (fun x => x + v) i row) idx' vals'
  | _, _ => Ok row
  end.

Definition add_at (row : list Q) (idx : list Z) (vals : list Q)
  : result (list Q) :=
  if (length idx =? length vals)%nat then add_at_loop row idx vals
  else Raise ValueError.

(** Elementwise operations on two-dimensional arrays of one shape. *)
Definition map2d {A B} (f : A -> B) (m : list (list A)) : list (list B) :=
  map (map f) m.

Definition zip2d {A B C} (f : A -> B -> C)
  (m1 : list (list A)) (m2 : list (list B)) : list (list C) :=
  zip_with (zip_with f) m1 m2.

(** ** Configuration and agent *)

(** The options of [utils.config.Config] that this file reads.  Counts
    that numpy only accepts when non-negative are [nat]; [n_atoms] and the
    step counters are Python ints ([Z]). *)
Module Cfg.
Record t : Type := {
  input_dim : nat * nat;
  Categorical_n_atoms : Z;
  Categorical_Vmin : Q;
  Categorical_Vmax : Q;
  episodes : nat;
  steps : nat;
  batch_size : nat;
  replay_buffer_size : nat;
  discount_rate : Q;
  action_dim : nat;
  stop_explore : nat;
  weights_update_frequency : Z
}.
End Cfg.

Definition tensor3 : Type := list (list (list Q)).

Section Agent.

(** The collaborators: observations, a Keras model (its weights are
    what [fit] and [set_weights] change), the gym environment and the
    state of the random number generator behind [utils.policies] and
    [utils.replay_fn]. *)
Variables state network env rng : Type.

(** One entry of the replay buffer:
    [current_state, action, next_state, reward, done]. *)
Record Transition : Type := {
  t_current_state : state;
  t_action : nat;
  t_next_state : state;
  t_reward : Q;
  t_done : bool
}.

(** What [replay_fn.uniform_random_replay] returns. *)
Record Batch : Type := {
  current_states : list state;
  actions : list nat;
  next_states : list state;
  rewards : list Q;
  terminals : list bool
}.

Variable predict : network -> list state -> tensor3.
Variable fit : network -> list state -> tensor3 -> network * Q.
Variable env_reset : env -> env * state.
Variable env_step : env -> nat -> env * (state * Q * bool).
Variable epsilon_greedy : rng -> list Q -> nat -> nat -> rng * nat.
Variable uniform_random_replay : rng -> list Transition -> nat -> rng * Batch.

(** The attributes of a [CategoricalDQNAgent]. *)
Record Agent : Type := {
  config : Cfg.t;
  input_dim : nat * nat;
  n_atoms : Z;
  vmin : Q;
  vmax : Q;
  atoms : list Q;
  envs : option env;
  actor_network : option network;
  target_network : option network;
  total_steps : Z;
  episodes : nat;
  steps : nat;
  batch_size : nat;
  replay_buffer_size : nat;
  replay_buffer : list Transition;
  delta_z : Q
}.

(** [__init__].  [np.linspace] (line 20) runs first; line 38 is
    [delta_z = (Vmax - Vmin) / float(n_atoms - 1)], a division of Python
    numbers (the options of [Config] are plain ints and floats) by a
    Python float, which raises ZeroDivisionError when n_atoms is 1.
    Nothing else is checked.  The Keras checkpoint callback of line 42
    takes no part in what follows and is left out. *)
Definition __init__ (config : Cfg.t) : result Agent :=
  do z <- linspace (Cfg.Categorical_Vmin config) (Cfg.Categorical_Vmax config)
                   (Cfg.Categorical_n_atoms config) ;
  if (Cfg.Categorical_n_atoms config - 1 =? 0)%Z then Raise ZeroDivisionError
  else
    Ok {| config := config;
          input_dim := Cfg.input_dim config;
          n_atoms := Cfg.Categorical_n_atoms config;
          vmin := Cfg.Categorical_Vmin config;
          vmax := Cfg.Categorical_Vmax config;
          atoms := z;
          envs := None;
          actor_network := None;
          target_network := None;
          total_steps := 0;
          episodes := Cfg.episodes config;
          steps := Cfg.steps config;
          batch_size := Cfg.batch_size config;
          replay_buffer_size := Cfg.replay_buffer_size config;
          replay_buffer := [];
          delta_z := (Cfg.Categorical_Vmax config - Cfg.Categorical_Vmin config)
                     / inject_Z (Cfg.Categorical_n_atoms config - 1) |}.

(** *** [train_by_replay], lines 69-108: the projected target *)

Section Projection.

Variable self : Agent.

(** Line 69 (and 135, 175): [np.dot(prob, self.atoms)], one expectation
    per batch item and action. *)
Definition q_values (prob : tensor3) : result (list (list Q)) :=
  mapM (mapM (fun p => np_dot p (atoms self))) prob.

(** Line 70: [np.argmax(q_next, axis=1)]. *)
Definition action_next (q_next : list (list Q)) : result (list nat) :=
  mapM argmax q_next.

(** Line 74: [prob_next[np.arange(batch_size), action_next, :]], for a
    prediction of [batch_size] items, which is what the sampler of lines
    56-57 is asked for; the items past [batch_size] of a longer
    prediction are not looked at here. *)
Definition select_prob (prob_next : tensor3) (action_next : list nat)
  : result (list (list Q)) :=
  mapM (fun i =>
          do a <- from_option IndexError (action_next !! i) ;
          do dists <- from_option IndexError (prob_next !! i) ;
          from_option IndexError (dists !! a))
       (seq 0 (batch_size self)).

(** Line 77: [np.tile(rewards.reshape(batch_size, 1), (1, n_atoms))]. *)
Definition tile_rewards (rewards : list Q) : result (list (list Q)) :=
  if (length rewards =? batch_size self)%nat
  then Ok (map (fun r => replicate (Z.to_nat (n_atoms self)) r) rewards)
  else Raise ValueError.

Definition b2q (t : bool) : Q := if t then 1 else 0.

(** Lines 80-82: the reward-shifted, discounted atoms, before the
    clip.  The two reshapes raise when the sizes do not fit. *)
Definition atoms_next_raw (rewards : list (list Q)) (terminals : list bool)
  : result (list (list Q)) :=
  let discount_rate :=
    map (fun t => Cfg.discount_rate (config self) * (1 - b2q t)) terminals in
  if negb (length discount_rate =? batch_size self)%nat then Raise ValueError
  else if negb (Z.of_nat (length (atoms self)) =? n_atoms self)%Z
  then Raise ValueError
  else
    Ok (zip2d Qplus rewards
          (map (fun d => map (fun z => d * z) (atoms self)) discount_rate)).

(** Line 85. *)
Definition atoms_next (raw : list (list Q)) : list (list Q) :=
  map2d (fun x => clip x (vmin self) (vmax self)) raw.

(** Line 88, with the exact quotient.  In binary64 the quotient is
    rounded, after a [delta_z] that is itself rounded: [b_f64] below. *)
Definition b_coord (atoms_next : list (list Q)) : list (list Q) :=
  map2d (fun x => (x - Cfg.Categorical_Vmin (config self)) / delta_z self)
        atoms_next.

(** Line 89. *)
Definition l_floor (b : list (list Q)) : list (list Z) := map2d Qfloor b.
Definition u_ceil (b : list (list Q)) : list (list Z) := map2d Qceiling b.

(** Line 92: [(u + (l == u) - b) * prob_next]. *)
Definition d_m_l (l u : list (list Z)) (b prob_next : list (list Q))
  : list (list Q) :=
  let l_eq_u := zip2d Z.eqb l u in
  let w := zip2d Qminus
             (map2d inject_Z (zip2d (fun x e => x + Z.b2z e)%Z u l_eq_u)) b in
  zip2d Qmult w prob_next.

(** Line 93: [(b - l) * prob_next]. *)
Definition d_m_u (l : list (list Z)) (b prob_next : list (list Q))
  : list (list Q) :=
  zip2d Qmult (zip2d Qminus b (map2d inject_Z l)) prob_next.

(** Line 103. *)
Definition zeros3 (d1 d2 d3 : nat) : tensor3 :=
  replicate d1 (replicate d2 (replicate d3 0)).

(** Lines 106-108, the body of the loop for batch item [i].  Both
    [np.add.at] calls index with [l[i]]. *)
Definition scatter_body (action_next : list nat) (l : list (list Z))
  (d_m_l d_m_u : list (list Q)) (target_histo : tensor3) (i : nat)
  : result tensor3 :=
  do a <- from_option IndexError (action_next !! i) ;
  do plane <- from_option IndexError (target_histo !! i) ;
  do row <- from_option IndexError (plane !! a) ;
  let row := map (fun _ => 0) row in
  do l_i <- from_option IndexError (l !! i) ;
  do d_m_l_i <- from_option IndexError (d_m_l !! i) ;
  do row <- add_at row l_i d_m_l_i ;
  do d_m_u_i <- from_option IndexError (d_m_u !! i) ;
  do row <- add_at row l_i d_m_u_i ;
  Ok (<[i := <[a := row]> plane]> target_histo).

(** Lines 69-108 together: from the target network's prediction and the
    sampled rewards and terminal flags to [target_histo]. *)
Definition target_histogram (prob_next : tensor3) (rewards : list Q)
  (terminals : list bool) : result tensor3 :=
  do q_next <- q_values prob_next ;
  do action_next <- action_next q_next ;
  do prob_next <- select_prob prob_next action_next ;
  do rewards <- tile_rewards rewards ;
  do raw <- atoms_next_raw rewards terminals ;
  let atoms_next := atoms_next raw in
  let b := b_coord atoms_next in
  let l := l_floor b in
  let u := u_ceil b in
  let d_m_l := d_m_l l u b prob_next in
  let d_m_u := d_m_u l b prob_next in
  let target_histo :=
    zeros3 (batch_size self) (Cfg.action_dim (config self))
           (Z.to_nat (n_atoms self)) in
  for_each (scatter_body action_next l d_m_l d_m_u)
           (seq 0 (batch_size self)) target_histo.

End Projection.

(** *** Attribute assignment *)

Definition set_envs (self : Agent) (e : option env) : Agent :=
  {| config := config self; input_dim := input_dim self;
     n_atoms := n_atoms self; vmin := vmin self; vmax := vmax self;
     atoms := atoms self; envs := e;
     actor_network := actor_network self;
     target_network := target_network self;
     total_steps := total_steps self; episodes := episodes self;
     steps := steps self; batch_size := batch_size self;
     replay_buffer_size := replay_buffer_size self;
     replay_buffer := replay_buffer self; delta_z := delta_z self |}.

Definition set_actor_network (self : Agent) (m : option network) : Agent :=
  {| config := config self; input_dim := input_dim self;
     n_atoms := n_atoms self; vmin := vmin self; vmax := vmax self;
     atoms := atoms self; envs := envs self;
     actor_network := m;
     target_network := target_network self;
     total_steps := total_steps self; episodes := episodes self;
     steps := steps self; batch_size := batch_size self;
     replay_buffer_size := replay_buffer_size self;
     replay_buffer := replay_buffer self; delta_z := delta_z self |}.

Definition set_target_network (self : Agent) (m : option network) : Agent :=
  {| config := config self; input_dim := input_dim self;
     n_atoms := n_atoms self; vmin := vmin self; vmax := vmax self;
     atoms := atoms self; envs := envs self;
     actor_network := actor_network self;
     target_network := m;
     total_steps := total_steps self; episodes := episodes self;
     steps := steps self; batch_size := batch_size self;
     replay_buffer_size := replay_buffer_size self;
     replay_buffer := replay_buffer self; delta_z := delta_z self |}.

Definition set_total_steps (self : Agent) (t : Z) : Agent :=
  {| config := config self; input_dim := input_dim self;
     n_atoms := n_atoms self; vmin := vmin self; vmax := vmax self;
     atoms := atoms self; envs := envs self;
     actor_network := actor_network self;
     target_network := target_network self;
     total_steps := t; episodes := episodes self;
     steps := steps self; batch_size := batch_size self;
     replay_buffer_size := replay_buffer_size self;
     replay_buffer := replay_buffer self; delta_z := delta_z self |}.

Definition set_replay_buffer (self : Agent) (b : list Transition) : Agent :=
  {| config := config self; input_dim := input_dim self;
     n_atoms := n_atoms self; vmin := vmin self; vmax := vmax self;
     atoms := atoms self; envs := envs self;
     actor_network := actor_network self;
     target_network := target_network self;
     total_steps := total_steps self; episodes := episodes self;
     steps := steps self; batch_size := batch_size self;
     replay_buffer_size := replay_buffer_size self;
     replay_buffer := b; delta_z := delta_z self |}.

(** *** [train_by_replay] *)

(** Lines 56-111.  The sampler of lines 56-57 is a collaborator, taken
    here as handing back a batch; what it raises itself, on an empty
    buffer for one, is not part of this definition. *)
Definition train_by_replay (self : Agent) (g : rng)
  : result (Agent * rng * Q) :=
  let '(g, sample) :=
    uniform_random_replay g (replay_buffer self) (batch_size self) in
  do target <- from_option AttributeError (target_network self) ;
  let prob_next := predict target (next_states sample) in
  do target_histo <-
    target_histogram self prob_next (rewards sample) (terminals sample) ;
  do actor <- from_option AttributeError (actor_network self) ;
  let '(actor, loss) := fit actor (current_states sample) target_histo in
  Ok (set_actor_network self (Some actor), g, loss).

(** *** [transition] *)

(** The agent in its surroundings: the generator state, and the record
    of the calls [target_network.set_weights(...)] made so far, each
    entered with the value of [total_steps] at the call. *)
Record Run : Type := {
  agent : Agent;
  gen : rng;
  set_weights_log : list Z
}.

(** Lines 126-154: one pass through the body of the inner loop, up to
    the test of [done]. *)
Definition step_body (each_ep : nat) (r : Run) (current_state : state)
  : result (Run * state * bool) :=
  let self := agent r in
  let self := set_total_steps self (total_steps self + 1)%Z in
  do actor <- from_option AttributeError (actor_network self) ;
  let action_prob := predict actor [current_state] in
  do action_value <- q_values self action_prob ;
  do action_value_0 <- from_option IndexError (action_value !! 0%nat) ;
  let '(g, action) :=
    epsilon_greedy (gen r) action_value_0 each_ep
                   (Cfg.stop_explore (config self)) in
  do e <- from_option AttributeError (envs self) ;
  let '(e, (next_state, reward, done)) := env_step e action in
  let self := set_envs self (Some e) in
  let self :=
    set_replay_buffer self
      (replay_buffer self ++
       [{| t_current_state := current_state; t_action := action;
           t_next_state := next_state; t_reward := reward;
           t_done := done |}]) in
  do ' (self, g) <-
    (if (length (replay_buffer self) =? replay_buffer_size self)%nat
     then do ' (self, g, _) <- train_by_replay self g ;
          Ok (set_replay_buffer self [], g)
     else Ok (self, g)) ;
  do ' (self, log) <-
    (if (Cfg.weights_update_frequency (config self) <? total_steps self)%Z
     then do _ <- from_option AttributeError (target_network self) ;
          do actor <- from_option AttributeError (actor_network self) ;
          Ok (set_target_network self (Some actor),
              set_weights_log r ++ [total_steps self])
     else Ok (self, set_weights_log r)) ;
  Ok ({| agent := self; gen := g; set_weights_log := log |},
      next_state, done).

(** Lines 125-161: [for step in range(self.steps)], left at the first
    [done]. *)
Fixpoint step_loop (n : nat) (each_ep : nat) (r : Run)
  (current_state : state) : result Run :=
  match n with
  | O => Ok r
  | S n' =>
      do ' (r, next_state, done) <- step_body each_ep r current_state ;
      if done : bool then Ok r else step_loop n' each_ep r next_state
  end.

(** Lines 122-125: one episode. *)
Definition episode (r : Run) (each_ep : nat) : result Run :=
  do e <- from_option AttributeError (envs (agent r)) ;
  let '(e, current_state) := env_reset e in
  let r := {| agent := set_envs (agent r) (Some e); gen := gen r;
              set_weights_log := set_weights_log r |} in
  step_loop (steps (agent r)) each_ep r current_state.

Definition transition (r : Run) : result Run :=
  for_each episode (seq 0 (episodes (agent r))) r.

(** *** [eval_step], lines 172-176: the action of the evaluation policy *)
Definition eval_action (self : Agent) (current_state : state)
  : result nat :=
  do actor <- from_option AttributeError (actor_network self) ;
  let action_prob := predict actor [current_state] in
  do action_value <- q_values self action_prob ;
  do action_value_0 <- from_option IndexError (action_value !! 0%nat) ;
  argmax action_value_0.

End Agent.

Arguments __init__ {state network env} config.
Arguments config {state network env} _.
Arguments input_dim {state network env} _.
Arguments n_atoms {state network env} _.
Arguments vmin {state network env} _.
Arguments vmax {state network env} _.
Arguments atoms {state network env} _.
Arguments envs {state network env} _.
Arguments actor_network {state network env} _.
Arguments target_network {state network env} _.
Arguments total_steps {state network env} _.
Arguments episodes {state network env} _.
Arguments steps {state network env} _.
Arguments batch_size {state network env} _.
Arguments replay_buffer_size {state network env} _.
Arguments replay_buffer {state network env} _.
Arguments delta_z {state network env} _.
Arguments set_envs {state network env} self _.
Arguments set_actor_network {state network env} self _.
Arguments set_target_network {state network env} self _.
Arguments set_total_steps {state network env} self _.
Arguments set_replay_buffer {state network env} self _.
Arguments agent {state network env rng} _.
Arguments gen {state network env rng} _.
Arguments set_weights_log {state network env rng} _.
Arguments Build_Run {state network env rng} _ _ _.
Arguments train_by_replay {state network env rng}
  predict fit uniform_random_replay self g.
Arguments step_body {state network env rng}
  predict fit env_step epsilon_greedy uniform_random_replay
  each_ep r current_state.
Arguments step_loop {state network env rng}
  predict fit env_step epsilon_greedy uniform_random_replay
  n each_ep r current_state.
Arguments episode {state network env rng}
  predict fit env_reset env_step epsilon_greedy uniform_random_replay
  r each_ep.
Arguments transition {state network env rng}
  predict fit env_reset env_step epsilon_greedy uniform_random_replay r.
Arguments current_states {state} _.
Arguments actions {state} _.
Arguments next_states {state} _.
Arguments rewards {state} _.
Arguments terminals {state} _.

Arguments q_values {state network env} self prob.
Arguments select_prob {state network env} self prob_next action_next.
Arguments tile_rewards {state network env} self rewards.
Arguments atoms_next_raw {state network env} self rewards terminals.
Arguments atoms_next {state network env} self raw.
Arguments b_coord {state network env} self atoms_next.
Arguments target_histogram {state network env} self prob_next rewards terminals.
Arguments eval_action {state network env} predict self current_state.

(** ** [eval_step] *)

Section Evaluation.

Variables state network env : Type.
Variable predict : network -> list state -> tensor3.
Variable env_reset : env -> env * state.
Variable env_render : env -> env.
Variable env_step : env -> nat -> env * (state * Q * bool).

(** Lines 171-183: [for step in range(200)], left at the first [done].
    [taken] collects the actions passed to [envs.step]. *)
Fixpoint eval_steps (n : nat) (self : Agent state network env)
  (current_state : state) (taken : list nat)
  : result (Agent state network env * list nat) :=
  match n with
  | O => Ok (self, taken)
  | S n' =>
      do action <- eval_action predict self current_state ;
      do e <- from_option AttributeError (envs self) ;
      let '(e, (next_state, _, done)) := env_step e action in
      let self := set_envs self (Some e) in
      if done : bool then Ok (self, taken ++ [action])
      else eval_steps n' self next_state (taken ++ [action])
  end.

(** Lines 165-183: one evaluation episode; [render] is the argument of
    [eval_step] ([time.sleep] changes nothing that is modelled).  The
    actions of the episode are appended to [trace]. *)
Definition eval_episode (render : bool)
  (st : Agent state network env * list (list nat)) (each_ep : nat)
  : result (Agent state network env * list (list nat)) :=
  let '(self, trace) := st in
  do e <- from_option AttributeError (envs self) ;
  let '(e, current_state) := env_reset e in
  let e := if render then env_render e else e in
  let self := set_envs self (Some e) in
  do ' (self, taken) <- eval_steps 200 self current_state [] ;
  Ok (self, trace ++ [taken]).

(** [eval_step]: [for each_ep in range(100)]. *)
Definition eval_step (render : bool) (self : Agent state network env)
  : result (Agent state network env * list (list nat)) :=
  for_each (eval_episode render) (seq 0 100) (self, []).

End Evaluation.

Arguments eval_steps {state network env} predict env_step n self current_state taken.
Arguments eval_episode {state network env} predict env_reset env_render env_step
  render st each_ep.
Arguments eval_step {state network env} predict env_reset env_render env_step
  render self.

(** ** Lines 38, 85, 88 and 89 in binary64

    The bin coordinate as numpy computes it: with the IEEE 754 double
    precision operations, rounded to nearest at every step.  The exact
    quotient of [b_coord] above and the rounded one below can fall on
    different sides of an integer. *)






(** * Vocabulary of the statements *)

(** ** Arrays *)

(** [m[i][j]], when both indices are in range. *)
Definition get2 {A} (m : list (list A)) (i j : nat) : option A :=
  match m !! i with
  | Some row => row !! j
  | None => None
  end.

Definition shape2 {A} (m : list (list A)) (d1 d2 : nat) : Prop :=
  length m = d1 /\ Forall (fun row => length row = d2) m.

Definition shape3 (t : tensor3) (d1 d2 d3 : nat) : Prop :=
  length t = d1 /\ Forall (fun plane => shape2 plane d2 d3) t.

(** ** The first maximum *)

(** [i] is the least index at which [row] takes its greatest value. *)
Definition first_max (row : list Q) (i : nat) : Prop :=
  exists v, row !! i = Some v
            /\ forall j x, row !! j = Some x ->
                           x <= v /\ ((j < i)%nat -> x < v).

(** ** The interpolation weights of lines 92 and 93 *)

Definition lower_weight (b : Q) : Q :=
  inject_Z (Qceiling b + Z.b2z (Qfloor b =? Qceiling b)%Z) - b.

Definition upper_weight (b : Q) : Q := b - inject_Z (Qfloor b).

(** ** Invariants of the scatter loop *)

(** Every row of [th] that is not the row of the selected action of its
    batch item holds zeros only. *)
Definition zero_elsewhere (an : list nat) (th : tensor3) : Prop :=
  forall b a plane row j x,
    th !! b = Some plane -> plane !! a = Some row -> an !! b <> Some a ->
    row !! j = Some x -> x = 0.

(** What holds of [target_histo] once the batch items in [done] have
    been through the loop body: its shape is kept, and the row of the
    selected action of each of them carries the mass of the selected
    distribution. *)
Definition scattered (bs A N : nat) (an : list nat) (sel : list (list Q))
  (done : list nat) (th : tensor3) : Prop :=
  shape3 th bs A N
  /\ forall i, i ∈ done ->
       exists a p plane row,
         an !! i = Some a /\ sel !! i = Some p /\ th !! i = Some plane
         /\ plane !! a = Some row /\ Qsum row == Qsum p.

(** ** The log of [set_weights] calls *)

(** The values [total_steps] takes during the [k] steps after it was [t]. *)
Definition steps_after (t : Z) (k : nat) : list Z :=
  map (fun j => (t + Z.of_nat j)%Z) (seq 1 k).

(** The log of [r'] extends that of [r] by the steps, among the [k] that
    were taken, at which [total_steps] was above the threshold. *)
Definition logged {state network env rng : Type}
  (r r' : Run state network env rng) (k : nat) : Prop :=
  config (agent r') = config (agent r)
  /\ steps (agent r') = steps (agent r)
  /\ total_steps (agent r') = (total_steps (agent r) + Z.of_nat k)%Z
  /\ set_weights_log r' =
     set_weights_log r ++
     List.filter
       (fun t => (Cfg.weights_update_frequency (config (agent r)) <? t)%Z)
       (steps_after (total_steps (agent r)) k).

(** ** What an agent keeps *)

(** The configuration, the support and the sizes of [a'] are those of [a]. *)
Definition same_settings {state network env : Type}
  (a a' : Agent state network env) : Prop :=
  config a' = config a /\ input_dim a' = input_dim a
  /\ n_atoms a' = n_atoms a /\ vmin a' = vmin a /\ vmax a' = vmax a
  /\ atoms a' = atoms a /\ delta_z a' = delta_z a
  /\ episodes a' = episodes a /\ steps a' = steps a
  /\ batch_size a' = batch_size a
  /\ replay_buffer_size a' = replay_buffer_size a.

(** ** Relations between two moments of a run *)

(** Everything but the environment is as it was. *)
Definition only_env_changed {state network env : Type}
  (a a' : Agent state network env) : Prop :=
  same_settings a a'
  /\ actor_network a' = actor_network a
  /\ target_network a' = target_network a
  /\ total_steps a' = total_steps a
  /\ replay_buffer a' = replay_buffer a.

(** [k] steps lie between [r] and [r']; below its capacity the replay
    buffer fills and empties in a cycle, at or above it the buffer only
    grows and the actor network is never trained. *)
Definition buffer_after {state network env rng : Type}
  (r r' : Run state network env rng) (k : nat) : Prop :=
  same_settings (agent r) (agent r')
  /\ total_steps (agent r') = (total_steps (agent r) + Z.of_nat k)%Z
  /\ ((length (replay_buffer (agent r)) < replay_buffer_size (agent r))%nat ->
      length (replay_buffer (agent r')) =
      ((length (replay_buffer (agent r)) + k)
         mod replay_buffer_size (agent r))%nat)
  /\ ((replay_buffer_size (agent r) <= length (replay_buffer (agent r)))%nat ->
      length (replay_buffer (agent r')) =
      (length (replay_buffer (agent r)) + k)%nat
      /\ actor_network (agent r') = actor_network (agent r)).

(** How the target network of [r'] relates to the networks of [r] and
    [r'], by the step counts of the two moments. *)
Definition target_follows {state network env rng : Type}
  (r r' : Run state network env rng) : Prop :=
  config (agent r') = config (agent r)
  /\ steps (agent r') = steps (agent r)
  /\ (total_steps (agent r) <= total_steps (agent r'))%Z
  /\ (total_steps (agent r') = total_steps (agent r) ->
      target_network (agent r') = target_network (agent r)
      /\ actor_network (agent r') = actor_network (agent r))
  /\ ((total_steps (agent r')
       <= Cfg.weights_update_frequency (config (agent r)))%Z ->
      target_network (agent r') = target_network (agent r))
  /\ ((total_steps (agent r) < total_steps (agent r'))%Z ->
      (Cfg.weights_update_frequency (config (agent r))
       < total_steps (agent r'))%Z ->
      is_Some (actor_network (agent r'))
      /\ target_network (agent r') = actor_network (agent r')).

(** ** Mass per bin *)

(** The part of [vals] whose index in [idx] is [k]:
    the sum of [vals[j]] over the [j] with [idx[j] = k]. *)
Definition binned (idx : list Z) (vals : list Q) (k : nat) : Q :=
  Qsum (zip_with (fun i v => if (i =? Z.of_nat k)%Z then v else 0) idx vals).

(** What holds of [target_histo] once the batch items in [done] have
    been through the loop body, entry by entry: the row of the selected
    action holds, in every bin, the mass of the selected distribution
    whose index in [l] is that bin. *)
Definition binned_rows (bs A N : nat) (an : list nat) (sel : list (list Q))
  (l : list (list Z)) (done : list nat) (th : tensor3) : Prop :=
  shape3 th bs A N
  /\ forall i, i ∈ done ->
       exists a p l_i plane row,
         an !! i = Some a /\ sel !! i = Some p /\ l !! i = Some l_i
         /\ th !! i = Some plane /\ plane !! a = Some row
         /\ length row = N
         /\ forall k x, row !! k = Some x -> x == binned l_i p k.

(** * Concrete inputs *)

(** A configuration with Vmin = Vmax = 5 and two atoms. *)
Definition cfg_flat : Cfg.t :=
  {| Cfg.input_dim := (4, 1)%nat;
     Cfg.Categorical_n_atoms := 2;
     Cfg.Categorical_Vmin := 5;
     Cfg.Categorical_Vmax := 5;
     Cfg.episodes := 1;
     Cfg.steps := 1;
     Cfg.batch_size := 1;
     Cfg.replay_buffer_size := 1;
     Cfg.discount_rate := 1;
     Cfg.action_dim := 1;
     Cfg.stop_explore := 0;
     Cfg.weights_update_frequency := 1 |}.

(** Three atoms 0, 1, 2 (delta_z = 1), two actions, one transition per
    batch, no discounting. *)
Definition cfg_demo : Cfg.t :=
  {| Cfg.input_dim := (4, 1)%nat;
     Cfg.Categorical_n_atoms := 3;
     Cfg.Categorical_Vmin := 0;
     Cfg.Categorical_Vmax := 2;
     Cfg.episodes := 1;
     Cfg.steps := 4;
     Cfg.batch_size := 1;
     Cfg.replay_buffer_size := 100;
     Cfg.discount_rate := 1;
     Cfg.action_dim := 2;
     Cfg.stop_explore := 0;
     Cfg.weights_update_frequency := 2 |}.

(** What [__init__ cfg_demo] builds; the fractions are as the arithmetic
    of [np.linspace] leaves them (0/2, 2/2, 2). *)
Definition demo_agent : Agent unit unit unit :=
  {| config := cfg_demo;
     input_dim := (4, 1)%nat;
     n_atoms := 3;
     vmin := 0;
     vmax := 2;
     atoms := [0 # 2; 2 # 2; 2];
     envs := None;
     actor_network := None;
     target_network := None;
     total_steps := 0;
     episodes := 1;
     steps := 4;
     batch_size := 1;
     replay_buffer_size := 100;
     replay_buffer := [];
     delta_z := 2 # 2 |}.

(** The target network's prediction for the one next state: action 0 has
    all its mass on atom 0, action 1 on atom 2. *)
Definition prob_demo : tensor3 := [[[1; 0; 0]; [0; 0; 1]]].

(** Every fraction brought to lowest terms, to compare arrays. *)
Definition reduced (r : result tensor3) : result tensor3 :=
  match r with
  | Ok t => Ok (map (map (map Qred)) t)
  | Raise e => Raise e
  end.

(** The loop body as the specification words it (and as the paper and
    the comment of line 108 have it): the lower contribution goes to
    index l, the upper contribution to index u. *)
Definition scatter_body_as_specified (action_next : list nat)
  (l u : list (list Z)) (d_m_l d_m_u : list (list Q))
  (target_histo : tensor3) (i : nat) : result tensor3 :=
  do a <- from_option IndexError (action_next !! i) ;
  do plane <- from_option IndexError (target_histo !! i) ;
  do row <- from_option IndexError (plane !! a) ;
  let row := map (fun _ => 0) row in
  do l_i <- from_option IndexError (l !! i) ;
  do d_m_l_i <- from_option IndexError (d_m_l !! i) ;
  do row <- add_at row l_i d_m_l_i ;
  do u_i <- from_option IndexError (u !! i) ;
  do d_m_u_i <- from_option IndexError (d_m_u !! i) ;
  do row <- add_at row u_i d_m_u_i ;
  Ok (<[i := <[a := row]> plane]> target_histo).

(** The collaborators of a run by hand: an environment that never ends
    an episode, a policy that always plays action 0, a network whose
    prediction is [prob_demo] and whose weights [fit] leaves alone. *)
Definition demo_run : Run unit unit unit unit :=
  {| agent :=
       set_target_network
         (set_actor_network (set_envs demo_agent (Some tt)) (Some tt))
         (Some tt);
     gen := tt;
     set_weights_log := [] |}.

Definition demo_transition : result (Run unit unit unit unit) :=
  transition
    (fun _ _ => prob_demo)
    (fun w _ _ => (w, 0))
    (fun e => (e, tt))
    (fun e _ => (e, (tt, 0, false)))
    (fun g _ _ _ => (g, 0%nat))
    (fun g _ _ =>
       (g, {| current_states := []; actions := []; next_states := [];
              rewards := []; terminals := [] |}))
    demo_run.

(** The run by hand, started with a replay buffer that already holds
    [replay_buffer_size] = 100 transitions. *)
Definition demo_run_full : Run unit unit unit unit :=
  {| agent :=
       set_replay_buffer (agent demo_run)
         (replicate 100 {| t_current_state := tt; t_action := 0%nat;
                           t_next_state := tt; t_reward := 0;
                           t_done := false |});
     gen := tt;
     set_weights_log := [] |}.

(** A run that drains its buffer: the configuration by hand with room
    for three transitions only, and a sampler that hands back one
    transition (reward 0, not terminal) whatever the buffer holds.  Four
    steps fill the buffer at the third step, train and clear it there,
    and leave the fourth transition alone in it. *)
Definition cfg_drain : Cfg.t :=
  {| Cfg.input_dim := (4, 1)%nat;
     Cfg.Categorical_n_atoms := 3;
     Cfg.Categorical_Vmin := 0;
     Cfg.Categorical_Vmax := 2;
     Cfg.episodes := 1;
     Cfg.steps := 4;
     Cfg.batch_size := 1;
     Cfg.replay_buffer_size := 3;
     Cfg.discount_rate := 1;
     Cfg.action_dim := 2;
     Cfg.stop_explore := 0;
     Cfg.weights_update_frequency := 2 |}.

Definition drain_agent : Agent unit unit unit :=
  {| config := cfg_drain;
     input_dim := (4, 1)%nat;
     n_atoms := 3;
     vmin := 0;
     vmax := 2;
     atoms := [0 # 2; 2 # 2; 2];
     envs := Some tt;
     actor_network := Some tt;
     target_network := Some tt;
     total_steps := 0;
     episodes := 1;
     steps := 4;
     batch_size := 1;
     replay_buffer_size := 3;
     replay_buffer := [];
     delta_z := 2 # 2 |}.

Definition drain_run : Run unit unit unit unit :=
  {| agent := drain_agent; gen := tt; set_weights_log := [] |}.

Definition one_transition_replay (g : unit) (buffer : list (Transition unit))
  (n : nat) : unit * Batch unit :=
  (g, {| current_states := [tt]; actions := [0%nat]; next_states := [tt];
         rewards := [0]; terminals := [false] |}).

Definition drain_transition : result (Run unit unit unit unit) :=
  transition
    (fun _ _ => prob_demo)
    (fun w _ _ => (w, 0))
    (fun e => (e, tt))
    (fun e _ => (e, (tt, 0, false)))
    (fun g _ _ _ => (g, 0%nat))
    one_transition_replay
    drain_run.

(** * Properties *)

(** ** The error monad *)

Lemma bind_Ok {A B} (m : result A) (k : A -> result B) (b : B) :
  bind m k = Ok b -> exists a, m = Ok a /\ k a = Ok b.
Proof. destruct m as [a|e]; simpl; [eauto | discriminate]. Qed.

Lemma from_option_Ok {A} (e : exn) (o : option A) (a : A) :
  from_option e o = Ok a -> o = Some a.
Proof. destruct o; simpl; congruence. Qed.

Lemma mapM_Ok_length {A B} (f : A -> result B) xs ys :
  mapM f xs = Ok ys -> length ys = length xs.
Proof.
  revert ys; induction xs as [|x xs IH]; simpl; intros ys H.
  - injection H as <-; reflexivity.
  - apply bind_Ok in H as (y & _ & H).
    apply bind_Ok in H as (ys' & Hys & H).
    injection H as <-; simpl; f_equal; auto.
Qed.

Lemma mapM_Ok_lookup {A B} (f : A -> result B) xs ys i y :
  mapM f xs = Ok ys -> ys !! i = Some y ->
  exists x, xs !! i = Some x /\ f x = Ok y.
Proof.
  revert ys i; induction xs as [|x xs IH]; simpl; intros ys i H Hy.
  - injection H as <-; destruct i; discriminate.
  - apply bind_Ok in H as (y0 & Hy0 & H).
    apply bind_Ok in H as (ys' & Hys & H).
    injection H as <-.
    destruct i as [|i]; simpl in *.
    + injection Hy as <-; eauto.
    + eauto.
Qed.

Lemma mapM_total {A B} (f : A -> result B) xs :
  (forall x, x ∈ xs -> exists y, f x = Ok y) -> exists ys, mapM f xs = Ok ys.
Proof.
  induction xs as [|x xs IH]; simpl; intros H; [eauto|].
  destruct (H x) as [y Hy]; [left|].
  destruct IH as [ys Hys]; [intros; apply H; right; assumption|].
  rewrite Hy, Hys; simpl; eauto.
Qed.

(** ** [np.linspace] and the support *)

Lemma length_arange n : length (arange n) = n.
Proof. unfold arange. rewrite length_map, length_seq. reflexivity. Qed.

Lemma lookup_arange n i : (i < n)%nat -> arange n !! i = Some (Zq i).
Proof.
  intros Hi. unfold arange.
  rewrite list_lookup_fmap, lookup_seq_lt by assumption. reflexivity.
Qed.

Lemma Zq_S i : Zq (S i) == Zq i + 1.
Proof.
  unfold Zq. rewrite Nat2Z.inj_succ, <- Z.add_1_r, inject_Z_plus. reflexivity.
Qed.

Lemma Zq_lt i j : (i < j)%nat -> Zq i < Zq j.
Proof. intros H. unfold Zq. rewrite <- Zlt_Qlt. lia. Qed.

Lemma Zq_pred (num : Z) :
  (1 <= num)%Z -> Zq (pred (Z.to_nat num)) == inject_Z (num - 1).
Proof.
  intros H. unfold Zq.
  replace (Z.of_nat (pred (Z.to_nat num))) with (num - 1)%Z by lia.
  reflexivity.
Qed.

(** With at least two points and distinct end points, [linspace] takes
    its main branch. *)
Lemma linspace_main (start stop : Q) (num : Z) :
  (2 <= num)%Z -> ~ stop == start ->
  linspace start stop num =
  Ok (set_last
        (map (fun t => t + start)
             (map (fun t => t * ((stop - start) / inject_Z (num - 1)))
                  (arange (Z.to_nat num))))
        stop).
Proof.
  intros Hn Hne. unfold linspace.
  destruct (Z.ltb_spec num 0); [lia|].
  destruct (Z.ltb_spec 0 (num - 1)); [|lia].
  destruct (Z.ltb_spec 1 num); [|lia].
  destruct (Qeq_bool ((stop - start) / inject_Z (num - 1)) 0) eqn:E;
    [|reflexivity].
  exfalso. apply Qeq_bool_eq in E. apply Hne.
  assert (Hd : ~ inject_Z (num - 1) == 0).
  { change 0 with (inject_Z 0). rewrite inject_Z_injective. lia. }
  assert (Hm : (stop - start) / inject_Z (num - 1) * inject_Z (num - 1)
               == stop - start) by (field; exact Hd).
  rewrite E in Hm. lra.
Qed.

(** The closed form of every atom: [start + i * step]. *)
Lemma linspace_lookup (start stop : Q) (num : Z) (z : list Q) (i : nat) :
  (2 <= num)%Z -> ~ stop == start ->
  linspace start stop num = Ok z ->
  (i < Z.to_nat num)%nat ->
  exists x, z !! i = Some x /\
            x == start + Zq i * ((stop - start) / inject_Z (num - 1)).
Proof.
  intros Hn Hne Hz Hi. rewrite linspace_main in Hz by assumption.
  injection Hz as <-. unfold set_last.
  rewrite !length_map, length_arange.
  assert (Hd : ~ inject_Z (num - 1) == 0).
  { change 0 with (inject_Z 0). rewrite inject_Z_injective. lia. }
  destruct (decide (i = pred (Z.to_nat num))) as [->|Hlast].
  - exists stop. split.
    + apply list_lookup_insert_eq. rewrite !length_map, length_arange. lia.
    + rewrite Zq_pred by lia. field. exact Hd.
  - exists (Zq i * ((stop - start) / inject_Z (num - 1)) + start). split.
    + rewrite list_lookup_insert_ne by congruence.
      rewrite !list_lookup_fmap, lookup_arange by assumption. reflexivity.
    + ring.
Qed.

Lemma linspace_length (start stop : Q) (num : Z) (z : list Q) :
  linspace start stop num = Ok z -> length z = Z.to_nat num.
Proof.
  unfold linspace. destruct (num <? 0)%Z; [discriminate|].
  intros H. injection H as <-.
  assert (L : forall y : list Q, length (if (1 <? num)%Z then set_last y stop else y)
                            = length y).
  { intros y. destruct (1 <? num)%Z; [apply length_insert | reflexivity]. }
  rewrite L, length_map.
  destruct (0 <? num - 1)%Z; [destruct (Qeq_bool _ _)|];
    rewrite length_map; apply length_arange.
Qed.

Lemma init_Ok {state network env : Type} (cfg : Cfg.t)
  (self : Agent state network env) :
  __init__ cfg = Ok self ->
  linspace (Cfg.Categorical_Vmin cfg) (Cfg.Categorical_Vmax cfg)
           (Cfg.Categorical_n_atoms cfg) = Ok (atoms self)
  /\ Cfg.Categorical_n_atoms cfg <> 1%Z
  /\ config self = cfg
  /\ n_atoms self = Cfg.Categorical_n_atoms cfg
  /\ vmin self = Cfg.Categorical_Vmin cfg
  /\ vmax self = Cfg.Categorical_Vmax cfg
  /\ batch_size self = Cfg.batch_size cfg
  /\ delta_z self = (Cfg.Categorical_Vmax cfg - Cfg.Categorical_Vmin cfg)
                    / inject_Z (Cfg.Categorical_n_atoms cfg - 1).
Proof.
  unfold __init__. intros H.
  apply bind_Ok in H as (z & Hz & H).
  destruct (Z.eqb_spec (Cfg.Categorical_n_atoms cfg - 1) 0); [discriminate|].
  injection H as <-. simpl. repeat split; try assumption. lia.
Qed.

Lemma init_valid {state network env : Type} (cfg : Cfg.t) :
  (2 <= Cfg.Categorical_n_atoms cfg)%Z ->
  exists self : Agent state network env, __init__ cfg = Ok self.
Proof.
  intros Hn. unfold __init__, linspace.
  destruct (Z.ltb_spec (Cfg.Categorical_n_atoms cfg) 0); [lia|].
  simpl.
  destruct (Z.eqb_spec (Cfg.Categorical_n_atoms cfg - 1) 0); [lia|].
  eauto.
Qed.

Lemma delta_z_pos (lo hi : Q) (n : Z) :
  (2 <= n)%Z -> lo < hi -> 0 < (hi - lo) / inject_Z (n - 1).
Proof.
  intros Hn Hlt. apply Qlt_shift_div_l.
  - change 0 with (inject_Z 0). rewrite <- Zlt_Qlt. lia.
  - lra.
Qed.

(** C4.  For a valid configuration (n_atoms >= 2, Vmax > Vmin) [__init__]
    succeeds and the support has exactly n_atoms atoms, starts at Vmin,
    ends at Vmax, has delta_z = (Vmax - Vmin) / (n_atoms - 1), consecutive
    atoms differ by delta_z, and the atoms are strictly increasing. *)
Theorem support_uniform_grid {state network env : Type} (cfg : Cfg.t) :
  (2 <= Cfg.Categorical_n_atoms cfg)%Z ->
  Cfg.Categorical_Vmin cfg < Cfg.Categorical_Vmax cfg ->
  exists self : Agent state network env,
    __init__ cfg = Ok self
    /\ Z.of_nat (length (atoms self)) = Cfg.Categorical_n_atoms cfg
    /\ (exists x, atoms self !! 0%nat = Some x /\ x == Cfg.Categorical_Vmin cfg)
    /\ (exists x, atoms self !! Z.to_nat (Cfg.Categorical_n_atoms cfg - 1) = Some x
                  /\ x == Cfg.Categorical_Vmax cfg)
    /\ delta_z self == (Cfg.Categorical_Vmax cfg - Cfg.Categorical_Vmin cfg)
                       / inject_Z (Cfg.Categorical_n_atoms cfg - 1)
    /\ (forall i x y, atoms self !! i = Some x -> atoms self !! S i = Some y ->
                      y - x == delta_z self)
    /\ (forall i j x y, (i < j)%nat ->
                        atoms self !! i = Some x -> atoms self !! j = Some y ->
                        x < y).
Proof.
  intros Hn Hlt.
  destruct (init_valid (state:=state) (network:=network) (env:=env) cfg Hn)
    as [self Hself].
  exists self. split; [exact Hself|].
  destruct (init_Ok _ _ Hself) as (Hz & _ & _ & _ & _ & _ & _ & Hd).
  set (lo := Cfg.Categorical_Vmin cfg) in *.
  set (hi := Cfg.Categorical_Vmax cfg) in *.
  set (n := Cfg.Categorical_n_atoms cfg) in *.
  assert (Hne : ~ hi == lo) by lra.
  assert (Hlen := linspace_length _ _ _ _ Hz).
  assert (Hstep := delta_z_pos lo hi n Hn Hlt).
  assert (Hdn : ~ inject_Z (n - 1) == 0).
  { change 0 with (inject_Z 0). rewrite inject_Z_injective. lia. }
  assert (closed : forall i x, atoms self !! i = Some x ->
            x == lo + Zq i * ((hi - lo) / inject_Z (n - 1))).
  { intros i x Hx.
    assert (Hi : (i < Z.to_nat n)%nat).
    { rewrite <- Hlen. eapply lookup_lt_Some; eassumption. }
    destruct (linspace_lookup lo hi n _ i Hn Hne Hz Hi) as (x' & Hx' & E).
    congruence. }
  repeat split.
  - rewrite Hlen. lia.
  - destruct (lookup_lt_is_Some_2 (atoms self) 0) as [x Hx]; [lia|].
    exists x. split; [exact Hx|]. rewrite (closed _ _ Hx). unfold Zq. simpl. ring.
  - destruct (lookup_lt_is_Some_2 (atoms self) (Z.to_nat (n - 1))) as [x Hx]; [lia|].
    exists x. split; [exact Hx|]. rewrite (closed _ _ Hx).
    unfold Zq. rewrite Z2Nat.id by lia. field. exact Hdn.
  - rewrite Hd. reflexivity.
  - intros i x y Hx Hy. rewrite (closed _ _ Hx), (closed _ _ Hy), Hd, Zq_S. ring.
  - intros i j x y Hij Hx Hy. rewrite (closed _ _ Hx), (closed _ _ Hy).
    apply Zq_lt in Hij.
    apply Qplus_lt_r. apply Qmult_lt_compat_r; assumption.
Qed.

(** ** Configurations that [__init__] accepts *)

(** C9, as the code has it.  [__init__] raises only through the atom
    count: ValueError (from [np.linspace]) when n_atoms < 0 and
    ZeroDivisionError when n_atoms = 1.  For n_atoms = 0 and for every
    n_atoms >= 2 it succeeds whatever Vmin and Vmax are, with
    delta_z = (Vmax - Vmin) / (n_atoms - 1). *)
Theorem init_outcomes {state network env : Type} (cfg : Cfg.t) :
  ((Cfg.Categorical_n_atoms cfg < 0)%Z
   /\ __init__ (state:=state) (network:=network) (env:=env) cfg = Raise ValueError)
  \/ (Cfg.Categorical_n_atoms cfg = 1%Z
      /\ __init__ (state:=state) (network:=network) (env:=env) cfg
         = Raise ZeroDivisionError)
  \/ ((Cfg.Categorical_n_atoms cfg = 0 \/ 2 <= Cfg.Categorical_n_atoms cfg)%Z
      /\ exists self : Agent state network env,
           __init__ cfg = Ok self
           /\ vmin self = Cfg.Categorical_Vmin cfg
           /\ vmax self = Cfg.Categorical_Vmax cfg
           /\ delta_z self = (Cfg.Categorical_Vmax cfg - Cfg.Categorical_Vmin cfg)
                             / inject_Z (Cfg.Categorical_n_atoms cfg - 1)).
Proof.
  unfold __init__, linspace.
  destruct (Z.ltb_spec (Cfg.Categorical_n_atoms cfg) 0) as [Hneg|Hnn].
  - left. split; [assumption | reflexivity].
  - right. simpl.
    destruct (Z.eqb_spec (Cfg.Categorical_n_atoms cfg - 1) 0) as [H1|H1].
    + left. split; [lia | reflexivity].
    + right. split; [lia|]. eexists. split; [reflexivity|]. simpl. auto.
Qed.

(** C9, refuted as stated: with Vmax <= Vmin and delta_z = 0 the
    construction succeeds, and both atoms of the support are 5. *)
Lemma init_accepts_flat_range :
  Cfg.Categorical_Vmax cfg_flat <= Cfg.Categorical_Vmin cfg_flat
  /\ exists self : Agent unit unit unit,
       __init__ cfg_flat = Ok self
       /\ delta_z self == 0
       /\ Forall (Qeq 5) (atoms self).
Proof.
  split; [apply Qle_refl|].
  eexists. split; [vm_compute; reflexivity|].
  split; [reflexivity|].
  repeat constructor.
Qed.

(** ** [np.argmax]: the first maximum *)

Lemma argmax_from_first_max (pre xs : list Q) (best : Q) (best_i : nat) :
  pre !! best_i = Some best ->
  (forall j x, pre !! j = Some x -> x <= best /\ ((j < best_i)%nat -> x < best)) ->
  first_max (pre ++ xs) (argmax_from best best_i (length pre) xs).
Proof.
  revert pre best best_i.
  induction xs as [|x xs IH]; intros pre best best_i Hb Hmax; simpl.
  - rewrite app_nil_r. exists best. auto.
  - replace (pre ++ x :: xs) with ((pre ++ [x]) ++ xs)
      by (rewrite <- app_assoc; reflexivity).
    replace (S (length pre)) with (length (pre ++ [x]))
      by (rewrite length_app; simpl; lia).
    assert (Hbi : (best_i < length pre)%nat) by (eapply lookup_lt_Some; eassumption).
    destruct (Qle_bool x best) eqn:E.
    + apply Qle_bool_iff in E. apply IH.
      * rewrite lookup_app_l by assumption. assumption.
      * intros j y Hy. destruct (decide (j < length pre)%nat) as [Hj|Hj].
        -- rewrite lookup_app_l in Hy by assumption. auto.
        -- rewrite lookup_app_r in Hy by lia.
           destruct (j - length pre)%nat; simpl in Hy; [|discriminate].
           injection Hy as <-. split; [assumption | lia].
    + assert (Hlt : best < x).
      { apply Qnot_le_lt. intros Hle. apply Qle_bool_iff in Hle. congruence. }
      apply IH.
      * rewrite lookup_app_r by lia. rewrite Nat.sub_diag. reflexivity.
      * intros j y Hy. destruct (decide (j < length pre)%nat) as [Hj|Hj].
        -- rewrite lookup_app_l in Hy by assumption.
           destruct (Hmax _ _ Hy) as [Hle _].
           split; [|intros _]; lra.
        -- rewrite lookup_app_r in Hy by lia.
           destruct (j - length pre)%nat eqn:Ej; simpl in Hy; [|discriminate].
           injection Hy as <-. split; [apply Qle_refl | lia].
Qed.

Lemma argmax_first_max (row : list Q) (i : nat) :
  argmax row = Ok i -> first_max row i.
Proof.
  destruct row as [|x xs]; simpl; [discriminate|].
  intros H. injection H as <-.
  apply (argmax_from_first_max [x] xs x 0).
  - reflexivity.
  - intros [|j] y Hy; simpl in Hy; [|discriminate].
    injection Hy as <-. split; [apply Qle_refl | lia].
Qed.

Lemma q_values_total {state network env : Type}
  (self : Agent state network env) (prob : tensor3) (B A : nat) :
  shape3 prob B A (length (atoms self)) ->
  exists q_next, q_values self prob = Ok q_next
                 /\ length q_next = B
                 /\ Forall (fun row => length row = A) q_next.
Proof.
  intros [Hlen Hplanes]. rewrite Forall_lookup in Hplanes.
  destruct (mapM_total (mapM (fun p => np_dot p (atoms self))) prob)
    as [q Hq].
  { intros plane Hin. apply list_elem_of_lookup in Hin as [i Hi].
    destruct (Hplanes _ _ Hi) as [_ Hrows]. rewrite Forall_lookup in Hrows.
    apply mapM_total. intros p Hp. apply list_elem_of_lookup in Hp as [k Hk].
    unfold np_dot. rewrite (Hrows _ _ Hk), Nat.eqb_refl. eauto. }
  exists q. split; [exact Hq|]. split.
  - rewrite (mapM_Ok_length _ _ _ Hq). exact Hlen.
  - rewrite Forall_lookup. intros i row Hrow.
    destruct (mapM_Ok_lookup _ _ _ _ _ Hq Hrow) as (plane & Hplane & Hr).
    rewrite (mapM_Ok_length _ _ _ Hr).
    destruct (Hplanes _ _ Hplane) as [HA _]. exact HA.
Qed.

Lemma action_next_total (q_next : list (list Q)) :
  Forall (fun row => row <> []) q_next ->
  exists an, action_next q_next = Ok an
             /\ length an = length q_next
             /\ forall b row, q_next !! b = Some row ->
                  exists a, an !! b = Some a /\ first_max row a.
Proof.
  intros Hne. rewrite Forall_lookup in Hne.
  destruct (mapM_total argmax q_next) as [an Han].
  { intros row Hin. apply list_elem_of_lookup in Hin as [i Hi].
    assert (Hr := Hne _ _ Hi).
    destruct row as [|x row]; [congruence|]. simpl. eauto. }
  assert (Hlen := mapM_Ok_length _ _ _ Han).
  exists an. split; [exact Han|]. split; [exact Hlen|].
  intros b row Hrow.
  destruct (lookup_lt_is_Some_2 an b) as [a Ha].
  { rewrite Hlen. eapply lookup_lt_Some. exact Hrow. }
  destruct (mapM_Ok_lookup _ _ _ _ _ Han Ha) as (row' & Hrow' & Hr).
  assert (row' = row) by congruence. subst row'.
  exists a. split; [exact Ha|]. apply argmax_first_max. exact Hr.
Qed.

(** C7.  [np.argmax] returns the smallest index attaining the maximum:
    on every non-empty row it returns such an index, and two equal
    Q-values select index 0.  The next action of [train_by_replay] (line
    70) and the action of [eval_step] (line 176) are chosen this way:
    whatever they return is a first maximum of the row of Q-values, and
    on a prediction with at least one action per item they do return one
    for every batch item, resp. for the evaluated state. *)
Theorem argmax_first_max_tie_break {state network env : Type} :
  (forall (q : Q) (row : list Q),
      exists i, argmax (q :: row) = Ok i /\ first_max (q :: row) i)
  /\ (forall q1 q2 : Q, q1 == q2 -> argmax [q1; q2] = Ok 0%nat)
  /\ (forall (q_next : list (list Q)) (an : list nat) (b a : nat),
         action_next q_next = Ok an -> an !! b = Some a ->
         exists row, q_next !! b = Some row /\ first_max row a)
  /\ (forall (predict : network -> list state -> tensor3)
             (self : Agent state network env) (s : state) (a : nat),
         eval_action predict self s = Ok a ->
         exists actor action_value row,
           actor_network self = Some actor
           /\ q_values self (predict actor [s]) = Ok action_value
           /\ action_value !! 0%nat = Some row
           /\ first_max row a)
  /\ (forall q_next : list (list Q),
         Forall (fun row => row <> []) q_next ->
         exists an, action_next q_next = Ok an
                    /\ length an = length q_next
                    /\ forall b row, q_next !! b = Some row ->
                         exists a, an !! b = Some a /\ first_max row a)
  /\ (forall (self : Agent state network env) (prob_next : tensor3)
             (B A : nat),
         shape3 prob_next B A (length (atoms self)) -> (0 < A)%nat ->
         exists q_next an,
           q_values self prob_next = Ok q_next
           /\ action_next q_next = Ok an
           /\ length an = B
           /\ forall b, (b < B)%nat ->
                exists row a, q_next !! b = Some row /\ length row = A
                              /\ an !! b = Some a /\ first_max row a)
  /\ (forall (predict : network -> list state -> tensor3)
             (self : Agent state network env) (s : state)
             (actor : network) (A : nat),
         actor_network self = Some actor ->
         shape3 (predict actor [s]) 1 A (length (atoms self)) ->
         (0 < A)%nat ->
         exists action_value row a,
           q_values self (predict actor [s]) = Ok action_value
           /\ action_value !! 0%nat = Some row
           /\ length row = A
           /\ eval_action predict self s = Ok a
           /\ first_max row a).
Proof.
  split; [|split; [|split; [|split; [|split; [|split]]]]].
  - intros q row. eexists. split; [reflexivity|].
    apply argmax_first_max. reflexivity.
  - intros q1 q2 E. simpl.
    assert (H : Qle_bool q2 q1 = true) by (apply Qle_bool_iff; lra).
    rewrite H. reflexivity.
  - intros q_next an b a Han Hb. unfold action_next in Han.
    destruct (mapM_Ok_lookup _ _ _ _ _ Han Hb) as (row & Hrow & Ha).
    exists row. split; [assumption|]. apply argmax_first_max; assumption.
  - intros predict self s a H. unfold eval_action in H.
    apply bind_Ok in H as (actor & Hactor & H).
    apply from_option_Ok in Hactor.
    apply bind_Ok in H as (action_value & Hq & H).
    apply bind_Ok in H as (row & Hrow & H).
    apply from_option_Ok in Hrow.
    exists actor, action_value, row.
    repeat split; try assumption. apply argmax_first_max; assumption.
  - exact action_next_total.
  - intros self prob_next B A Hshape HA.
    destruct (q_values_total self prob_next B A Hshape) as (q & Hq & Hlen & Hrows).
    rewrite Forall_lookup in Hrows.
    destruct (action_next_total q) as (an & Han & Hl & Hpick).
    { rewrite Forall_lookup. intros i row Hrow Hnil.
      assert (Hr := Hrows _ _ Hrow). subst row. simpl in Hr. lia. }
    exists q, an. split; [exact Hq|]. split; [exact Han|].
    split; [congruence|].
    intros b Hb.
    destruct (lookup_lt_is_Some_2 q b) as [row Hrow]; [lia|].
    destruct (Hpick b row Hrow) as (a & Ha & Hmax).
    exists row, a. split; [exact Hrow|]. split; [exact (Hrows _ _ Hrow)|].
    split; assumption.
  - intros predict self s actor A Hactor Hshape HA.
    destruct (q_values_total self (predict actor [s]) 1 A Hshape)
      as (q & Hq & Hlen & Hrows).
    rewrite Forall_lookup in Hrows.
    destruct (lookup_lt_is_Some_2 q 0) as [row Hrow]; [lia|].
    assert (Hr := Hrows _ _ Hrow).
    destruct row as [|x row]; [simpl in Hr; lia|].
    exists q, (x :: row), (argmax_from x 0 1 row).
    split; [exact Hq|]. split; [exact Hrow|]. split; [exact Hr|]. split.
    + unfold eval_action. rewrite Hactor. cbn [from_option bind].
      rewrite Hq. cbn [bind]. rewrite Hrow. reflexivity.
    + apply argmax_first_max. reflexivity.
Qed.

(** ** Entries of two-dimensional arrays *)

Lemma get2_map2d {A B} (f : A -> B) (m : list (list A)) i j :
  get2 (map2d f m) i j = f <$> get2 m i j.
Proof.
  unfold get2, map2d. rewrite list_lookup_fmap.
  destruct (m !! i) as [row|]; simpl; [|reflexivity].
  apply list_lookup_fmap.
Qed.

Lemma get2_zip2d {A B C} (f : A -> B -> C) m1 m2 i j :
  get2 (zip2d f m1 m2) i j =
  match get2 m1 i j, get2 m2 i j with
  | Some a, Some b => Some (f a b)
  | _, _ => None
  end.
Proof.
  unfold get2, zip2d. rewrite lookup_zip_with.
  destruct (m1 !! i) as [r1|]; simpl; [|reflexivity].
  destruct (m2 !! i) as [r2|]; simpl.
  - rewrite lookup_zip_with.
    destruct (r1 !! j); simpl; [|reflexivity].
    destruct (r2 !! j); reflexivity.
  - destruct (r1 !! j); reflexivity.
Qed.

(** ** The interpolation weights *)

(** Floor and ceiling are equal or one apart. *)
Lemma ceiling_floor_cases (b : Q) :
  Qceiling b = Qfloor b \/ Qceiling b = (Qfloor b + 1)%Z.
Proof.
  assert (H1 := Qfloor_le b). assert (H2 := Qlt_floor b).
  assert (H3 := Qle_ceiling b). assert (H4 := Qceiling_lt b).
  assert (Hlo : (Qfloor b <= Qceiling b)%Z).
  { rewrite Zle_Qle. lra. }
  assert (Hhi : (Qceiling b - 1 < Qfloor b + 1)%Z).
  { rewrite Zlt_Qlt. lra. }
  lia.
Qed.

Lemma weights_sum_one (b : Q) : lower_weight b + upper_weight b == 1.
Proof.
  unfold lower_weight, upper_weight.
  destruct (ceiling_floor_cases b) as [E|E]; rewrite E.
  - rewrite Z.eqb_refl. simpl Z.b2z. rewrite inject_Z_plus. ring.
  - destruct (Z.eqb_spec (Qfloor b) (Qfloor b + 1)); [lia|].
    simpl Z.b2z. rewrite Z.add_0_r, inject_Z_plus. ring.
Qed.

Lemma get2_d_m_l (b prob_next : list (list Q)) i j :
  get2 (d_m_l (l_floor b) (u_ceil b) b prob_next) i j =
  match get2 b i j, get2 prob_next i j with
  | Some bv, Some p => Some (lower_weight bv * p)
  | _, _ => None
  end.
Proof.
  unfold d_m_l, l_floor, u_ceil.
  rewrite !get2_zip2d, get2_map2d, !get2_zip2d, !get2_map2d.
  destruct (get2 b i j) as [bv|]; simpl; [|reflexivity].
  destruct (get2 prob_next i j); reflexivity.
Qed.

Lemma get2_d_m_u (b prob_next : list (list Q)) i j :
  get2 (d_m_u (l_floor b) b prob_next) i j =
  match get2 b i j, get2 prob_next i j with
  | Some bv, Some p => Some (upper_weight bv * p)
  | _, _ => None
  end.
Proof.
  unfold d_m_u, l_floor.
  rewrite !get2_zip2d, !get2_map2d.
  destruct (get2 b i j) as [bv|]; simpl; [|reflexivity].
  destruct (get2 prob_next i j); reflexivity.
Qed.

(** C3.  The two interpolation weights sum to exactly 1 for every
    coordinate, also when floor and ceiling coincide (then they are 1 and
    0); hence wherever [b] and [prob_next] have an entry, [d_m_l] and
    [d_m_u] have one too and the two sum to the entry of [prob_next]. *)
Theorem interpolation_weights_conserve_mass :
  (forall b : Q,
      inject_Z (Qceiling b + Z.b2z (Qfloor b =? Qceiling b)%Z) - b
      + (b - inject_Z (Qfloor b)) == 1)
  /\ (forall b : Q,
         Qfloor b = Qceiling b ->
         inject_Z (Qceiling b + Z.b2z (Qfloor b =? Qceiling b)%Z) - b == 1
         /\ b - inject_Z (Qfloor b) == 0)
  /\ (forall (b prob_next : list (list Q)) (i j : nat) (bv p : Q),
         get2 b i j = Some bv -> get2 prob_next i j = Some p ->
         exists x y,
           get2 (d_m_l (l_floor b) (u_ceil b) b prob_next) i j = Some x
           /\ get2 (d_m_u (l_floor b) b prob_next) i j = Some y
           /\ x + y == p).
Proof.
  split; [exact weights_sum_one|]. split.
  - intros b E.
    assert (H := weights_sum_one b). unfold lower_weight, upper_weight in H.
    assert (H1 := Qfloor_le b). assert (H3 := Qle_ceiling b).
    rewrite <- E in H3.
    assert (Hz : b - inject_Z (Qfloor b) == 0) by lra.
    split; [|exact Hz]. rewrite Hz in H. lra.
  - intros b prob_next i j bv p Hb Hp.
    exists (lower_weight bv * p), (upper_weight bv * p).
    rewrite get2_d_m_l, get2_d_m_u, Hb, Hp.
    repeat split.
    assert (H := weights_sum_one bv). nra.
Qed.

(** ** Shapes *)

Lemma shape2_lookup {A} (m : list (list A)) d1 d2 i row :
  shape2 m d1 d2 -> m !! i = Some row -> length row = d2.
Proof.
  intros [_ H] Hi. rewrite Forall_lookup in H. exact (H _ _ Hi).
Qed.

Lemma shape2_get2 {A} (m : list (list A)) d1 d2 i j :
  shape2 m d1 d2 -> (i < d1)%nat -> (j < d2)%nat -> is_Some (get2 m i j).
Proof.
  intros [Hl H] Hi Hj. unfold get2.
  destruct (lookup_lt_is_Some_2 m i) as [row Hrow]; [lia|].
  rewrite Hrow. apply lookup_lt_is_Some_2.
  rewrite Forall_lookup in H. rewrite (H _ _ Hrow). assumption.
Qed.

Lemma shape2_map2d {A B} (f : A -> B) m d1 d2 :
  shape2 m d1 d2 -> shape2 (map2d f m) d1 d2.
Proof.
  intros [Hl H]. split; unfold map2d.
  - rewrite length_map. assumption.
  - rewrite Forall_fmap. eapply Forall_impl; [exact H|].
    intros row Hrow. simpl. rewrite length_map. assumption.
Qed.

Lemma shape2_zip2d {A B C} (f : A -> B -> C) m1 m2 d1 d2 :
  shape2 m1 d1 d2 -> shape2 m2 d1 d2 -> shape2 (zip2d f m1 m2) d1 d2.
Proof.
  intros [Hl1 H1] [Hl2 H2]. split; unfold zip2d.
  - rewrite length_zip_with. lia.
  - rewrite Forall_lookup. intros i row Hrow.
    rewrite lookup_zip_with in Hrow.
    destruct (m1 !! i) as [r1|] eqn:E1; simpl in Hrow; [|discriminate].
    destruct (m2 !! i) as [r2|] eqn:E2; simpl in Hrow; [|discriminate].
    injection Hrow as <-. rewrite length_zip_with.
    rewrite Forall_lookup in H1. rewrite Forall_lookup in H2.
    rewrite (H1 _ _ E1), (H2 _ _ E2). lia.
Qed.

Lemma get2_row {A} (m : list (list A)) i j row :
  m !! i = Some row -> get2 m i j = row !! j.
Proof. intros H. unfold get2. rewrite H. reflexivity. Qed.

(** ** Sums *)

Lemma Qsum_replicate_0 n : Qsum (replicate n 0) == 0.
Proof.
  induction n as [|n IH]; [reflexivity|].
  change (0 + Qsum (replicate n 0) == 0). rewrite IH. ring.
Qed.

Lemma Qsum_alter (row : list Q) (i : nat) (v : Q) :
  (i < length row)%nat ->
  Qsum (alter (fun x => x + v) i row) == Qsum row + v.
Proof.
  revert i; induction row as [|x row IH]; intros i Hi; simpl in Hi; [lia|].
  destruct i as [|i].
  - change (x + v + Qsum row == x + Qsum row + v). ring.
  - change (x + Qsum (alter (fun x => x + v) i row) == x + Qsum row + v).
    rewrite IH by lia. ring.
Qed.

(** Two lists that add up pointwise to a third add up in total. *)
Lemma Qsum_pointwise (xs ys ps : list Q) :
  length xs = length ps -> length ys = length ps ->
  (forall j x y p, xs !! j = Some x -> ys !! j = Some y -> ps !! j = Some p ->
                   x + y == p) ->
  Qsum xs + Qsum ys == Qsum ps.
Proof.
  revert xs ys; induction ps as [|p ps IH]; intros xs ys Hx Hy H.
  - destruct xs, ys; try discriminate. reflexivity.
  - destruct xs as [|x xs], ys as [|y ys]; try discriminate.
    assert (H0 := H 0%nat x y p eq_refl eq_refl eq_refl).
    assert (IH' : Qsum xs + Qsum ys == Qsum ps).
    { apply IH; [simpl in Hx; lia | simpl in Hy; lia |].
      intros j x' y' p' Hx' Hy' Hp'. exact (H (S j) _ _ _ Hx' Hy' Hp'). }
    change (x + Qsum xs + (y + Qsum ys) == p + Qsum ps).
    rewrite <- IH', <- H0. ring.
Qed.

(** ** [np.add.at] within bounds *)

Lemma resolve_index_in_bounds (n : nat) (k : Z) :
  (0 <= k < Z.of_nat n)%Z -> resolve_index n k = Ok (Z.to_nat k).
Proof.
  intros H. unfold resolve_index.
  destruct (Z.leb_spec 0 k); [|lia].
  destruct (Z.ltb_spec k (Z.of_nat n)); [|lia].
  reflexivity.
Qed.

Lemma add_at_loop_in_bounds (idx : list Z) (vals row : list Q) :
  Forall (fun k => (0 <= k < Z.of_nat (length row))%Z) idx ->
  length idx = length vals ->
  exists row', add_at_loop row idx vals = Ok row'
               /\ length row' = length row
               /\ Qsum row' == Qsum row + Qsum vals.
Proof.
  revert vals row; induction idx as [|k idx IH]; intros vals row Hb Hl.
  - destruct vals; [|discriminate]. exists row.
    repeat split. change (Qsum row == Qsum row + 0). ring.
  - destruct vals as [|v vals]; [discriminate|].
    inversion Hb as [|? ? Hk Hrest]; subst.
    cbn [add_at_loop].
    rewrite resolve_index_in_bounds by assumption. cbn [bind].
    destruct (IH vals (alter (fun x => x + v) (Z.to_nat k) row))
      as (row' & Hrow' & Hlen & Hsum).
    + rewrite length_alter. assumption.
    + simpl in Hl. lia.
    + exists row'. split; [assumption|]. rewrite length_alter in Hlen.
      split; [assumption|]. rewrite Hsum, Qsum_alter by lia.
      change (Qsum (v :: vals)) with (v + Qsum vals). ring.
Qed.

Lemma add_at_in_bounds (idx : list Z) (vals row : list Q) :
  Forall (fun k => (0 <= k < Z.of_nat (length row))%Z) idx ->
  length idx = length vals ->
  exists row', add_at row idx vals = Ok row'
               /\ length row' = length row
               /\ Qsum row' == Qsum row + Qsum vals.
Proof.
  intros Hb Hl. unfold add_at. rewrite Hl, Nat.eqb_refl.
  apply add_at_loop_in_bounds; assumption.
Qed.

(** ** The shifted support and its clipping *)

Lemma tile_rewards_Ok {state network env : Type}
  (self : Agent state network env) (rewards : list Q) tiled :
  tile_rewards self rewards = Ok tiled ->
  length rewards = batch_size self
  /\ tiled = map (fun r => replicate (Z.to_nat (n_atoms self)) r) rewards.
Proof.
  unfold tile_rewards.
  destruct (Nat.eqb_spec (length rewards) (batch_size self)); [|discriminate].
  intros H. injection H as <-. auto.
Qed.

Lemma atoms_next_raw_Ok {state network env : Type}
  (self : Agent state network env) tiled (terminals : list bool) raw :
  atoms_next_raw self tiled terminals = Ok raw ->
  length terminals = batch_size self
  /\ Z.of_nat (length (atoms self)) = n_atoms self
  /\ raw = zip2d Qplus tiled
             (map (fun d => map (fun z => d * z) (atoms self))
                  (map (fun t => Cfg.discount_rate (config self) * (1 - b2q t))
                       terminals)).
Proof.
  unfold atoms_next_raw. rewrite length_map.
  destruct (Nat.eqb_spec (length terminals) (batch_size self));
    simpl; [|discriminate].
  destruct (Z.eqb_spec (Z.of_nat (length (atoms self))) (n_atoms self));
    simpl; [|discriminate].
  intros H. injection H as <-. auto.
Qed.

Lemma get2_tiled (rewards : list Q) (n i j : nat) :
  get2 (map (fun r => replicate n r) rewards) i j =
  match rewards !! i with
  | Some r => if decide (j < n)%nat then Some r else None
  | None => None
  end.
Proof.
  unfold get2. rewrite list_lookup_fmap.
  destruct (rewards !! i) as [r|]; simpl; [|reflexivity].
  destruct (decide (j < n)%nat) as [Hj|Hj].
  - apply lookup_replicate_2. assumption.
  - apply lookup_ge_None_2. rewrite length_replicate. lia.
Qed.

Lemma get2_outer (ds zs : list Q) (i j : nat) :
  get2 (map (fun d => map (fun z => d * z) zs) ds) i j =
  match ds !! i, zs !! j with
  | Some d, Some z => Some (d * z)
  | _, _ => None
  end.
Proof.
  unfold get2. rewrite list_lookup_fmap.
  destruct (ds !! i) as [d|]; simpl; [|reflexivity].
  rewrite list_lookup_fmap. destruct (zs !! j); reflexivity.
Qed.

Lemma clip_bounds (x lo hi : Q) :
  lo <= hi ->
  lo <= clip x lo hi <= hi
  /\ (x <= lo -> clip x lo hi == lo)
  /\ (hi <= x -> clip x lo hi == hi)
  /\ (lo <= x <= hi -> clip x lo hi == x).
Proof.
  intros Hle. unfold clip.
  destruct (Q.max_spec x lo) as [[H1 E1]|[H1 E1]];
    destruct (Q.min_spec (Qmax x lo) hi) as [[H2 E2]|[H2 E2]];
    rewrite E2; rewrite ?E1; rewrite E1 in H2;
    repeat split; intros; lra.
Qed.

(** C6.  Every entry of the array [atoms_next] of line 85 is the clip
    of [reward + discount_rate * (1 - terminal) * atom]; whatever the
    reward, the discount and the terminal flag are, it lies in
    [vmin, vmax], and a raw value at or beyond an end point is replaced by
    that end point. *)
Theorem atoms_next_within_support {state network env : Type}
  (self : Agent state network env)
  (rewards : list Q) (terminals : list bool) (tiled raw : list (list Q))
  (i j : nat) (x : Q) :
  vmin self <= vmax self ->
  tile_rewards self rewards = Ok tiled ->
  atoms_next_raw self tiled terminals = Ok raw ->
  get2 (atoms_next self raw) i j = Some x ->
  exists r t z,
    rewards !! i = Some r /\ terminals !! i = Some t /\ atoms self !! j = Some z
    /\ let Tz := r + Cfg.discount_rate (config self) * (1 - b2q t) * z in
       x = clip Tz (vmin self) (vmax self)
       /\ vmin self <= x <= vmax self
       /\ (Tz <= vmin self -> x == vmin self)
       /\ (vmax self <= Tz -> x == vmax self).
Proof.
  intros Hle Htile Hraw Hx.
  apply tile_rewards_Ok in Htile as [_ ->].
  apply atoms_next_raw_Ok in Hraw as (_ & _ & ->).
  unfold atoms_next in Hx.
  rewrite get2_map2d, get2_zip2d, get2_tiled, get2_outer in Hx.
  rewrite list_lookup_fmap in Hx.
  destruct (rewards !! i) as [r|]; [|discriminate].
  destruct (decide (j < Z.to_nat (n_atoms self))%nat); [|discriminate].
  destruct (terminals !! i) as [t|]; simpl in Hx; [|discriminate].
  destruct (atoms self !! j) as [z|]; simpl in Hx; [|discriminate].
  injection Hx as <-.
  exists r, t, z. repeat split; try reflexivity;
    destruct (clip_bounds
                (r + Cfg.discount_rate (config self) * (1 - b2q t) * z)
                (vmin self) (vmax self) Hle) as (Hb & Hlo & Hhi & _);
    solve [apply Hb | assumption].
Qed.

(** ** Loops *)

Lemma for_each_total {S I} (body : S -> I -> result S)
  (Inv : list I -> S -> Prop) (range pre : list I) (s0 : S) :
  Inv pre s0 ->
  (forall done i st, i ∈ range -> Inv done st ->
                     exists st', body st i = Ok st' /\ Inv (done ++ [i]) st') ->
  exists s, for_each body range s0 = Ok s /\ Inv (pre ++ range) s.
Proof.
  revert pre s0; induction range as [|i range IH]; intros pre s0 H0 Hstep.
  - exists s0. rewrite app_nil_r. auto.
  - destruct (Hstep pre i s0) as (s1 & Hs1 & Hinv); [left | assumption |].
    destruct (IH (pre ++ [i]) s1 Hinv) as (s & Hs & Hfin).
    + intros done k st Hk. apply Hstep. right. assumption.
    + exists s. simpl. rewrite Hs1. simpl.
      rewrite <- app_assoc in Hfin. auto.
Qed.

Lemma for_each_preserves {S I} (body : S -> I -> result S) (P : S -> Prop)
  (range : list I) (s0 s : S) :
  P s0 ->
  (forall st i st', P st -> body st i = Ok st' -> P st') ->
  for_each body range s0 = Ok s -> P s.
Proof.
  revert s0; induction range as [|i range IH]; intros s0 H0 Hstep H; simpl in H.
  - injection H as <-. assumption.
  - apply bind_Ok in H as (s1 & Hs1 & H). eauto.
Qed.

(** ** The projection on well-shaped input *)

Section ProjectionCorrect.

Context {state network env : Type}.
Variable cfg : Cfg.t.
Variable self : Agent state network env.

Hypothesis Hinit : __init__ cfg = Ok self.
Hypothesis Hatoms : (2 <= Cfg.Categorical_n_atoms cfg)%Z.
Hypothesis Hrange : Cfg.Categorical_Vmin cfg < Cfg.Categorical_Vmax cfg.

Let N : nat := Z.to_nat (n_atoms self).
Let bs : nat := batch_size self.
Let A : nat := Cfg.action_dim (config self).

Variable prob_next : tensor3.
Variable rewards : list Q.
Variable terminals : list bool.

Hypothesis Hprob : shape3 prob_next bs A N.
Hypothesis Hactions : (0 < A)%nat.
Hypothesis Hrewards : length rewards = bs.
Hypothesis Hterminals : length terminals = bs.

Lemma length_atoms : length (atoms self) = N.
Proof using Hinit.
  clear Hatoms Hrange Hprob Hactions Hrewards Hterminals.
  destruct (init_Ok _ _ Hinit) as (Hz & _ & _ & Hn & _).
  apply linspace_length in Hz. unfold N. rewrite Hn. exact Hz.
Qed.

Lemma q_values_shaped :
  exists q_next, q_values self prob_next = Ok q_next /\ shape2 q_next bs A.
Proof using Hinit Hprob.
  clear Hatoms Hrange Hactions Hrewards Hterminals.
  destruct Hprob as [Hlen Hplanes]. rewrite Forall_lookup in Hplanes.
  destruct (mapM_total (mapM (fun p => np_dot p (atoms self))) prob_next)
    as [q Hq].
  { intros plane Hin. apply list_elem_of_lookup in Hin as [i Hi].
    destruct (Hplanes _ _ Hi) as [_ Hrows]. rewrite Forall_lookup in Hrows.
    apply mapM_total. intros p Hp. apply list_elem_of_lookup in Hp as [k Hk].
    unfold np_dot. rewrite (Hrows _ _ Hk), length_atoms, Nat.eqb_refl. eauto. }
  exists q. split; [exact Hq|]. split.
  - rewrite (mapM_Ok_length _ _ _ Hq). exact Hlen.
  - rewrite Forall_lookup. intros i row Hrow.
    destruct (mapM_Ok_lookup _ _ _ _ _ Hq Hrow) as (plane & Hplane & Hr).
    rewrite (mapM_Ok_length _ _ _ Hr).
    destruct (Hplanes _ _ Hplane) as [HA _]. exact HA.
Qed.

Lemma action_next_shaped (q_next : list (list Q)) :
  shape2 q_next bs A ->
  exists an, action_next q_next = Ok an /\ length an = bs
             /\ Forall (fun a => (a < A)%nat) an.
Proof using Hactions.
  clear Hinit Hatoms Hrange Hprob Hrewards Hterminals.
  intros [Hlen Hrows]. rewrite Forall_lookup in Hrows.
  destruct (mapM_total argmax q_next) as [an Han].
  { intros row Hin. apply list_elem_of_lookup in Hin as [i Hi].
    assert (Hl := Hrows _ _ Hi).
    destruct row as [|x row]; [simpl in Hl; lia|]. simpl. eauto. }
  exists an. split; [exact Han|]. split.
  - rewrite (mapM_Ok_length _ _ _ Han). exact Hlen.
  - rewrite Forall_lookup. intros i a Ha.
    destruct (mapM_Ok_lookup _ _ _ _ _ Han Ha) as (row & Hrow & Hr).
    destruct (argmax_first_max _ _ Hr) as (v & Hv & _).
    rewrite <- (Hrows _ _ Hrow). eapply lookup_lt_Some. exact Hv.
Qed.

Lemma select_prob_shaped (an : list nat) :
  length an = bs -> Forall (fun a => (a < A)%nat) an ->
  exists sel, select_prob self prob_next an = Ok sel /\ shape2 sel bs N
              /\ forall i a, an !! i = Some a ->
                   exists plane p, prob_next !! i = Some plane
                                   /\ plane !! a = Some p /\ sel !! i = Some p.
Proof using Hprob.
  clear Hinit Hatoms Hrange Hactions Hrewards Hterminals.
  intros Hlen Hlt. rewrite Forall_lookup in Hlt.
  destruct Hprob as [Hplen Hplanes]. rewrite Forall_lookup in Hplanes.
  assert (Hitem : forall i, (i < bs)%nat ->
            exists a plane p, an !! i = Some a /\ prob_next !! i = Some plane
                              /\ plane !! a = Some p /\ length p = N).
  { intros i Hi.
    destruct (lookup_lt_is_Some_2 an i) as [a Ha]; [lia|].
    destruct (lookup_lt_is_Some_2 prob_next i) as [plane Hplane]; [lia|].
    destruct (Hplanes _ _ Hplane) as [HA Hrows]. rewrite Forall_lookup in Hrows.
    destruct (lookup_lt_is_Some_2 plane a) as [p Hp].
    { rewrite HA. exact (Hlt _ _ Ha). }
    exists a, plane, p. repeat split; try assumption. exact (Hrows _ _ Hp). }
  unfold select_prob. fold bs.
  match goal with |- context [mapM ?f _] => set (pick := f) end.
  assert (Hpick : forall i, (i < bs)%nat ->
            exists a plane p, an !! i = Some a /\ prob_next !! i = Some plane
                              /\ plane !! a = Some p /\ length p = N
                              /\ pick i = Ok p).
  { intros i Hi. destruct (Hitem i Hi) as (a & plane & p & Ha & Hpl & Hp & Hl).
    exists a, plane, p. repeat split; try assumption.
    unfold pick. rewrite Ha. simpl. rewrite Hpl. simpl. rewrite Hp. reflexivity. }
  destruct (mapM_total pick (seq 0 bs)) as [sel Hsel].
  { intros i Hin. apply elem_of_seq in Hin.
    destruct (Hpick i) as (a & plane & p & _ & _ & _ & _ & E); [lia|]. eauto. }
  exists sel. split; [exact Hsel|].
  assert (Hsl : length sel = bs).
  { rewrite (mapM_Ok_length _ _ _ Hsel). apply length_seq. }
  assert (Hat : forall i p, sel !! i = Some p -> (i < bs)%nat /\ pick i = Ok p).
  { intros i p Hp.
    destruct (mapM_Ok_lookup _ _ _ _ _ Hsel Hp) as (k & Hk & E).
    apply lookup_seq in Hk as [-> Hk]. simpl in E. auto. }
  split; [split; [exact Hsl|]|].
  - rewrite Forall_lookup. intros i p Hp.
    destruct (Hat _ _ Hp) as [Hi E].
    destruct (Hpick i Hi) as (a & plane & p' & _ & _ & _ & Hl & E').
    congruence.
  - intros i a Ha.
    assert (Hi : (i < bs)%nat) by (rewrite <- Hlen; eapply lookup_lt_Some; eassumption).
    destruct (Hpick i Hi) as (a' & plane & p & Ha' & Hpl & Hp & _ & E).
    assert (a' = a) by congruence. subst a'.
    exists plane, p. repeat split; try assumption.
    destruct (lookup_lt_is_Some_2 sel i) as [p' Hp']; [lia|].
    destruct (Hat _ _ Hp') as [_ E']. congruence.
Qed.

Lemma shape2_tiled (n : nat) (rs : list Q) :
  shape2 (map (fun r => replicate n r) rs) (length rs) n.
Proof.
  split; [apply length_map|].
  rewrite Forall_fmap. apply Forall_forall. intros r _. simpl.
  apply length_replicate.
Qed.

Lemma shape2_outer (ds zs : list Q) :
  shape2 (map (fun d => map (fun z => d * z) zs) ds) (length ds) (length zs).
Proof.
  split; [apply length_map|].
  rewrite Forall_fmap. apply Forall_forall. intros d _. simpl.
  apply length_map.
Qed.

Lemma atoms_next_raw_shaped :
  exists tiled raw,
    tile_rewards self rewards = Ok tiled
    /\ atoms_next_raw self tiled terminals = Ok raw
    /\ shape2 raw bs N.
Proof using Hinit Hatoms Hrewards Hterminals.
  clear Hrange Hprob Hactions.
  exists (map (fun r => replicate N r) rewards).
  eexists. split; [|split].
  - unfold tile_rewards. fold bs. rewrite Hrewards, Nat.eqb_refl. reflexivity.
  - unfold atoms_next_raw. fold bs. rewrite length_map, Hterminals, Nat.eqb_refl.
    simpl. rewrite length_atoms. unfold N.
    destruct (init_Ok _ _ Hinit) as (_ & _ & _ & Hn & _).
    rewrite Z2Nat.id by lia. rewrite Z.eqb_refl. simpl. reflexivity.
  - apply shape2_zip2d.
    + rewrite <- Hrewards. apply shape2_tiled.
    + rewrite <- Hterminals, <- length_atoms.
      rewrite <- (length_map (fun t => Cfg.discount_rate (config self) * (1 - b2q t))
                            terminals).
      apply shape2_outer.
Qed.

(** The bin coordinate of a clipped value, and its floor and ceiling. *)
Lemma b_coord_bounds (x : Q) :
  let b := (clip x (vmin self) (vmax self) - Cfg.Categorical_Vmin (config self))
           / delta_z self in
  0 <= b <= inject_Z (n_atoms self - 1)
  /\ (0 <= Qfloor b <= n_atoms self - 1)%Z
  /\ (0 <= Qceiling b <= n_atoms self - 1)%Z.
Proof using Hinit Hatoms Hrange.
  clear Hprob Hactions Hrewards Hterminals.
  destruct (init_Ok _ _ Hinit) as (_ & _ & Hc & Hn & Hlo & Hhi & _ & Hd).
  rewrite Hc, Hn, Hlo, Hhi, Hd.
  set (lo := Cfg.Categorical_Vmin cfg). set (hi := Cfg.Categorical_Vmax cfg).
  set (n := Cfg.Categorical_n_atoms cfg).
  fold lo hi n in Hatoms, Hrange.
  assert (Hdz := delta_z_pos lo hi n Hatoms Hrange).
  assert (Hdn : ~ inject_Z (n - 1) == 0).
  { change 0 with (inject_Z 0). rewrite inject_Z_injective. lia. }
  assert (Hfull : inject_Z (n - 1) * ((hi - lo) / inject_Z (n - 1)) == hi - lo)
    by (field; exact Hdn).
  destruct (clip_bounds x lo hi) as ([Hc1 Hc2] & _); [lra|].
  intros b.
  assert (Hb : 0 <= b <= inject_Z (n - 1)).
  { unfold b. split.
    - apply Qle_shift_div_l; [exact Hdz | lra].
    - apply Qle_shift_div_r; [exact Hdz | lra]. }
  split; [exact Hb|]. destruct Hb as [Hb0 Hb1].
  split; split.
  - rewrite <- (Qfloor_Z 0). apply Qfloor_resp_le. exact Hb0.
  - rewrite <- (Qfloor_Z (n - 1)). apply Qfloor_resp_le. exact Hb1.
  - rewrite <- (Qceiling_Z 0). apply Qceiling_resp_le. exact Hb0.
  - rewrite <- (Qceiling_Z (n - 1)). apply Qceiling_resp_le. exact Hb1.
Qed.

Lemma get2_index_bounds (raw : list (list Q)) (i j : nat) (k : Z) :
  get2 (l_floor (b_coord self (atoms_next self raw))) i j = Some k
  \/ get2 (u_ceil (b_coord self (atoms_next self raw))) i j = Some k ->
  (0 <= k <= n_atoms self - 1)%Z.
Proof using Hinit Hatoms Hrange.
  clear Hprob Hactions Hrewards Hterminals.
  unfold l_floor, u_ceil, b_coord, atoms_next.
  rewrite !get2_map2d.
  destruct (get2 raw i j) as [x|]; simpl; [|intros [H|H]; discriminate].
  destruct (b_coord_bounds x) as (_ & Hl & Hu).
  intros [H|H]; injection H as <-; assumption.
Qed.

Lemma index_rows_in_bounds (raw : list (list Q)) (i : nat) (idx : list Z) :
  l_floor (b_coord self (atoms_next self raw)) !! i = Some idx
  \/ u_ceil (b_coord self (atoms_next self raw)) !! i = Some idx ->
  Forall (fun k => (0 <= k < Z.of_nat N)%Z) idx.
Proof using Hinit Hatoms Hrange.
  clear Hprob Hactions Hrewards Hterminals.
  intros H. rewrite Forall_lookup. intros j k Hk.
  assert (Hb : (0 <= k <= n_atoms self - 1)%Z).
  { apply (get2_index_bounds raw i j).
    destruct H as [H|H]; [left | right]; rewrite (get2_row _ _ _ _ H); exact Hk. }
  unfold N. destruct (init_Ok _ _ Hinit) as (_ & _ & _ & Hn & _). lia.
Qed.

Lemma Qsum_zeroed (row : list Q) : Qsum (map (fun _ => 0) row) == 0.
Proof.
  induction row as [|x row IH]; [reflexivity|].
  change (0 + Qsum (map (fun _ => 0) row) == 0). rewrite IH. ring.
Qed.

Lemma shape2_d_m_l (b sel : list (list Q)) :
  shape2 b bs N -> shape2 sel bs N ->
  shape2 (d_m_l (l_floor b) (u_ceil b) b sel) bs N.
Proof.
  intros Hb Hsel. unfold d_m_l, l_floor, u_ceil.
  repeat first [ assumption | apply shape2_zip2d | apply shape2_map2d ].
Qed.

Lemma shape2_d_m_u (b sel : list (list Q)) :
  shape2 b bs N -> shape2 sel bs N ->
  shape2 (d_m_u (l_floor b) b sel) bs N.
Proof.
  intros Hb Hsel. unfold d_m_u, l_floor.
  repeat first [ assumption | apply shape2_zip2d | apply shape2_map2d ].
Qed.

(** Per batch item, the two contributions carry the whole mass of the
    selected distribution. *)
Lemma contributions_sum (b sel : list (list Q)) (i : nat) (dl du p : list Q) :
  shape2 b bs N -> shape2 sel bs N ->
  d_m_l (l_floor b) (u_ceil b) b sel !! i = Some dl ->
  d_m_u (l_floor b) b sel !! i = Some du ->
  sel !! i = Some p ->
  Qsum dl + Qsum du == Qsum p.
Proof.
  intros Hb Hsel Hdl Hdu Hp.
  assert (Ll := shape2_lookup _ _ _ _ _ (shape2_d_m_l b sel Hb Hsel) Hdl).
  assert (Lu := shape2_lookup _ _ _ _ _ (shape2_d_m_u b sel Hb Hsel) Hdu).
  assert (Lp := shape2_lookup _ _ _ _ _ Hsel Hp).
  apply Qsum_pointwise; [congruence | congruence |].
  intros j x y pv Hx Hy Hpv.
  rewrite <- (get2_row _ _ _ _ Hdl), get2_d_m_l in Hx.
  rewrite <- (get2_row _ _ _ _ Hdu), get2_d_m_u in Hy.
  rewrite (get2_row _ _ _ _ Hp), Hpv in Hx, Hy.
  destruct (get2 b i j) as [bv|]; [|discriminate].
  injection Hx as <-. injection Hy as <-.
  assert (H := weights_sum_one bv). nra.
Qed.

Section Scatter.

Variable an : list nat.
Variable sel raw : list (list Q).

Hypothesis Han_length : length an = bs.
Hypothesis Han_lt : Forall (fun a => (a < A)%nat) an.
Hypothesis Hsel : shape2 sel bs N.
Hypothesis Hraw : shape2 raw bs N.

Let b : list (list Q) := b_coord self (atoms_next self raw).
Let l : list (list Z) := l_floor b.
Let u : list (list Z) := u_ceil b.
Let dl : list (list Q) := d_m_l l u b sel.
Let du : list (list Q) := d_m_u l b sel.

Lemma shape2_b : shape2 b bs N.
Proof. unfold b, b_coord, atoms_next. repeat apply shape2_map2d. exact Hraw. Qed.

Lemma scatter_body_step (done : list nat) (i : nat) (th : tensor3) :
  i ∈ seq 0 bs -> scattered bs A N an sel done th ->
  exists th', scatter_body an l dl du th i = Ok th'
              /\ scattered bs A N an sel (done ++ [i]) th'.
Proof.
  intros Hi [[Hlen Hplanes] Hdone]. apply elem_of_seq in Hi.
  assert (Hplanes' := Hplanes). rewrite Forall_lookup in Hplanes'.
  destruct (lookup_lt_is_Some_2 an i) as [a Ha]; [lia|].
  assert (HaA : (a < A)%nat).
  { rewrite Forall_lookup in Han_lt. exact (Han_lt _ _ Ha). }
  destruct (lookup_lt_is_Some_2 th i) as [plane Hplane]; [lia|].
  destruct (Hplanes' _ _ Hplane) as [HplA Hrows].
  destruct (lookup_lt_is_Some_2 plane a) as [row Hrow]; [lia|].
  assert (Hrowlen : length row = N).
  { rewrite Forall_lookup in Hrows. exact (Hrows _ _ Hrow). }
  assert (Hsb := shape2_b).
  assert (Hsl : shape2 l bs N) by (apply shape2_map2d; exact Hsb).
  assert (Hsdl : shape2 dl bs N) by (apply shape2_d_m_l; assumption).
  assert (Hsdu : shape2 du bs N) by (apply shape2_d_m_u; assumption).
  destruct (lookup_lt_is_Some_2 l i) as [l_i Hl_i]; [destruct Hsl; lia|].
  destruct (lookup_lt_is_Some_2 dl i) as [dl_i Hdl_i]; [destruct Hsdl; lia|].
  destruct (lookup_lt_is_Some_2 du i) as [du_i Hdu_i]; [destruct Hsdu; lia|].
  destruct (lookup_lt_is_Some_2 sel i) as [p Hp]; [destruct Hsel; lia|].
  assert (Ll := shape2_lookup _ _ _ _ _ Hsl Hl_i).
  assert (Ldl := shape2_lookup _ _ _ _ _ Hsdl Hdl_i).
  assert (Ldu := shape2_lookup _ _ _ _ _ Hsdu Hdu_i).
  assert (Hbounds : Forall (fun k => (0 <= k < Z.of_nat N)%Z) l_i).
  { apply (index_rows_in_bounds raw i). left. exact Hl_i. }
  destruct (add_at_in_bounds l_i dl_i (map (fun _ => 0) row))
    as (r1 & Hr1 & Lr1 & Sr1).
  { rewrite length_map, Hrowlen. exact Hbounds. }
  { congruence. }
  rewrite length_map in Lr1.
  destruct (add_at_in_bounds l_i du_i r1) as (r2 & Hr2 & Lr2 & Sr2).
  { rewrite Lr1, Hrowlen. exact Hbounds. }
  { congruence. }
  exists (<[i := <[a := r2]> plane]> th). split.
  - unfold scatter_body, tensor3 in *.
    rewrite Ha. cbn [from_option bind].
    rewrite Hplane. cbn [from_option bind].
    rewrite Hrow. cbn [from_option bind].
    rewrite Hl_i. cbn [from_option bind].
    rewrite Hdl_i. cbn [from_option bind].
    rewrite Hr1. cbn [from_option bind].
    rewrite Hdu_i. cbn [from_option bind].
    rewrite Hr2. reflexivity.
  - split.
    + unfold shape3, tensor3 in *.
      split; [rewrite length_insert; exact Hlen|].
      apply Forall_insert; [exact Hplanes|].
      split; [rewrite length_insert; exact HplA|].
      apply Forall_insert; [exact Hrows|]. congruence.
    + intros k Hk.
      destruct (decide (k = i)) as [->|Hne].
      * exists a, p, (<[a := r2]> plane), r2.
        split; [exact Ha|]. split; [exact Hp|].
        split; [|split].
        -- unfold tensor3 in *. apply list_lookup_insert_eq. lia.
        -- apply list_lookup_insert_eq. lia.
        -- rewrite Sr2, Sr1, Qsum_zeroed.
           rewrite <- (contributions_sum b sel i dl_i du_i p Hsb Hsel Hdl_i Hdu_i Hp).
           ring.
      * apply elem_of_app in Hk as [Hk|Hk].
        -- destruct (Hdone k Hk)
             as (a' & p' & plane' & row' & H1 & H2 & H3 & H4 & H5).
           exists a', p', plane', row'.
           split; [exact H1|]. split; [exact H2|].
           split; [|split; [exact H4 | exact H5]].
           unfold tensor3 in *.
           rewrite list_lookup_insert_ne by congruence. exact H3.
        -- apply list_elem_of_singleton in Hk. congruence.
Qed.

End Scatter.

Lemma shape3_zeros3 (d1 d2 d3 : nat) : shape3 (zeros3 d1 d2 d3) d1 d2 d3.
Proof.
  unfold zeros3. split; [apply length_replicate|].
  apply Forall_replicate. split; [apply length_replicate|].
  apply Forall_replicate. apply length_replicate.
Qed.

(** On a valid support and well-shaped input every step of lines 69-108
    succeeds, and the row of the selected action carries the mass of the
    selected distribution. *)
Lemma target_histogram_total :
  exists q_next an sel th,
    q_values self prob_next = Ok q_next
    /\ action_next q_next = Ok an
    /\ select_prob self prob_next an = Ok sel
    /\ target_histogram self prob_next rewards terminals = Ok th
    /\ shape3 th bs A N
    /\ forall i, (i < bs)%nat ->
         exists a p plane row,
           an !! i = Some a /\ sel !! i = Some p /\ th !! i = Some plane
           /\ plane !! a = Some row /\ Qsum row == Qsum p.
Proof.
  destruct q_values_shaped as (q & Hq & Sq).
  destruct (action_next_shaped q Sq) as (an & Han & Lan & Fan).
  destruct (select_prob_shaped an Lan Fan) as (sel & Hsel & Ssel & _).
  destruct atoms_next_raw_shaped as (tiled & raw & Ht & Hr & Sraw).
  destruct (for_each_total
              (scatter_body an
                 (l_floor (b_coord self (atoms_next self raw)))
                 (d_m_l (l_floor (b_coord self (atoms_next self raw)))
                        (u_ceil (b_coord self (atoms_next self raw)))
                        (b_coord self (atoms_next self raw)) sel)
                 (d_m_u (l_floor (b_coord self (atoms_next self raw)))
                        (b_coord self (atoms_next self raw)) sel))
              (scattered bs A N an sel) (seq 0 bs) [] (zeros3 bs A N))
    as (th & Hth & [Hshape Hrows]).
  - split; [apply shape3_zeros3|]. intros i Hi. inversion Hi.
  - intros done i st Hi Hinv.
    exact (scatter_body_step an sel raw Lan Fan Ssel Sraw done i st Hi Hinv).
  - exists q, an, sel, th.
    split; [exact Hq|]. split; [exact Han|]. split; [exact Hsel|].
    split; [|split; [exact Hshape|]].
    + unfold target_histogram.
      rewrite Hq. cbn [bind]. rewrite Han. cbn [bind].
      rewrite Hsel. cbn [bind]. rewrite Ht. cbn [bind].
      rewrite Hr. cbn [bind]. exact Hth.
    + intros i Hi. apply Hrows. simpl. apply elem_of_seq. lia.
Qed.

End ProjectionCorrect.

(** ** The target histogram *)

(** C2.  On a valid support and a well-shaped batch, lines 69-108 run to
    completion and, for every batch item, the row of [target_histo] for
    the selected next action sums to what the selected distribution sums
    to; hence to 1 when that distribution sums to 1. *)
Theorem selected_row_sums_to_one {state network env : Type}
  (cfg : Cfg.t) (self : Agent state network env)
  (prob_next : tensor3) (rewards : list Q) (terminals : list bool) :
  __init__ cfg = Ok self ->
  (2 <= Cfg.Categorical_n_atoms cfg)%Z ->
  Cfg.Categorical_Vmin cfg < Cfg.Categorical_Vmax cfg ->
  shape3 prob_next (Cfg.batch_size cfg) (Cfg.action_dim cfg)
         (Z.to_nat (Cfg.Categorical_n_atoms cfg)) ->
  (0 < Cfg.action_dim cfg)%nat ->
  length rewards = Cfg.batch_size cfg ->
  length terminals = Cfg.batch_size cfg ->
  exists q_next an sel th,
    q_values self prob_next = Ok q_next
    /\ action_next q_next = Ok an
    /\ select_prob self prob_next an = Ok sel
    /\ target_histogram self prob_next rewards terminals = Ok th
    /\ forall b, (b < Cfg.batch_size cfg)%nat ->
         exists a p plane row,
           an !! b = Some a /\ sel !! b = Some p
           /\ th !! b = Some plane /\ plane !! a = Some row
           /\ Qsum row == Qsum p
           /\ (Qsum p == 1 -> Qsum row == 1).
Proof.
  intros Hinit Hn Hv Hshape HA Hr Ht.
  destruct (init_Ok _ _ Hinit) as (_ & _ & Hc & Hna & _ & _ & Hbs & _).
  rewrite <- Hbs in *. rewrite <- Hna in Hshape. rewrite <- Hc in Hshape, HA.
  destruct (target_histogram_total cfg self Hinit Hn Hv prob_next rewards
              terminals Hshape HA Hr Ht)
    as (q & an & sel & th & Hq & Han & Hsel & Hth & _ & Hrows).
  exists q, an, sel, th. repeat (split; [assumption|]).
  intros b Hb.
  destruct (Hrows b Hb) as (a & p & plane & row & H1 & H2 & H3 & H4 & H5).
  exists a, p, plane, row.
  split; [exact H1|]. split; [exact H2|]. split; [exact H3|].
  split; [exact H4|]. split; [exact H5|].
  intros H1p. rewrite H5. exact H1p.
Qed.



Lemma scatter_body_zero_elsewhere (an : list nat) (l : list (list Z))
  (dl du : list (list Q)) (th th' : tensor3) (i : nat) :
  zero_elsewhere an th -> scatter_body an l dl du th i = Ok th' ->
  zero_elsewhere an th'.
Proof.
  intros Hz H. unfold scatter_body in H.
  apply bind_Ok in H as (a_i & Ha & H). apply from_option_Ok in Ha.
  apply bind_Ok in H as (plane_i & Hplane & H). apply from_option_Ok in Hplane.
  apply bind_Ok in H as (row_i & Hrow & H).
  apply bind_Ok in H as (l_i & _ & H).
  apply bind_Ok in H as (dl_i & _ & H).
  apply bind_Ok in H as (r1 & _ & H).
  apply bind_Ok in H as (du_i & _ & H).
  apply bind_Ok in H as (r2 & _ & H).
  injection H as <-.
  intros b a plane row j x Hb Hp Hne Hx. unfold tensor3 in *.
  apply list_lookup_insert_Some in Hb as [(<- & <- & _)|[Hbi Hb]].
  - apply list_lookup_insert_Some in Hp as [(<- & _ & _)|[Hai Hp]].
    + congruence.
    + exact (Hz i a plane_i row j x Hplane Hp Hne Hx).
  - exact (Hz b a plane row j x Hb Hp Hne Hx).
Qed.

Lemma zeros3_zero_elsewhere (an : list nat) (d1 d2 d3 : nat) :
  zero_elsewhere an (zeros3 d1 d2 d3).
Proof.
  intros b a plane row j x Hb Hp _ Hx. unfold zeros3 in Hb.
  apply lookup_replicate in Hb as [-> _].
  apply lookup_replicate in Hp as [-> _].
  apply lookup_replicate in Hx as [-> _]. reflexivity.
Qed.

(** C5.  Whenever lines 69-108 produce a target histogram, each of its
    rows for an action other than the selected next action of the batch
    item holds zeros only. *)
Theorem non_selected_rows_zero {state network env : Type}
  (self : Agent state network env)
  (prob_next : tensor3) (rewards : list Q) (terminals : list bool)
  (q_next : list (list Q)) (an : list nat) (th : tensor3) :
  q_values self prob_next = Ok q_next ->
  action_next q_next = Ok an ->
  target_histogram self prob_next rewards terminals = Ok th ->
  forall (b a : nat) (plane : list (list Q)) (row : list Q) (j : nat) (x : Q),
    th !! b = Some plane -> plane !! a = Some row -> an !! b <> Some a ->
    row !! j = Some x -> x = 0.
Proof.
  intros Hq Han H. unfold target_histogram in H.
  rewrite Hq in H. cbn [bind] in H. rewrite Han in H. cbn [bind] in H.
  apply bind_Ok in H as (sel & _ & H).
  apply bind_Ok in H as (tiled & _ & H).
  apply bind_Ok in H as (raw & _ & H).
  cbv zeta in H.
  apply (for_each_preserves _ (zero_elsewhere an) _ _ _
           (zeros3_zero_elsewhere an _ _ _)) in H; [exact H|].
  intros st i st' Hst Hstep.
  eapply scatter_body_zero_elsewhere; eassumption.
Qed.

(** ** A small agent, run by hand *)

Lemma demo_agent_init : __init__ cfg_demo = Ok demo_agent.
Proof. reflexivity. Qed.

(** C1, where the code departs from it.  Reward -1/2, not terminal: the
    selected action is 1, its mass sits on atom 2, which is shifted to
    3/2, so l = 1, u = 2 and each contribution is 1/2.  Lines 107-108
    add both at index 1: the row is [0, 1, 0] and index u = 2 receives
    nothing, where the loop body with the second [np.add.at] at [u[i]]
    gives [0, 1/2, 1/2]. *)
Theorem scatter_adds_both_contributions_at_l :
  exists (an : list nat) (sel tiled raw : list (list Q)),
    (do q <- q_values demo_agent prob_demo ; action_next q) = Ok an
    /\ an = [1%nat]
    /\ select_prob demo_agent prob_demo an = Ok sel
    /\ tile_rewards demo_agent [- (1 # 2)] = Ok tiled
    /\ atoms_next_raw demo_agent tiled [false] = Ok raw
    /\ let b := b_coord demo_agent (atoms_next demo_agent raw) in
       let l := l_floor b in
       let u := u_ceil b in
       let dl := d_m_l l u b sel in
       let du := d_m_u l b sel in
       get2 l 0 2 = Some 1%Z
       /\ get2 u 0 2 = Some 2%Z
       /\ Qred <$> get2 dl 0 2 = Some (1 # 2)
       /\ Qred <$> get2 du 0 2 = Some (1 # 2)
       /\ reduced (target_histogram demo_agent prob_demo [- (1 # 2)] [false])
          = Ok [[[0; 0; 0]; [0; 1; 0]]]
       /\ reduced (for_each (scatter_body_as_specified an l u dl du)
                            (seq 0 1) (zeros3 1 2 3))
          = Ok [[[0; 0; 0]; [0; 1 # 2; 1 # 2]]].
Proof.
  eexists _, _, _, _.
  split; [vm_compute; reflexivity|].
  split; [reflexivity|].
  split; [vm_compute; reflexivity|].
  split; [vm_compute; reflexivity|].
  split; [vm_compute; reflexivity|].
  cbv zeta. repeat split; vm_compute; reflexivity.
Qed.

(** ** The properties at work on the small agent *)

Lemma support_uniform_grid_demo :
  exists self : Agent unit unit unit,
    __init__ cfg_demo = Ok self
    /\ Z.of_nat (length (atoms self)) = 3%Z
    /\ (exists x, atoms self !! 0%nat = Some x /\ x == 0)
    /\ (exists x, atoms self !! 2%nat = Some x /\ x == 2)
    /\ delta_z self == (2 - 0) / inject_Z (3 - 1)
    /\ (forall i x y, atoms self !! i = Some x -> atoms self !! S i = Some y ->
                      y - x == delta_z self)
    /\ (forall i j x y, (i < j)%nat ->
                        atoms self !! i = Some x -> atoms self !! j = Some y ->
                        x < y).
Proof.
  apply (support_uniform_grid (state:=unit) (network:=unit) (env:=unit) cfg_demo).
  - simpl. lia.
  - reflexivity.
Defined.

Lemma atoms_next_within_support_demo :
  exists r t z,
    [5] !! 0%nat = Some r /\ [false] !! 0%nat = Some t
    /\ atoms demo_agent !! 2%nat = Some z
    /\ let Tz := r + Cfg.discount_rate (config demo_agent) * (1 - b2q t) * z in
       2 = clip Tz (vmin demo_agent) (vmax demo_agent)
       /\ vmin demo_agent <= 2 <= vmax demo_agent
       /\ (Tz <= vmin demo_agent -> 2 == vmin demo_agent)
       /\ (vmax demo_agent <= Tz -> 2 == vmax demo_agent).
Proof.
  eapply (atoms_next_within_support demo_agent [5] [false] _ _ 0 2 2).
  - apply Qle_bool_imp_le. reflexivity.
  - reflexivity.
  - vm_compute. reflexivity.
  - vm_compute. reflexivity.
Defined.

Lemma selected_row_sums_to_one_demo :
  exists q_next an sel th,
    q_values demo_agent prob_demo = Ok q_next
    /\ action_next q_next = Ok an
    /\ select_prob demo_agent prob_demo an = Ok sel
    /\ target_histogram demo_agent prob_demo [- (1 # 2)] [false] = Ok th
    /\ forall b, (b < 1)%nat ->
         exists a p plane row,
           an !! b = Some a /\ sel !! b = Some p
           /\ th !! b = Some plane /\ plane !! a = Some row
           /\ Qsum row == Qsum p
           /\ (Qsum p == 1 -> Qsum row == 1).
Proof.
  apply (selected_row_sums_to_one cfg_demo demo_agent prob_demo
           [- (1 # 2)] [false]).
  - reflexivity.
  - simpl. lia.
  - reflexivity.
  - split; [reflexivity|]. repeat constructor.
  - simpl. lia.
  - reflexivity.
  - reflexivity.
Defined.


Lemma non_selected_rows_zero_demo :
  exists (th : tensor3) (plane : list (list Q)) (row : list Q) (x : Q),
    target_histogram demo_agent prob_demo [- (1 # 2)] [false] = Ok th
    /\ th !! 0%nat = Some plane
    /\ plane !! 0%nat = Some row
    /\ row !! 2%nat = Some x
    /\ x = 0.
Proof.
  eexists _, _, _, _.
  split; [vm_compute; reflexivity|].
  split; [reflexivity|].
  split; [reflexivity|].
  split; [reflexivity|].
  refine (non_selected_rows_zero demo_agent prob_demo [- (1 # 2)] [false]
            _ [1%nat] _ _ _ _ 0 0 _ _ 2 0 _ _ _ _).
  - vm_compute. reflexivity.
  - vm_compute. reflexivity.
  - vm_compute. reflexivity.
  - reflexivity.
  - reflexivity.
  - simpl. discriminate.
  - reflexivity.
Defined.

(** ** [transition]: when the target network is synchronised *)

Lemma steps_after_app (t : Z) (k1 k2 : nat) :
  steps_after t (k1 + k2) =
  steps_after t k1 ++ steps_after (t + Z.of_nat k1) k2.
Proof.
  unfold steps_after. rewrite seq_app, map_app. f_equal.
  replace (seq (1 + k1) k2) with (map (Nat.add k1) (seq 1 k2)).
  - rewrite map_map. apply map_ext. intros j. lia.
  - replace (1 + k1)%nat with (k1 + 1)%nat by lia.
    apply (fmap_add_seq k1 1 k2).
Qed.

Section TransitionLog.

Context {state network env rng : Type}.
Variable predict : network -> list state -> tensor3.
Variable fit : network -> list state -> tensor3 -> network * Q.
Variable env_reset : env -> env * state.
Variable env_step : env -> nat -> env * (state * Q * bool).
Variable epsilon_greedy : rng -> list Q -> nat -> nat -> rng * nat.
Variable uniform_random_replay :
  rng -> list (Transition state) -> nat -> rng * Batch state.

Let Run' : Type := Run state network env rng.

Lemma logged_refl (r : Run') : logged r r 0.
Proof.
  unfold logged, steps_after. simpl. rewrite Z.add_0_r, app_nil_r. auto.
Qed.

Lemma logged_trans (r1 r2 r3 : Run') (k1 k2 : nat) :
  logged r1 r2 k1 -> logged r2 r3 k2 -> logged r1 r3 (k1 + k2).
Proof.
  intros (Hc1 & Hs1 & Ht1 & Hl1) (Hc2 & Hs2 & Ht2 & Hl2).
  unfold logged. rewrite Hc2, Hs2, Ht2, Hl2, Hl1, Hc1, Hs1, Ht1.
  repeat split; [lia|].
  rewrite steps_after_app, List.filter_app, app_assoc. reflexivity.
Qed.

Lemma train_by_replay_fields (self self' : Agent state network env)
  (g g' : rng) (loss : Q) :
  train_by_replay predict fit uniform_random_replay self g
  = Ok (self', g', loss) ->
  config self' = config self /\ steps self' = steps self
  /\ total_steps self' = total_steps self
  /\ target_network self' = target_network self.
Proof.
  unfold train_by_replay.
  destruct (uniform_random_replay g (replay_buffer self) (batch_size self))
    as [g1 sample].
  intros H.
  apply bind_Ok in H as (target & _ & H).
  apply bind_Ok in H as (th & _ & H).
  apply bind_Ok in H as (actor & _ & H).
  destruct (fit actor (current_states sample) th) as [actor' loss'].
  injection H as <- _ _. auto.
Qed.

Lemma step_body_logged (each_ep : nat) (r r' : Run') (s s' : state)
  (done : bool) :
  step_body predict fit env_step epsilon_greedy uniform_random_replay
            each_ep r s = Ok (r', s', done) ->
  logged r r' 1
  /\ if (Cfg.weights_update_frequency (config (agent r))
         <? total_steps (agent r) + 1)%Z
     then set_weights_log r' =
          set_weights_log r ++ [(total_steps (agent r) + 1)%Z]
          /\ is_Some (actor_network (agent r'))
          /\ target_network (agent r') = actor_network (agent r')
     else set_weights_log r' = set_weights_log r
          /\ target_network (agent r') = target_network (agent r).
Proof.
  unfold step_body. intros H.
  apply bind_Ok in H as (actor & _ & H).
  apply bind_Ok in H as (action_value & _ & H).
  apply bind_Ok in H as (av0 & _ & H).
  cbn [config set_total_steps] in H.
  destruct (epsilon_greedy (gen r) av0 each_ep
              (Cfg.stop_explore (config (agent r)))) as [g action].
  apply bind_Ok in H as (e & _ & H).
  destruct (env_step e action) as [e' [[next_state reward] done']].
  apply bind_Ok in H as ([self1 g1] & Htrain & H).
  apply bind_Ok in H as ([self2 log] & Hsync & H).
  injection H as <- <- <-.
  assert (F1 : config self1 = config (agent r)
               /\ steps self1 = steps (agent r)
               /\ total_steps self1 = (total_steps (agent r) + 1)%Z
               /\ target_network self1 = target_network (agent r)).
  { cbn [replay_buffer set_replay_buffer replay_buffer_size set_envs] in Htrain.
    match type of Htrain with (if ?c then _ else _) = _ => destruct c end.
    - apply bind_Ok in Htrain as ([[self0 g0] loss] & Ht & Htrain).
      injection Htrain as <- <-.
      apply train_by_replay_fields in Ht as (Hc & Hs & Ht & Htn).
      cbn in *. auto.
    - injection Htrain as <- <-. cbn. auto. }
  destruct F1 as (Hc1 & Hs1 & Ht1 & Htn1).
  rewrite Hc1, Ht1 in Hsync.
  cbn [agent set_weights_log].
  assert (F2 : config self2 = config (agent r)
               /\ steps self2 = steps (agent r)
               /\ total_steps self2 = (total_steps (agent r) + 1)%Z
               /\ if (Cfg.weights_update_frequency (config (agent r))
                      <? total_steps (agent r) + 1)%Z
                  then log = set_weights_log r ++ [(total_steps (agent r) + 1)%Z]
                       /\ is_Some (actor_network self2)
                       /\ target_network self2 = actor_network self2
                  else log = set_weights_log r
                       /\ target_network self2 = target_network (agent r)).
  { destruct (Cfg.weights_update_frequency (config (agent r))
              <? total_steps (agent r) + 1)%Z.
    - apply bind_Ok in Hsync as (target & _ & Hsync).
      apply bind_Ok in Hsync as (actor' & Hactor & Hsync).
      apply from_option_Ok in Hactor.
      injection Hsync as <- <-. cbn. rewrite Hactor. eauto 10.
    - injection Hsync as <- <-. auto. }
  destruct F2 as (Hc2 & Hs2 & Ht2 & Hlog).
  split; [|exact Hlog].
  unfold logged. cbn [agent set_weights_log].
  split; [exact Hc2|]. split; [exact Hs2|]. split; [exact Ht2|].
  unfold steps_after. cbn [seq map List.filter].
  change (Z.of_nat 1) with 1%Z.
  destruct (Cfg.weights_update_frequency (config (agent r))
            <? total_steps (agent r) + 1)%Z.
  - destruct Hlog as [-> _]. reflexivity.
  - destruct Hlog as [-> _]. rewrite app_nil_r. reflexivity.
Qed.

Lemma step_loop_logged (n each_ep : nat) (r r' : Run') (s : state) :
  step_loop predict fit env_step epsilon_greedy uniform_random_replay
            n each_ep r s = Ok r' ->
  exists k, (k <= n)%nat /\ logged r r' k.
Proof.
  revert r s; induction n as [|n IH]; intros r s H; simpl in H.
  - injection H as <-. exists 0%nat. split; [lia | apply logged_refl].
  - apply bind_Ok in H as ([[r1 s1] done] & Hstep & H).
    apply step_body_logged in Hstep as [Hstep _].
    destruct done.
    + injection H as <-. exists 1%nat. split; [lia | exact Hstep].
    + destruct (IH _ _ H) as (k & Hk & Hlog).
      exists (1 + k)%nat. split; [lia|].
      eapply logged_trans; eassumption.
Qed.

Lemma episode_logged (each_ep : nat) (r r' : Run') :
  episode predict fit env_reset env_step epsilon_greedy uniform_random_replay
          r each_ep = Ok r' ->
  exists k, (k <= steps (agent r))%nat /\ logged r r' k.
Proof.
  unfold episode. intros H.
  apply bind_Ok in H as (e & _ & H).
  destruct (env_reset e) as [e' s].
  apply step_loop_logged in H as (k & Hk & Hlog).
  exists k. split; [exact Hk|]. exact Hlog.
Qed.

Lemma episodes_logged (eps : list nat) (r r' : Run') :
  for_each
    (episode predict fit env_reset env_step epsilon_greedy uniform_random_replay)
    eps r = Ok r' ->
  exists k, (k <= length eps * steps (agent r))%nat /\ logged r r' k.
Proof.
  revert r; induction eps as [|ep eps IH]; intros r H; simpl in H.
  - injection H as <-. exists 0%nat. split; [lia | apply logged_refl].
  - apply bind_Ok in H as (r1 & Hep & H).
    apply episode_logged in Hep as (k1 & Hk1 & Hl1).
    destruct (IH _ H) as (k2 & Hk2 & Hl2).
    exists (k1 + k2)%nat. split.
    + destruct Hl1 as (_ & Hs & _). rewrite Hs in Hk2. simpl. lia.
    + eapply logged_trans; eassumption.
Qed.

End TransitionLog.

(** C8, as the code has it.  The test of line 153 is made at every
    step: a step at which [total_steps] (already incremented) exceeds
    [weights_update_frequency] copies the actor's weights to the target
    network, every other step leaves the target network as it was; over
    a whole run of [transition] the calls of [set_weights] are, in
    order, exactly the steps taken past the threshold. *)
Theorem target_synced_at_every_step_past_threshold
  {state network env rng : Type}
  (predict : network -> list state -> tensor3)
  (fit : network -> list state -> tensor3 -> network * Q)
  (env_reset : env -> env * state)
  (env_step : env -> nat -> env * (state * Q * bool))
  (epsilon_greedy : rng -> list Q -> nat -> nat -> rng * nat)
  (uniform_random_replay :
     rng -> list (Transition state) -> nat -> rng * Batch state) :
  (forall (each_ep : nat) (r r' : Run state network env rng)
          (s s' : state) (done : bool),
      step_body predict fit env_step epsilon_greedy uniform_random_replay
                each_ep r s = Ok (r', s', done) ->
      total_steps (agent r') = (total_steps (agent r) + 1)%Z
      /\ if (Cfg.weights_update_frequency (config (agent r))
             <? total_steps (agent r'))%Z
         then set_weights_log r' = set_weights_log r ++ [total_steps (agent r')]
              /\ is_Some (actor_network (agent r'))
              /\ target_network (agent r') = actor_network (agent r')
         else set_weights_log r' = set_weights_log r
              /\ target_network (agent r') = target_network (agent r))
  /\ (forall r r' : Run state network env rng,
         transition predict fit env_reset env_step epsilon_greedy
                    uniform_random_replay r = Ok r' ->
         exists k : nat,
           (k <= episodes (agent r) * steps (agent r))%nat
           /\ total_steps (agent r') = (total_steps (agent r) + Z.of_nat k)%Z
           /\ set_weights_log r' =
              set_weights_log r ++
              List.filter
                (fun t =>
                   (Cfg.weights_update_frequency (config (agent r)) <? t)%Z)
                (steps_after (total_steps (agent r)) k)).
Proof.
  split.
  - intros each_ep r r' s s' done H.
    apply step_body_logged in H as [(_ & _ & Ht & _) Hsync].
    change (Z.of_nat 1) with 1%Z in Ht.
    split; [exact Ht|]. rewrite Ht. exact Hsync.
  - intros r r' H. unfold transition in H.
    apply episodes_logged in H as (k & Hk & (_ & _ & Ht & Hlog)).
    rewrite length_seq in Hk. eauto.
Qed.

(** C8, refuted as stated: with [weights_update_frequency = 2] and one
    episode of four steps, [set_weights] is called twice, at the
    consecutive steps 3 and 4, not once. *)
Lemma target_synced_more_than_once :
  Cfg.weights_update_frequency cfg_demo = 2%Z
  /\ exists r', demo_transition = Ok r'
                /\ total_steps (agent r') = 4%Z
                /\ set_weights_log r' = [3%Z; 4%Z]
                /\ length (set_weights_log r') = 2%nat.
Proof.
  split; [reflexivity|].
  eexists. split; [vm_compute; reflexivity|].
  repeat split.
Qed.

(** * Further properties of the projection *)

(** ** [np.add.at], entry by entry *)

Lemma add_at_loop_length (idx : list Z) (vals row row' : list Q) :
  add_at_loop row idx vals = Ok row' -> length row' = length row.
Proof.
  revert vals row; induction idx as [|k idx IH]; intros vals row H.
  - destruct vals; injection H as <-; reflexivity.
  - destruct vals as [|v vals]; [injection H as <-; reflexivity|].
    cbn [add_at_loop] in H. apply bind_Ok in H as (i & _ & H).
    apply IH in H. rewrite length_alter in H. exact H.
Qed.

Lemma add_at_length (idx : list Z) (vals row row' : list Q) :
  add_at row idx vals = Ok row' -> length row' = length row.
Proof.
  unfold add_at. destruct (length idx =? length vals)%nat; [|discriminate].
  apply add_at_loop_length.
Qed.

Lemma binned_cons (i : Z) (idx : list Z) (v : Q) (vals : list Q) (k : nat) :
  binned (i :: idx) (v :: vals) k =
  (if (i =? Z.of_nat k)%Z then v else 0) + binned idx vals k.
Proof. reflexivity. Qed.

Lemma binned_nil (vals : list Q) (k : nat) : binned [] vals k = 0.
Proof. reflexivity. Qed.

Lemma add_at_loop_lookup (idx : list Z) (vals row row' : list Q) (k : nat) (x : Q) :
  Forall (fun i => (0 <= i < Z.of_nat (length row))%Z) idx ->
  length idx = length vals ->
  add_at_loop row idx vals = Ok row' ->
  row !! k = Some x ->
  exists x', row' !! k = Some x' /\ x' == x + binned idx vals k.
Proof.
  revert vals row x; induction idx as [|i idx IH]; intros vals row x Hb Hl H Hx.
  - destruct vals; [|discriminate]. injection H as <-.
    exists x. split; [exact Hx|]. rewrite binned_nil. ring.
  - destruct vals as [|v vals]; [discriminate|].
    inversion Hb as [|? ? Hi Hrest]; subst.
    cbn [add_at_loop] in H.
    rewrite resolve_index_in_bounds in H by assumption. cbn [bind] in H.
    rewrite binned_cons.
    destruct (decide (Z.to_nat i = k)) as [E|E].
    + subst k.
      destruct (IH vals (alter (fun x => x + v) (Z.to_nat i) row) (x + v))
        as (x' & Hx' & Hs).
      * rewrite length_alter. exact Hrest.
      * simpl in Hl. lia.
      * exact H.
      * rewrite list_lookup_alter_eq, Hx. reflexivity.
      * exists x'. split; [exact Hx'|]. rewrite Hs.
        rewrite Z2Nat.id by lia. rewrite Z.eqb_refl. ring.
    + destruct (IH vals (alter (fun x => x + v) (Z.to_nat i) row) x)
        as (x' & Hx' & Hs).
      * rewrite length_alter. exact Hrest.
      * simpl in Hl. lia.
      * exact H.
      * rewrite list_lookup_alter_ne by exact E. exact Hx.
      * exists x'. split; [exact Hx'|]. rewrite Hs.
        destruct (Z.eqb_spec i (Z.of_nat k)); [lia|]. ring.
Qed.

Lemma add_at_lookup (idx : list Z) (vals row row' : list Q) (k : nat) (x : Q) :
  Forall (fun i => (0 <= i < Z.of_nat (length row))%Z) idx ->
  add_at row idx vals = Ok row' ->
  row !! k = Some x ->
  exists x', row' !! k = Some x' /\ x' == x + binned idx vals k.
Proof.
  intros Hb H Hx. unfold add_at in H.
  destruct (Nat.eqb_spec (length idx) (length vals)); [|discriminate].
  eapply add_at_loop_lookup; eassumption.
Qed.

(** Contributions that add up entry by entry add up bin by bin. *)
Lemma binned_pointwise (idx : list Z) (xs ys ps : list Q) (k : nat) :
  length xs = length ps -> length ys = length ps ->
  (forall j x y p, xs !! j = Some x -> ys !! j = Some y -> ps !! j = Some p ->
                   x + y == p) ->
  binned idx xs k + binned idx ys k == binned idx ps k.
Proof.
  revert xs ys ps; induction idx as [|i idx IH]; intros xs ys ps Hx Hy H.
  - rewrite !binned_nil. ring.
  - destruct ps as [|p ps]; destruct xs as [|x xs]; destruct ys as [|y ys];
      try discriminate.
    + unfold binned. simpl. ring.
    + rewrite !binned_cons.
      assert (H0 := H 0%nat x y p eq_refl eq_refl eq_refl).
      assert (IH' : binned idx xs k + binned idx ys k == binned idx ps k).
      { apply IH; [simpl in Hx; lia | simpl in Hy; lia |].
        intros j x' y' p' Hx' Hy' Hp'. exact (H (S j) _ _ _ Hx' Hy' Hp'). }
      rewrite <- IH'. destruct (i =? Z.of_nat k)%Z; [rewrite <- H0|]; ring.
Qed.

(** The bins partition the mass. *)
Lemma binned_nonneg (idx : list Z) (vals : list Q) (k : nat) :
  Forall (fun v => 0 <= v) vals -> 0 <= binned idx vals k.
Proof.
  revert vals; induction idx as [|i idx IH]; intros vals H.
  - rewrite binned_nil. apply Qle_refl.
  - destruct vals as [|v vals]; [unfold binned; simpl; apply Qle_refl|].
    inversion H as [|? ? Hv Hrest]; subst. rewrite binned_cons.
    assert (IH' := IH vals Hrest).
    destruct (i =? Z.of_nat k)%Z; lra.
Qed.

(** ** The scatter loop, entry by entry *)

Lemma contributions_pointwise (b sel : list (list Q)) (i : nat)
  (dl du p : list Q) :
  d_m_l (l_floor b) (u_ceil b) b sel !! i = Some dl ->
  d_m_u (l_floor b) b sel !! i = Some du ->
  sel !! i = Some p ->
  forall j x y pv, dl !! j = Some x -> du !! j = Some y -> p !! j = Some pv ->
                   x + y == pv.
Proof.
  intros Hdl Hdu Hp j x y pv Hx Hy Hpv.
  rewrite <- (get2_row _ _ _ _ Hdl), get2_d_m_l in Hx.
  rewrite <- (get2_row _ _ _ _ Hdu), get2_d_m_u in Hy.
  rewrite (get2_row _ _ _ _ Hp), Hpv in Hx, Hy.
  destruct (get2 b i j) as [bv|]; [|discriminate].
  injection Hx as <-. injection Hy as <-.
  assert (H := weights_sum_one bv). nra.
Qed.

Section ProjectionBinned.

Context {state network env : Type}.
Variable cfg : Cfg.t.
Variable self : Agent state network env.

Hypothesis Hinit : __init__ cfg = Ok self.
Hypothesis Hatoms : (2 <= Cfg.Categorical_n_atoms cfg)%Z.
Hypothesis Hrange : Cfg.Categorical_Vmin cfg < Cfg.Categorical_Vmax cfg.

Let N : nat := Z.to_nat (n_atoms self).
Let bs : nat := batch_size self.
Let A : nat := Cfg.action_dim (config self).

Variable an : list nat.
Variable sel raw : list (list Q).

Hypothesis Han_length : length an = bs.
Hypothesis Han_lt : Forall (fun a => (a < A)%nat) an.
Hypothesis Hsel : shape2 sel bs N.
Hypothesis Hraw : shape2 raw bs N.

Let b : list (list Q) := b_coord self (atoms_next self raw).
Let l : list (list Z) := l_floor b.
Let u : list (list Z) := u_ceil b.
Let dl : list (list Q) := d_m_l l u b sel.
Let du : list (list Q) := d_m_u l b sel.

Lemma scatter_body_binned (done : list nat) (i : nat) (th : tensor3) :
  i ∈ seq 0 bs -> binned_rows bs A N an sel l done th ->
  exists th', scatter_body an l dl du th i = Ok th'
              /\ binned_rows bs A N an sel l (done ++ [i]) th'.
Proof.
  intros Hi [[Hlen Hplanes] Hdone]. apply elem_of_seq in Hi.
  assert (Hplanes' := Hplanes). rewrite Forall_lookup in Hplanes'.
  destruct (lookup_lt_is_Some_2 an i) as [a Ha]; [lia|].
  assert (HaA : (a < A)%nat).
  { rewrite Forall_lookup in Han_lt. exact (Han_lt _ _ Ha). }
  destruct (lookup_lt_is_Some_2 th i) as [plane Hplane]; [lia|].
  destruct (Hplanes' _ _ Hplane) as [HplA Hrows].
  destruct (lookup_lt_is_Some_2 plane a) as [row Hrow]; [lia|].
  assert (Hrowlen : length row = N).
  { rewrite Forall_lookup in Hrows. exact (Hrows _ _ Hrow). }
  assert (Hsb : shape2 b bs N) by (apply shape2_b; exact Hraw).
  assert (Hsl : shape2 l bs N) by (apply shape2_map2d; exact Hsb).
  assert (Hsdl : shape2 dl bs N) by (apply shape2_d_m_l; assumption).
  assert (Hsdu : shape2 du bs N) by (apply shape2_d_m_u; assumption).
  destruct (lookup_lt_is_Some_2 l i) as [l_i Hl_i]; [destruct Hsl; lia|].
  destruct (lookup_lt_is_Some_2 dl i) as [dl_i Hdl_i]; [destruct Hsdl; lia|].
  destruct (lookup_lt_is_Some_2 du i) as [du_i Hdu_i]; [destruct Hsdu; lia|].
  destruct (lookup_lt_is_Some_2 sel i) as [p Hp]; [destruct Hsel; lia|].
  assert (Ll := shape2_lookup _ _ _ _ _ Hsl Hl_i).
  assert (Ldl := shape2_lookup _ _ _ _ _ Hsdl Hdl_i).
  assert (Ldu := shape2_lookup _ _ _ _ _ Hsdu Hdu_i).
  assert (Lp := shape2_lookup _ _ _ _ _ Hsel Hp).
  assert (Hbounds : Forall (fun k => (0 <= k < Z.of_nat N)%Z) l_i).
  { apply (index_rows_in_bounds cfg self Hinit Hatoms Hrange raw i). left. exact Hl_i. }
  destruct (add_at_in_bounds l_i dl_i (map (fun _ => 0) row))
    as (r1 & Hr1 & Lr1 & _).
  { rewrite length_map, Hrowlen. exact Hbounds. }
  { congruence. }
  rewrite length_map in Lr1.
  destruct (add_at_in_bounds l_i du_i r1) as (r2 & Hr2 & Lr2 & _).
  { rewrite Lr1, Hrowlen. exact Hbounds. }
  { congruence. }
  exists (<[i := <[a := r2]> plane]> th). split.
  - unfold scatter_body, tensor3 in *.
    rewrite Ha. cbn [from_option bind].
    rewrite Hplane. cbn [from_option bind].
    rewrite Hrow. cbn [from_option bind].
    rewrite Hl_i. cbn [from_option bind].
    rewrite Hdl_i. cbn [from_option bind].
    rewrite Hr1. cbn [from_option bind].
    rewrite Hdu_i. cbn [from_option bind].
    rewrite Hr2. reflexivity.
  - split.
    + unfold shape3, tensor3 in *.
      split; [rewrite length_insert; exact Hlen|].
      apply Forall_insert; [exact Hplanes|].
      split; [rewrite length_insert; exact HplA|].
      apply Forall_insert; [exact Hrows|]. congruence.
    + intros k Hk.
      destruct (decide (k = i)) as [->|Hne].
      * exists a, p, l_i, (<[a := r2]> plane), r2.
        split; [exact Ha|]. split; [exact Hp|]. split; [exact Hl_i|].
        split; [|split; [|split]].
        -- unfold tensor3 in *. apply list_lookup_insert_eq. lia.
        -- apply list_lookup_insert_eq. lia.
        -- congruence.
        -- intros j x Hx.
           assert (Hj : (j < N)%nat).
           { rewrite <- Hrowlen, <- Lr1, <- Lr2. eapply lookup_lt_Some. exact Hx. }
           assert (H0 : map (fun _ : Q => 0) row !! j = Some 0).
           { rewrite list_lookup_fmap.
             destruct (lookup_lt_is_Some_2 row j) as [y Hy]; [lia|].
             rewrite Hy. reflexivity. }
           destruct (add_at_lookup l_i dl_i (map (fun _ : Q => 0) row) r1 j 0)
             as (x1 & Hx1 & E1);
             [rewrite length_map, Hrowlen; exact Hbounds | exact Hr1 | exact H0 |].
           destruct (add_at_lookup l_i du_i r1 r2 j x1) as (x2 & Hx2 & E2);
             [rewrite Lr1, Hrowlen; exact Hbounds | exact Hr2 | exact Hx1 |].
           assert (x = x2) by congruence. subst x2.
           rewrite E2, E1.
           rewrite <- (binned_pointwise l_i dl_i du_i p j);
             [ring | congruence | congruence |].
           exact (contributions_pointwise b sel i dl_i du_i p Hdl_i Hdu_i Hp).
      * apply elem_of_app in Hk as [Hk|Hk].
        -- destruct (Hdone k Hk)
             as (a' & p' & l' & plane' & row' & H1 & H2 & H3 & H4 & H5 & H6 & H7).
           exists a', p', l', plane', row'.
           split; [exact H1|]. split; [exact H2|]. split; [exact H3|].
           split; [|split; [exact H5 | split; [exact H6 | exact H7]]].
           unfold tensor3 in *.
           rewrite list_lookup_insert_ne by congruence. exact H4.
        -- apply list_elem_of_singleton in Hk. congruence.
Qed.

End ProjectionBinned.

Lemma target_histogram_zero_elsewhere {state network env : Type}
  (self : Agent state network env)
  (prob_next : tensor3) (rewards : list Q) (terminals : list bool)
  (q_next : list (list Q)) (an : list nat) (th : tensor3) :
  q_values self prob_next = Ok q_next ->
  action_next q_next = Ok an ->
  target_histogram self prob_next rewards terminals = Ok th ->
  zero_elsewhere an th.
Proof.
  intros Hq Han H. unfold target_histogram in H.
  rewrite Hq in H. cbn [bind] in H. rewrite Han in H. cbn [bind] in H.
  apply bind_Ok in H as (sel & _ & H).
  apply bind_Ok in H as (tiled & _ & H).
  apply bind_Ok in H as (raw & _ & H).
  cbv zeta in H.
  apply (for_each_preserves _ (zero_elsewhere an) _ _ _
           (zeros3_zero_elsewhere an _ _ _)) in H; [exact H|].
  intros st i st' Hst Hstep.
  eapply scatter_body_zero_elsewhere; eassumption.
Qed.

(** Everything lines 69-108 compute on a valid support and a well-shaped
    batch, with the selected rows of the result given bin by bin. *)
Lemma target_histogram_binned {state network env : Type}
  (cfg : Cfg.t) (self : Agent state network env)
  (prob_next : tensor3) (rewards : list Q) (terminals : list bool) :
  __init__ cfg = Ok self ->
  (2 <= Cfg.Categorical_n_atoms cfg)%Z ->
  Cfg.Categorical_Vmin cfg < Cfg.Categorical_Vmax cfg ->
  shape3 prob_next (Cfg.batch_size cfg) (Cfg.action_dim cfg)
         (Z.to_nat (Cfg.Categorical_n_atoms cfg)) ->
  (0 < Cfg.action_dim cfg)%nat ->
  length rewards = Cfg.batch_size cfg ->
  length terminals = Cfg.batch_size cfg ->
  exists q_next an sel tiled raw th,
    q_values self prob_next = Ok q_next
    /\ action_next q_next = Ok an
    /\ select_prob self prob_next an = Ok sel
    /\ tile_rewards self rewards = Ok tiled
    /\ atoms_next_raw self tiled terminals = Ok raw
    /\ target_histogram self prob_next rewards terminals = Ok th
    /\ shape2 sel (Cfg.batch_size cfg) (Z.to_nat (Cfg.Categorical_n_atoms cfg))
    /\ shape2 raw (Cfg.batch_size cfg) (Z.to_nat (Cfg.Categorical_n_atoms cfg))
    /\ (forall i a, an !! i = Some a ->
          exists plane p, prob_next !! i = Some plane
                          /\ plane !! a = Some p /\ sel !! i = Some p)
    /\ binned_rows (Cfg.batch_size cfg) (Cfg.action_dim cfg)
                   (Z.to_nat (Cfg.Categorical_n_atoms cfg)) an sel
                   (l_floor (b_coord self (atoms_next self raw)))
                   (seq 0 (Cfg.batch_size cfg)) th.
Proof.
  intros Hinit Hn Hv Hshape HA Hr Ht.
  destruct (init_Ok _ _ Hinit) as (_ & _ & Hc & Hna & _ & _ & Hbs & _).
  rewrite <- Hbs in *. rewrite <- Hna in *. rewrite <- Hc in Hshape, HA |- *.
  rewrite Hna in Hn.
  destruct (q_values_shaped cfg self Hinit prob_next Hshape) as (q & Hq & Sq).
  destruct (action_next_shaped self HA q Sq) as (an & Han & Lan & Fan).
  destruct (select_prob_shaped self prob_next Hshape an Lan Fan)
    as (sel & Hsel & Ssel & Hpick).
  destruct (atoms_next_raw_shaped cfg self Hinit Hn rewards terminals Hr Ht)
    as (tiled & raw & Htile & Hraw & Sraw).
  destruct (for_each_total
              (scatter_body an
                 (l_floor (b_coord self (atoms_next self raw)))
                 (d_m_l (l_floor (b_coord self (atoms_next self raw)))
                        (u_ceil (b_coord self (atoms_next self raw)))
                        (b_coord self (atoms_next self raw)) sel)
                 (d_m_u (l_floor (b_coord self (atoms_next self raw)))
                        (b_coord self (atoms_next self raw)) sel))
              (binned_rows (batch_size self) (Cfg.action_dim (config self))
                           (Z.to_nat (n_atoms self)) an sel
                           (l_floor (b_coord self (atoms_next self raw))))
              (seq 0 (batch_size self)) []
              (zeros3 (batch_size self) (Cfg.action_dim (config self))
                      (Z.to_nat (n_atoms self))))
    as (th & Hth & Hinv).
  - split; [apply shape3_zeros3|]. intros i Hi. inversion Hi.
  - intros done i st Hi Hinv.
    exact (scatter_body_binned cfg self Hinit Hn Hv an sel raw Lan Fan Ssel Sraw
             done i st Hi Hinv).
  - exists q, an, sel, tiled, raw, th.
    repeat (split; [assumption|]).
    split; [|split; [exact Ssel | split; [exact Sraw | split; [exact Hpick | exact Hinv]]]].
    unfold target_histogram.
    rewrite Hq. cbn [bind]. rewrite Han. cbn [bind].
    rewrite Hsel. cbn [bind]. rewrite Htile. cbn [bind].
    rewrite Hraw. cbn [bind]. exact Hth.
Qed.

(** X1.  What lines 85-108 put into the row of the selected action: in
    bin [k], the sum of the selected probabilities [p_next[b][j]] over the
    atoms [j] whose lower index [l[b][j]] is [k].  (Both contributions of
    atom [j] are added at [l[b][j]], and the two weights sum to 1.) *)
Theorem target_row_binned_by_floor {state network env : Type}
  (cfg : Cfg.t) (self : Agent state network env)
  (prob_next : tensor3) (rewards : list Q) (terminals : list bool) :
  __init__ cfg = Ok self ->
  (2 <= Cfg.Categorical_n_atoms cfg)%Z ->
  Cfg.Categorical_Vmin cfg < Cfg.Categorical_Vmax cfg ->
  shape3 prob_next (Cfg.batch_size cfg) (Cfg.action_dim cfg)
         (Z.to_nat (Cfg.Categorical_n_atoms cfg)) ->
  (0 < Cfg.action_dim cfg)%nat ->
  length rewards = Cfg.batch_size cfg ->
  length terminals = Cfg.batch_size cfg ->
  exists q_next an sel tiled raw th,
    q_values self prob_next = Ok q_next
    /\ action_next q_next = Ok an
    /\ select_prob self prob_next an = Ok sel
    /\ tile_rewards self rewards = Ok tiled
    /\ atoms_next_raw self tiled terminals = Ok raw
    /\ target_histogram self prob_next rewards terminals = Ok th
    /\ forall b, (b < Cfg.batch_size cfg)%nat ->
         exists a p l_b plane row,
           an !! b = Some a /\ sel !! b = Some p
           /\ l_floor (b_coord self (atoms_next self raw)) !! b = Some l_b
           /\ th !! b = Some plane /\ plane !! a = Some row
           /\ Z.of_nat (length row) = Cfg.Categorical_n_atoms cfg
           /\ forall k x, row !! k = Some x -> x == binned l_b p k.
Proof.
  intros Hinit Hn Hv Hshape HA Hr Ht.
  destruct (target_histogram_binned cfg self prob_next rewards terminals
              Hinit Hn Hv Hshape HA Hr Ht)
    as (q & an & sel & tiled & raw & th & Hq & Han & Hsel & Htile & Hraw & Hth
        & _ & _ & _ & _ & Hrows).
  exists q, an, sel, tiled, raw, th.
  repeat (split; [assumption|]).
  intros b Hb.
  destruct (Hrows b) as (a & p & l_b & plane & row & H1 & H2 & H3 & H4 & H5 & H6 & H7).
  { apply elem_of_seq. lia. }
  exists a, p, l_b, plane, row.
  repeat (split; [assumption|]).
  split; [|exact H7]. rewrite H6. lia.
Qed.

Lemma target_row_binned_by_floor_demo :
  exists q_next an sel tiled raw th,
    q_values demo_agent prob_demo = Ok q_next
    /\ action_next q_next = Ok an
    /\ select_prob demo_agent prob_demo an = Ok sel
    /\ tile_rewards demo_agent [- (1 # 2)] = Ok tiled
    /\ atoms_next_raw demo_agent tiled [false] = Ok raw
    /\ target_histogram demo_agent prob_demo [- (1 # 2)] [false] = Ok th
    /\ forall b, (b < 1)%nat ->
         exists a p l_b plane row,
           an !! b = Some a /\ sel !! b = Some p
           /\ l_floor (b_coord demo_agent (atoms_next demo_agent raw)) !! b
              = Some l_b
           /\ th !! b = Some plane /\ plane !! a = Some row
           /\ Z.of_nat (length row) = 3%Z
           /\ forall k x, row !! k = Some x -> x == binned l_b p k.
Proof.
  apply (target_row_binned_by_floor cfg_demo demo_agent prob_demo
           [- (1 # 2)] [false]).
  - reflexivity.
  - simpl. lia.
  - reflexivity.
  - split; [reflexivity|]. repeat constructor.
  - simpl. lia.
  - reflexivity.
  - reflexivity.
Defined.

(** ** Consequences for particular transitions *)

Lemma binned_constant (idx : list Z) (vals : list Q) (c : Z) (k : nat) :
  Forall (fun i => i = c) idx -> length idx = length vals ->
  binned idx vals k == if (c =? Z.of_nat k)%Z then Qsum vals else 0.
Proof.
  revert vals; induction idx as [|i idx IH]; intros vals Hc Hl.
  - destruct vals; [|discriminate]. rewrite binned_nil.
    destruct (c =? Z.of_nat k)%Z; reflexivity.
  - destruct vals as [|v vals]; [discriminate|].
    inversion Hc as [|? ? Hi Hrest]; subst.
    rewrite binned_cons, IH by (simpl in Hl; auto; lia).
    change (Qsum (v :: vals)) with (v + Qsum vals).
    destruct (c =? Z.of_nat k)%Z; ring.
Qed.

Lemma l_floor_entry {state network env : Type}
  (self : Agent state network env)
  (rewards : list Q) (terminals : list bool) (tiled raw : list (list Q))
  (i j : nat) (k : Z) :
  tile_rewards self rewards = Ok tiled ->
  atoms_next_raw self tiled terminals = Ok raw ->
  get2 (l_floor (b_coord self (atoms_next self raw))) i j = Some k ->
  exists r t z,
    rewards !! i = Some r /\ terminals !! i = Some t /\ atoms self !! j = Some z
    /\ k = Qfloor ((clip (r + Cfg.discount_rate (config self) * (1 - b2q t) * z)
                         (vmin self) (vmax self)
                    - Cfg.Categorical_Vmin (config self)) / delta_z self).
Proof.
  intros Htile Hraw Hk.
  apply tile_rewards_Ok in Htile as [_ ->].
  apply atoms_next_raw_Ok in Hraw as (_ & _ & ->).
  unfold l_floor, b_coord, atoms_next in Hk.
  rewrite !get2_map2d, get2_zip2d, get2_tiled, get2_outer in Hk.
  rewrite list_lookup_fmap in Hk.
  destruct (rewards !! i) as [r|]; [|discriminate].
  destruct (decide (j < Z.to_nat (n_atoms self))%nat); [|discriminate].
  destruct (terminals !! i) as [t|]; simpl in Hk; [|discriminate].
  destruct (atoms self !! j) as [z|]; simpl in Hk; [|discriminate].
  injection Hk as <-. exists r, t, z. auto.
Qed.

Lemma clip_comp (x y lo hi : Q) : x == y -> clip x lo hi == clip y lo hi.
Proof. intros E. unfold clip. rewrite E. reflexivity. Qed.

Lemma atom_closed_form {state network env : Type}
  (cfg : Cfg.t) (self : Agent state network env) (j : nat) (z : Q) :
  __init__ cfg = Ok self ->
  (2 <= Cfg.Categorical_n_atoms cfg)%Z ->
  Cfg.Categorical_Vmin cfg < Cfg.Categorical_Vmax cfg ->
  atoms self !! j = Some z ->
  (Z.of_nat j <= Cfg.Categorical_n_atoms cfg - 1)%Z
  /\ z == Cfg.Categorical_Vmin cfg + Zq j * delta_z self.
Proof.
  intros Hinit Hn Hv Hz.
  destruct (init_Ok _ _ Hinit) as (Hlin & _ & _ & _ & _ & _ & _ & Hd).
  assert (Hlen := linspace_length _ _ _ _ Hlin).
  assert (Hj : (j < Z.to_nat (Cfg.Categorical_n_atoms cfg))%nat).
  { rewrite <- Hlen. eapply lookup_lt_Some. exact Hz. }
  split; [lia|].
  destruct (linspace_lookup _ _ _ _ j Hn (fun E => Qlt_not_eq _ _ Hv (Qeq_sym _ _ E))
              Hlin Hj) as (x & Hx & E).
  rewrite Hd. congruence.
Qed.

(** X2.  A terminal transition: [1 - terminal] is 0 and every atom is
    shifted to the reward, so line 89 computes one and the same index
    [c] for the whole row [b] of [l]; [c] is a bin of the row, and the
    row of the selected action holds the whole mass of the selected
    distribution in bin [c] and 0 in every other bin. *)
Theorem terminal_target_is_point_mass {state network env : Type}
  (cfg : Cfg.t) (self : Agent state network env)
  (prob_next : tensor3) (rewards : list Q) (terminals : list bool) :
  __init__ cfg = Ok self ->
  (2 <= Cfg.Categorical_n_atoms cfg)%Z ->
  Cfg.Categorical_Vmin cfg < Cfg.Categorical_Vmax cfg ->
  shape3 prob_next (Cfg.batch_size cfg) (Cfg.action_dim cfg)
         (Z.to_nat (Cfg.Categorical_n_atoms cfg)) ->
  (0 < Cfg.action_dim cfg)%nat ->
  length rewards = Cfg.batch_size cfg ->
  length terminals = Cfg.batch_size cfg ->
  exists q_next an sel tiled raw th,
    q_values self prob_next = Ok q_next
    /\ action_next q_next = Ok an
    /\ select_prob self prob_next an = Ok sel
    /\ tile_rewards self rewards = Ok tiled
    /\ atoms_next_raw self tiled terminals = Ok raw
    /\ target_histogram self prob_next rewards terminals = Ok th
    /\ forall b, terminals !! b = Some true ->
         exists a p l_b c plane row,
           an !! b = Some a /\ sel !! b = Some p
           /\ l_floor (b_coord self (atoms_next self raw)) !! b = Some l_b
           /\ length l_b = Z.to_nat (Cfg.Categorical_n_atoms cfg)
           /\ Forall (fun i => i = c) l_b
           /\ (0 <= c <= Cfg.Categorical_n_atoms cfg - 1)%Z
           /\ th !! b = Some plane /\ plane !! a = Some row
           /\ length row = Z.to_nat (Cfg.Categorical_n_atoms cfg)
           /\ forall k x, row !! k = Some x ->
                x == if (c =? Z.of_nat k)%Z then Qsum p else 0.
Proof.
  intros Hinit Hn Hv Hshape HA Hr Ht.
  destruct (target_histogram_binned cfg self prob_next rewards terminals
              Hinit Hn Hv Hshape HA Hr Ht)
    as (q & an & sel & tiled & raw & th & Hq & Han & Hsel & Htile & Hraw & Hth
        & Ssel & Sraw & _ & _ & Hrows).
  destruct (init_Ok _ _ Hinit) as (_ & _ & Hc & Hna & _ & _ & Hbs & _).
  exists q, an, sel, tiled, raw, th. repeat (split; [assumption|]).
  intros b Htb.
  assert (Hb : (b < Cfg.batch_size cfg)%nat).
  { rewrite <- Ht. eapply lookup_lt_Some. exact Htb. }
  destruct (lookup_lt_is_Some_2 rewards b) as [r Hrb]; [lia|].
  destruct (Hrows b) as (a & p & l_b & plane & row & H1 & H2 & H3 & H4 & H5 & H6 & H7).
  { apply elem_of_seq. lia. }
  assert (Ll : length l_b = Z.to_nat (Cfg.Categorical_n_atoms cfg)).
  { eapply shape2_lookup; [|exact H3].
    apply shape2_map2d. unfold b_coord, atoms_next.
    repeat apply shape2_map2d. exact Sraw. }
  set (c := Qfloor ((clip r (vmin self) (vmax self)
                     - Cfg.Categorical_Vmin (config self)) / delta_z self)).
  assert (Hall : Forall (fun i => i = c) l_b).
  { rewrite Forall_lookup. intros j i Hi.
    rewrite <- (get2_row _ _ _ _ H3) in Hi.
    destruct (l_floor_entry self rewards terminals tiled raw b j i Htile Hraw Hi)
      as (r' & t & z & Hr' & Ht' & _ & ->).
    assert (r' = r) by congruence. assert (t = true) by congruence. subst r' t.
    unfold c. apply Qfloor_comp.
    rewrite (clip_comp (r + Cfg.discount_rate (config self) * (1 - b2q true) * z) r).
    + reflexivity.
    + unfold b2q. ring. }
  exists a, p, l_b, c, plane, row.
  split; [exact H1|]. split; [exact H2|]. split; [exact H3|].
  split; [exact Ll|]. split; [exact Hall|].
  split.
  { destruct (b_coord_bounds cfg self Hinit Hn Hv r) as (_ & Hfl & _).
    rewrite Hna in Hfl. exact Hfl. }
  split; [exact H4|]. split; [exact H5|]. split; [exact H6|].
  intros k x Hx. rewrite (H7 k x Hx).
  apply binned_constant; [exact Hall|].
  rewrite (shape2_lookup _ _ _ _ _ Ssel H2). exact Ll.
Qed.

Lemma terminal_target_is_point_mass_demo :
  exists q_next an sel tiled raw th,
    q_values demo_agent prob_demo = Ok q_next
    /\ action_next q_next = Ok an
    /\ select_prob demo_agent prob_demo an = Ok sel
    /\ tile_rewards demo_agent [1] = Ok tiled
    /\ atoms_next_raw demo_agent tiled [true] = Ok raw
    /\ target_histogram demo_agent prob_demo [1] [true] = Ok th
    /\ forall b, [true] !! b = Some true ->
         exists a p l_b c plane row,
           an !! b = Some a /\ sel !! b = Some p
           /\ l_floor (b_coord demo_agent (atoms_next demo_agent raw)) !! b
              = Some l_b
           /\ length l_b = Z.to_nat (Cfg.Categorical_n_atoms cfg_demo)
           /\ Forall (fun i => i = c) l_b
           /\ (0 <= c <= Cfg.Categorical_n_atoms cfg_demo - 1)%Z
           /\ th !! b = Some plane /\ plane !! a = Some row
           /\ length row = Z.to_nat (Cfg.Categorical_n_atoms cfg_demo)
           /\ forall k x, row !! k = Some x ->
                x == if (c =? Z.of_nat k)%Z then Qsum p else 0.
Proof.
  apply (terminal_target_is_point_mass cfg_demo demo_agent prob_demo [1] [true]).
  - reflexivity.
  - simpl. lia.
  - reflexivity.
  - split; [reflexivity|]. repeat constructor.
  - simpl. lia.
  - reflexivity.
  - reflexivity.
Defined.

(** ** Sign and shape of the target *)

(** X4.  If no entry of the prediction is negative, no entry of the
    target histogram is: the weights of lines 92 and 93 are never
    negative.  With C2 the selected row is a probability distribution
    whenever the selected distribution is one. *)
Theorem target_histogram_nonnegative {state network env : Type}
  (cfg : Cfg.t) (self : Agent state network env)
  (prob_next : tensor3) (rewards : list Q) (terminals : list bool) :
  __init__ cfg = Ok self ->
  (2 <= Cfg.Categorical_n_atoms cfg)%Z ->
  Cfg.Categorical_Vmin cfg < Cfg.Categorical_Vmax cfg ->
  shape3 prob_next (Cfg.batch_size cfg) (Cfg.action_dim cfg)
         (Z.to_nat (Cfg.Categorical_n_atoms cfg)) ->
  (0 < Cfg.action_dim cfg)%nat ->
  length rewards = Cfg.batch_size cfg ->
  length terminals = Cfg.batch_size cfg ->
  Forall (Forall (Forall (fun v => 0 <= v))) prob_next ->
  exists th,
    target_histogram self prob_next rewards terminals = Ok th
    /\ forall (b a j : nat) (plane : list (list Q)) (row : list Q) (x : Q),
         th !! b = Some plane -> plane !! a = Some row -> row !! j = Some x ->
         0 <= x.
Proof.
  intros Hinit Hn Hv Hshape HA Hr Ht Hpos.
  destruct (target_histogram_binned cfg self prob_next rewards terminals
              Hinit Hn Hv Hshape HA Hr Ht)
    as (q & an & sel & tiled & raw & th & Hq & Han & Hsel & Htile & Hraw & Hth
        & Ssel & Sraw & Hpick & Hth3 & Hrows).
  exists th. split; [exact Hth|].
  assert (Hz := target_histogram_zero_elsewhere self prob_next rewards terminals
                  q an th Hq Han Hth).
  intros b a j plane row x Hplane Hrow Hx.
  assert (Hb : (b < Cfg.batch_size cfg)%nat).
  { destruct Hth3 as [<- _]. eapply lookup_lt_Some. exact Hplane. }
  destruct (Hrows b) as (a' & p & l_b & plane' & row' & H1 & H2 & H3 & H4 & H5 & H6 & H7).
  { apply elem_of_seq. lia. }
  destruct (decide (a = a')) as [->|Hne].
  - assert (plane' = plane) by congruence. subst plane'.
    assert (row' = row) by congruence. subst row'.
    rewrite (H7 j x Hx). apply binned_nonneg.
    destruct (Hpick b a' H1) as (pl & p' & Hpl & Hp' & Hs).
    assert (p' = p) by congruence. subst p'.
    rewrite Forall_lookup in Hpos. specialize (Hpos _ _ Hpl).
    rewrite Forall_lookup in Hpos. exact (Hpos _ _ Hp').
  - assert (E : x = 0).
    { apply (Hz b a plane row j x Hplane Hrow); [congruence | exact Hx]. }
    rewrite E. apply Qle_refl.
Qed.

Lemma target_histogram_nonnegative_demo :
  exists th,
    target_histogram demo_agent prob_demo [- (1 # 2)] [false] = Ok th
    /\ forall (b a j : nat) (plane : list (list Q)) (row : list Q) (x : Q),
         th !! b = Some plane -> plane !! a = Some row -> row !! j = Some x ->
         0 <= x.
Proof.
  apply (target_histogram_nonnegative cfg_demo demo_agent prob_demo
           [- (1 # 2)] [false]).
  - reflexivity.
  - simpl. lia.
  - reflexivity.
  - split; [reflexivity|]. repeat constructor.
  - simpl. lia.
  - reflexivity.
  - reflexivity.
  - repeat constructor; apply Qle_bool_imp_le; reflexivity.
Defined.

Lemma scatter_body_shape (bs A N : nat) (an : list nat) (l : list (list Z))
  (dl du : list (list Q)) (th th' : tensor3) (i : nat) :
  shape3 th bs A N -> scatter_body an l dl du th i = Ok th' ->
  shape3 th' bs A N.
Proof.
  intros [Hlen Hplanes] H. unfold scatter_body in H.
  apply bind_Ok in H as (a_i & _ & H).
  apply bind_Ok in H as (plane_i & Hplane & H). apply from_option_Ok in Hplane.
  apply bind_Ok in H as (row_i & Hrow & H). apply from_option_Ok in Hrow.
  apply bind_Ok in H as (l_i & _ & H).
  apply bind_Ok in H as (dl_i & _ & H).
  apply bind_Ok in H as (r1 & Hr1 & H).
  apply bind_Ok in H as (du_i & _ & H).
  apply bind_Ok in H as (r2 & Hr2 & H).
  injection H as <-.
  apply add_at_length in Hr1, Hr2. rewrite length_map in Hr1.
  assert (Hplanes' := Hplanes). rewrite Forall_lookup in Hplanes'.
  unfold tensor3 in *.
  destruct (Hplanes' _ _ Hplane) as [HA Hrows].
  split; [rewrite length_insert; exact Hlen|].
  apply Forall_insert; [exact Hplanes|].
  split; [rewrite length_insert; exact HA|].
  apply Forall_insert; [exact Hrows|].
  rewrite Forall_lookup in Hrows. rewrite Hr2, Hr1. exact (Hrows _ _ Hrow).
Qed.

(** X5.  Whatever the network predicted, a target histogram that lines
    69-108 return has the shape (batch_size, action_dim, n_atoms) which
    the comment of lines 96-102 asks for. *)
Theorem target_histogram_shape {state network env : Type}
  (self : Agent state network env)
  (prob_next : tensor3) (rewards : list Q) (terminals : list bool)
  (th : tensor3) :
  target_histogram self prob_next rewards terminals = Ok th ->
  shape3 th (batch_size self) (Cfg.action_dim (config self))
         (Z.to_nat (n_atoms self)).
Proof.
  intros H. unfold target_histogram in H.
  apply bind_Ok in H as (q & _ & H).
  apply bind_Ok in H as (an & _ & H).
  apply bind_Ok in H as (sel & _ & H).
  apply bind_Ok in H as (tiled & _ & H).
  apply bind_Ok in H as (raw & _ & H).
  cbv zeta in H.
  eapply (for_each_preserves _
            (fun t => shape3 t (batch_size self) (Cfg.action_dim (config self))
                             (Z.to_nat (n_atoms self)))); [| |exact H].
  - apply shape3_zeros3.
  - intros st i st' Hst Hstep. eapply scatter_body_shape; eassumption.
Qed.

Lemma target_histogram_shape_demo :
  exists th,
    target_histogram demo_agent prob_demo [- (1 # 2)] [false] = Ok th
    /\ shape3 th 1 2 3.
Proof.
  eexists. split; [vm_compute; reflexivity|].
  refine (target_histogram_shape demo_agent prob_demo [- (1 # 2)] [false] _ _).
  vm_compute. reflexivity.
Defined.

(** ** Q-values *)

Lemma mapM_lookup_forward {A B} (f : A -> result B) xs ys i x :
  mapM f xs = Ok ys -> xs !! i = Some x ->
  exists y, ys !! i = Some y /\ f x = Ok y.
Proof.
  intros H Hx.
  destruct (lookup_lt_is_Some_2 ys i) as [y Hy].
  { rewrite (mapM_Ok_length _ _ _ H). eapply lookup_lt_Some. exact Hx. }
  destruct (mapM_Ok_lookup _ _ _ _ _ H Hy) as (x' & Hx' & E).
  exists y. split; [exact Hy|]. congruence.
Qed.

(** An expectation lies between the least and the greatest value. *)
Lemma dot_bounds (p z : list Q) (lo hi : Q) :
  Forall (fun v => 0 <= v) p -> Forall (fun x => lo <= x <= hi) z ->
  length p = length z ->
  lo * Qsum p <= Qsum (zip_with Qmult p z) <= hi * Qsum p.
Proof.
  revert z; induction p as [|v p IH]; intros z Hp Hz Hl.
  - destruct z; [|discriminate]. unfold Qsum. simpl. lra.
  - destruct z as [|x z]; [discriminate|].
    inversion Hp as [|? ? Hv Hp']; subst. inversion Hz as [|? ? Hx Hz']; subst.
    assert (IH' := IH z Hp' Hz' ltac:(simpl in Hl; lia)).
    change (Qsum (v :: p)) with (v + Qsum p).
    change (Qsum (zip_with Qmult (v :: p) (x :: z)))
      with (v * x + Qsum (zip_with Qmult p z)).
    nra.
Qed.

Lemma atoms_in_range {state network env : Type}
  (cfg : Cfg.t) (self : Agent state network env) :
  __init__ cfg = Ok self ->
  (2 <= Cfg.Categorical_n_atoms cfg)%Z ->
  Cfg.Categorical_Vmin cfg < Cfg.Categorical_Vmax cfg ->
  Forall (fun z => Cfg.Categorical_Vmin cfg <= z <= Cfg.Categorical_Vmax cfg)
         (atoms self).
Proof.
  intros Hinit Hn Hv. rewrite Forall_lookup. intros j z Hz.
  destruct (atom_closed_form cfg self j z Hinit Hn Hv Hz) as [Hj Ez].
  destruct (init_Ok _ _ Hinit) as (_ & _ & _ & _ & _ & _ & _ & Hdz).
  set (lo := Cfg.Categorical_Vmin cfg) in *.
  set (hi := Cfg.Categorical_Vmax cfg) in *.
  assert (Hdpos : 0 < delta_z self).
  { rewrite Hdz. apply delta_z_pos; assumption. }
  assert (Hdn : ~ inject_Z (Cfg.Categorical_n_atoms cfg - 1) == 0).
  { change 0 with (inject_Z 0). rewrite inject_Z_injective. lia. }
  assert (Hfull : inject_Z (Cfg.Categorical_n_atoms cfg - 1) * delta_z self
                  == hi - lo).
  { rewrite Hdz. field. exact Hdn. }
  assert (Hjq : 0 <= Zq j <= inject_Z (Cfg.Categorical_n_atoms cfg - 1)).
  { unfold Zq. split.
    - change 0 with (inject_Z 0). rewrite <- Zle_Qle. lia.
    - rewrite <- Zle_Qle. exact Hj. }
  rewrite Ez. split; [nra|].
  assert (Zq j * delta_z self
          <= inject_Z (Cfg.Categorical_n_atoms cfg - 1) * delta_z self)
    by (apply Qmult_le_compat_r; [apply Hjq | lra]).
  lra.
Qed.

(** X6.  The Q-value that line 69 (and lines 135 and 175) computes for a
    probability vector - no negative entry, sum 1 - lies in
    [Vmin, Vmax]. *)
Theorem q_values_within_support {state network env : Type}
  (cfg : Cfg.t) (self : Agent state network env)
  (prob : tensor3) (q : list (list Q))
  (i a : nat) (plane : list (list Q)) (p : list Q) :
  __init__ cfg = Ok self ->
  (2 <= Cfg.Categorical_n_atoms cfg)%Z ->
  Cfg.Categorical_Vmin cfg < Cfg.Categorical_Vmax cfg ->
  q_values self prob = Ok q ->
  prob !! i = Some plane -> plane !! a = Some p ->
  Forall (fun v => 0 <= v) p -> Qsum p == 1 ->
  exists v, get2 q i a = Some v
            /\ Cfg.Categorical_Vmin cfg <= v <= Cfg.Categorical_Vmax cfg.
Proof.
  intros Hinit Hn Hv Hq Hplane Hp Hpos Hsum.
  unfold q_values in Hq.
  destruct (mapM_lookup_forward _ _ _ _ _ Hq Hplane) as (row & Hrow & Hr).
  destruct (mapM_lookup_forward _ _ _ _ _ Hr Hp) as (v & Hv' & Hdot).
  exists v. split; [unfold get2; rewrite Hrow; exact Hv'|].
  unfold np_dot in Hdot.
  destruct (Nat.eqb_spec (length p) (length (atoms self))) as [Hl|]; [|discriminate].
  injection Hdot as <-.
  assert (H := dot_bounds p (atoms self) _ _ Hpos
                 (atoms_in_range cfg self Hinit Hn Hv) Hl).
  rewrite Hsum in H. lra.
Qed.

Lemma q_values_within_support_demo :
  exists v, get2 [[0 # 4; 8 # 4]] 0 1 = Some v
            /\ Cfg.Categorical_Vmin cfg_demo <= v <= Cfg.Categorical_Vmax cfg_demo.
Proof.
  apply (q_values_within_support cfg_demo demo_agent prob_demo _ 0 1
           [[1; 0; 0]; [0; 0; 1]] [0; 0; 1]).
  - reflexivity.
  - simpl. lia.
  - reflexivity.
  - vm_compute. reflexivity.
  - reflexivity.
  - reflexivity.
  - repeat constructor; apply Qle_bool_imp_le; reflexivity.
  - reflexivity.
Defined.

(** ** The support on any range *)

Lemma linspace_lookup_any (start stop : Q) (num : Z) (z : list Q) (i : nat) :
  (2 <= num)%Z ->
  linspace start stop num = Ok z ->
  (i < Z.to_nat num)%nat ->
  exists x, z !! i = Some x /\
            x == start + Zq i * ((stop - start) / inject_Z (num - 1)).
Proof.
  intros Hn Hz Hi. unfold linspace in Hz.
  destruct (Z.ltb_spec num 0); [lia|].
  destruct (Z.ltb_spec 0 (num - 1)); [|lia].
  destruct (Z.ltb_spec 1 num); [|lia].
  injection Hz as <-.
  assert (Hd : ~ inject_Z (num - 1) == 0).
  { change 0 with (inject_Z 0). rewrite inject_Z_injective. lia. }
  unfold set_last. rewrite length_map.
  assert (Hlen : length
            (if Qeq_bool ((stop - start) / inject_Z (num - 1)) 0
             then map (fun t => t / inject_Z (num - 1) * (stop - start))
                      (arange (Z.to_nat num))
             else map (fun t => t * ((stop - start) / inject_Z (num - 1)))
                      (arange (Z.to_nat num))) = Z.to_nat num).
  { destruct (Qeq_bool _ _); rewrite length_map; apply length_arange. }
  rewrite Hlen.
  destruct (decide (i = pred (Z.to_nat num))) as [->|Hlast].
  - exists stop. split.
    + apply list_lookup_insert_eq. rewrite length_map, Hlen. lia.
    + rewrite Zq_pred by lia. field. exact Hd.
  - rewrite list_lookup_insert_ne by congruence.
    rewrite list_lookup_fmap.
    destruct (Qeq_bool ((stop - start) / inject_Z (num - 1)) 0);
      rewrite list_lookup_fmap, lookup_arange by assumption;
      eexists; (split; [reflexivity|]); simpl; field; exact Hd.
Qed.

(** X7.  [__init__] on any range with at least two atoms: atom j is
    Vmin + j * delta_z also when Vmax <= Vmin, so the support is strictly
    decreasing when Vmax < Vmin and constant when Vmax = Vmin. *)
Theorem support_on_any_range {state network env : Type} (cfg : Cfg.t) :
  (2 <= Cfg.Categorical_n_atoms cfg)%Z ->
  exists self : Agent state network env,
    __init__ cfg = Ok self
    /\ Z.of_nat (length (atoms self)) = Cfg.Categorical_n_atoms cfg
    /\ (forall j z, atoms self !! j = Some z ->
                    z == Cfg.Categorical_Vmin cfg + Zq j * delta_z self)
    /\ (Cfg.Categorical_Vmax cfg < Cfg.Categorical_Vmin cfg ->
        delta_z self < 0
        /\ forall i j x y, (i < j)%nat ->
             atoms self !! i = Some x -> atoms self !! j = Some y -> y < x)
    /\ (Cfg.Categorical_Vmax cfg == Cfg.Categorical_Vmin cfg ->
        delta_z self == 0
        /\ forall j z, atoms self !! j = Some z ->
                       z == Cfg.Categorical_Vmin cfg).
Proof.
  intros Hn.
  destruct (init_valid (state:=state) (network:=network) (env:=env) cfg Hn)
    as [self Hself].
  exists self. split; [exact Hself|].
  destruct (init_Ok _ _ Hself) as (Hz & _ & _ & _ & _ & _ & _ & Hd).
  set (lo := Cfg.Categorical_Vmin cfg) in *.
  set (hi := Cfg.Categorical_Vmax cfg) in *.
  set (n := Cfg.Categorical_n_atoms cfg) in *.
  assert (Hlen := linspace_length _ _ _ _ Hz).
  assert (Hdn : 0 < inject_Z (n - 1)).
  { change 0 with (inject_Z 0). rewrite <- Zlt_Qlt. lia. }
  assert (Hfull : inject_Z (n - 1) * delta_z self == hi - lo).
  { rewrite Hd. field. lra. }
  assert (closed : forall j z, atoms self !! j = Some z ->
            z == lo + Zq j * delta_z self).
  { intros j z Hj.
    assert (Hlt : (j < Z.to_nat n)%nat).
    { rewrite <- Hlen. eapply lookup_lt_Some; eassumption. }
    destruct (linspace_lookup_any lo hi n _ j Hn Hz Hlt) as (x & Hx & E).
    rewrite Hd. congruence. }
  split; [rewrite Hlen; lia|]. split; [exact closed|]. split.
  - intros Hlt.
    assert (Hneg : delta_z self < 0) by nra.
    split; [exact Hneg|].
    intros i j x y Hij Hx Hy. rewrite (closed _ _ Hx), (closed _ _ Hy).
    apply Zq_lt in Hij. nra.
  - intros Heq.
    assert (Hzero : delta_z self == 0) by nra.
    split; [exact Hzero|].
    intros j z Hj. rewrite (closed _ _ Hj), Hzero. ring.
Qed.

Lemma support_on_any_range_demo :
  exists self : Agent unit unit unit,
    __init__ cfg_flat = Ok self
    /\ Z.of_nat (length (atoms self)) = 2%Z
    /\ (forall j z, atoms self !! j = Some z -> z == 5 + Zq j * delta_z self)
    /\ (5 < 5 ->
        delta_z self < 0
        /\ forall i j x y, (i < j)%nat ->
             atoms self !! i = Some x -> atoms self !! j = Some y -> y < x)
    /\ (5 == 5 ->
        delta_z self == 0
        /\ forall j z, atoms self !! j = Some z -> z == 5).
Proof.
  apply (support_on_any_range (state:=unit) (network:=unit) (env:=unit) cfg_flat).
  simpl. lia.
Defined.

(** ** A batch of the wrong size *)

(** X8.  When the sampled rewards, or the sampled terminal flags, do not
    number batch_size, the reshape of line 77, resp. line 81, raises
    ValueError: on a prediction of the right shape lines 69-108 end
    there. *)
Theorem wrong_batch_raises_ValueError {state network env : Type}
  (cfg : Cfg.t) (self : Agent state network env)
  (prob_next : tensor3) (rewards : list Q) (terminals : list bool) :
  __init__ cfg = Ok self ->
  shape3 prob_next (Cfg.batch_size cfg) (Cfg.action_dim cfg)
         (Z.to_nat (Cfg.Categorical_n_atoms cfg)) ->
  (0 < Cfg.action_dim cfg)%nat ->
  length rewards <> Cfg.batch_size cfg
  \/ length terminals <> Cfg.batch_size cfg ->
  target_histogram self prob_next rewards terminals = Raise ValueError.
Proof.
  intros Hinit Hshape HA Hbad.
  destruct (init_Ok _ _ Hinit) as (_ & _ & Hc & Hna & _ & _ & Hbs & _).
  rewrite <- Hbs in *. rewrite <- Hna in *. rewrite <- Hc in Hshape, HA.
  destruct (q_values_shaped cfg self Hinit prob_next Hshape) as (q & Hq & Sq).
  destruct (action_next_shaped self HA q Sq) as (an & Han & Lan & Fan).
  destruct (select_prob_shaped self prob_next Hshape an Lan Fan)
    as (sel & Hsel & _).
  unfold target_histogram.
  rewrite Hq. cbn [bind]. rewrite Han. cbn [bind]. rewrite Hsel. cbn [bind].
  unfold tile_rewards.
  destruct (Nat.eqb_spec (length rewards) (batch_size self)) as [Hr|Hr];
    [|reflexivity].
  cbn [bind]. unfold atoms_next_raw. rewrite length_map.
  destruct (Nat.eqb_spec (length terminals) (batch_size self)) as [Ht|Ht];
    [|reflexivity].
  destruct Hbad; contradiction.
Qed.

Lemma wrong_batch_raises_ValueError_demo :
  target_histogram demo_agent prob_demo [] [false] = Raise ValueError.
Proof.
  apply (wrong_batch_raises_ValueError cfg_demo demo_agent prob_demo [] [false]).
  - reflexivity.
  - split; [reflexivity|]. repeat constructor.
  - simpl. lia.
  - left. simpl. discriminate.
Defined.

(** * Further properties of the agent loop *)

(** ** What a step keeps and what it does to the replay buffer *)

Lemma same_settings_refl {state network env : Type}
  (a : Agent state network env) : same_settings a a.
Proof. unfold same_settings. repeat split. Qed.

Lemma same_settings_trans {state network env : Type}
  (a b c : Agent state network env) :
  same_settings a b -> same_settings b c -> same_settings a c.
Proof.
  unfold same_settings.
  intros (A1 & A2 & A3 & A4 & A5 & A6 & A7 & A8 & A9 & A10 & A11)
         (B1 & B2 & B3 & B4 & B5 & B6 & B7 & B8 & B9 & B10 & B11).
  repeat split; congruence.
Qed.

Section StepFrame.

Context {state network env rng : Type}.
Variable predict : network -> list state -> tensor3.
Variable fit : network -> list state -> tensor3 -> network * Q.
Variable env_reset : env -> env * state.
Variable env_step : env -> nat -> env * (state * Q * bool).
Variable epsilon_greedy : rng -> list Q -> nat -> nat -> rng * nat.
Variable uniform_random_replay :
  rng -> list (Transition state) -> nat -> rng * Batch state.

Lemma train_by_replay_keeps (self self' : Agent state network env)
  (g g' : rng) (loss : Q) :
  train_by_replay predict fit uniform_random_replay self g
  = Ok (self', g', loss) ->
  same_settings self self'
  /\ replay_buffer self' = replay_buffer self
  /\ envs self' = envs self.
Proof.
  unfold train_by_replay.
  destruct (uniform_random_replay g (replay_buffer self) (batch_size self))
    as [g1 sample].
  intros H.
  apply bind_Ok in H as (target & _ & H).
  apply bind_Ok in H as (th & _ & H).
  apply bind_Ok in H as (actor & _ & H).
  destruct (fit actor (current_states sample) th) as [actor' loss'].
  injection H as <- _ _. unfold same_settings. cbn. repeat split.
Qed.

Lemma step_body_buffer (each_ep : nat) (r r' : Run state network env rng)
  (s s' : state) (done : bool) :
  step_body predict fit env_step epsilon_greedy uniform_random_replay
            each_ep r s = Ok (r', s', done) ->
  same_settings (agent r) (agent r')
  /\ exists action reward,
       let record := {| t_current_state := s; t_action := action;
                        t_next_state := s'; t_reward := reward;
                        t_done := done |} in
       if (S (length (replay_buffer (agent r)))
           =? replay_buffer_size (agent r))%nat
       then replay_buffer (agent r') = []
       else replay_buffer (agent r') = replay_buffer (agent r) ++ [record]
            /\ actor_network (agent r') = actor_network (agent r).
Proof.
  unfold step_body. intros H.
  apply bind_Ok in H as (actor & _ & H).
  apply bind_Ok in H as (action_value & _ & H).
  apply bind_Ok in H as (av0 & _ & H).
  cbn [config set_total_steps] in H.
  destruct (epsilon_greedy (gen r) av0 each_ep
              (Cfg.stop_explore (config (agent r)))) as [g action].
  apply bind_Ok in H as (e & _ & H).
  destruct (env_step e action) as [e' [[next_state reward] done']].
  apply bind_Ok in H as ([self1 g1] & Htrain & H).
  apply bind_Ok in H as ([self2 log] & Hsync & H).
  injection H as <- <- <-. cbn [agent].
  cbn [replay_buffer set_replay_buffer replay_buffer_size set_envs
       set_total_steps] in Htrain.
  rewrite length_app in Htrain. cbn [length] in Htrain.
  rewrite Nat.add_1_r in Htrain.
  assert (F2 : same_settings self1 self2
               /\ replay_buffer self2 = replay_buffer self1
               /\ actor_network self2 = actor_network self1).
  { match type of Hsync with (if ?c then _ else _) = _ => destruct c end.
    - apply bind_Ok in Hsync as (target & _ & Hsync).
      apply bind_Ok in Hsync as (actor' & _ & Hsync).
      injection Hsync as <- _. unfold same_settings. cbn. repeat split.
    - injection Hsync as <- _. split; [apply same_settings_refl | auto]. }
  destruct F2 as (S2 & B2 & A2).
  destruct (S (length (replay_buffer (agent r)))
            =? replay_buffer_size (agent r))%nat.
  - apply bind_Ok in Htrain as ([[self0 g0] loss] & Ht & Htrain).
    injection Htrain as <- _.
    apply train_by_replay_keeps in Ht as (S0 & _ & _).
    match type of S0 with
    | same_settings ?X _ =>
        assert (Spre : same_settings (agent r) X)
          by (unfold same_settings; cbn; repeat split)
    end.
    assert (S1 : same_settings self0 (set_replay_buffer self0 []))
      by (unfold same_settings; cbn; repeat split).
    split.
    + eapply same_settings_trans; [|exact S2].
      eapply same_settings_trans; [|exact S1].
      eapply same_settings_trans; [exact Spre | exact S0].
    + exists action, reward. cbn zeta. rewrite B2. reflexivity.
  - injection Htrain as <- _.
    split.
    + eapply same_settings_trans; [|exact S2].
      unfold same_settings. cbn. repeat split.
    + exists action, reward. cbn zeta. rewrite B2, A2. cbn. auto.
Qed.

End StepFrame.

(** ** Relations that hold step by step hold of a whole run *)

Section LoopRelation.

Context {state network env rng : Type}.
Variable predict : network -> list state -> tensor3.
Variable fit : network -> list state -> tensor3 -> network * Q.
Variable env_reset : env -> env * state.
Variable env_step : env -> nat -> env * (state * Q * bool).
Variable epsilon_greedy : rng -> list Q -> nat -> nat -> rng * nat.
Variable uniform_random_replay :
  rng -> list (Transition state) -> nat -> rng * Batch state.

Variable R : Run state network env rng -> Run state network env rng -> nat -> Prop.

Hypothesis R_refl : forall r, R r r 0.
Hypothesis R_reset : forall r e,
  R r {| agent := set_envs (agent r) (Some e); gen := gen r;
         set_weights_log := set_weights_log r |} 0.
Hypothesis R_trans : forall r1 r2 r3 k1 k2,
  R r1 r2 k1 -> R r2 r3 k2 -> R r1 r3 (k1 + k2).
Hypothesis R_step : forall each_ep r s r' s' done,
  step_body predict fit env_step epsilon_greedy uniform_random_replay
            each_ep r s = Ok (r', s', done) ->
  R r r' 1.

Lemma step_loop_related (n each_ep : nat) (r r' : Run state network env rng)
  (s : state) :
  step_loop predict fit env_step epsilon_greedy uniform_random_replay
            n each_ep r s = Ok r' ->
  exists k, R r r' k.
Proof.
  revert r s; induction n as [|n IH]; intros r s H; simpl in H.
  - injection H as <-. exists 0%nat. apply R_refl.
  - apply bind_Ok in H as ([[r1 s1] done] & Hstep & H).
    apply R_step in Hstep.
    destruct done.
    + injection H as <-. exists 1%nat. exact Hstep.
    + destruct (IH _ _ H) as (k & Hk).
      exists (1 + k)%nat. eapply R_trans; eassumption.
Qed.

Lemma episode_related (each_ep : nat) (r r' : Run state network env rng) :
  episode predict fit env_reset env_step epsilon_greedy uniform_random_replay
          r each_ep = Ok r' ->
  exists k, R r r' k.
Proof.
  unfold episode. intros H.
  apply bind_Ok in H as (e & _ & H).
  destruct (env_reset e) as [e' s].
  apply step_loop_related in H as (k & Hk).
  exists (0 + k)%nat. eapply R_trans; [apply R_reset | exact Hk].
Qed.

Lemma transition_related (r r' : Run state network env rng) :
  transition predict fit env_reset env_step epsilon_greedy
             uniform_random_replay r = Ok r' ->
  exists k, R r r' k.
Proof.
  unfold transition. generalize (seq 0 (episodes (agent r))). intros eps.
  revert r; induction eps as [|ep eps IH]; intros r H; simpl in H.
  - injection H as <-. exists 0%nat. apply R_refl.
  - apply bind_Ok in H as (r1 & Hep & H).
    apply episode_related in Hep as (k1 & Hk1).
    destruct (IH _ H) as (k2 & Hk2).
    exists (k1 + k2)%nat. eapply R_trans; eassumption.
Qed.

End LoopRelation.

Section RunRelations.

Context {state network env rng : Type}.

Lemma buffer_after_refl (r : Run state network env rng) : buffer_after r r 0.
Proof.
  unfold buffer_after. split; [apply same_settings_refl|].
  split; [simpl; lia|]. split.
  - intros H. rewrite Nat.add_0_r, Nat.mod_small by exact H. reflexivity.
  - intros _. split; [lia | reflexivity].
Qed.

Lemma buffer_after_reset (r : Run state network env rng) (e : env) :
  buffer_after r {| agent := set_envs (agent r) (Some e); gen := gen r;
                    set_weights_log := set_weights_log r |} 0.
Proof.
  unfold buffer_after. cbn [agent].
  split; [unfold same_settings; cbn; repeat split|].
  split; [cbn; lia|]. split.
  - intros H. cbn. rewrite Nat.add_0_r, Nat.mod_small by exact H. reflexivity.
  - intros _. cbn. split; [lia | reflexivity].
Qed.

Lemma buffer_after_trans (r1 r2 r3 : Run state network env rng) (k1 k2 : nat) :
  buffer_after r1 r2 k1 -> buffer_after r2 r3 k2 ->
  buffer_after r1 r3 (k1 + k2).
Proof.
  intros (S1 & T1 & L1 & G1) (S2 & T2 & L2 & G2).
  assert (Hsize : replay_buffer_size (agent r2) = replay_buffer_size (agent r1))
    by apply S1.
  unfold buffer_after.
  split; [eapply same_settings_trans; eassumption|].
  split; [lia|]. split.
  - intros H. specialize (L1 H).
    assert (H2 : (length (replay_buffer (agent r2))
                  < replay_buffer_size (agent r2))%nat).
    { rewrite L1, Hsize. apply Nat.mod_upper_bound. lia. }
    rewrite (L2 H2), L1, Hsize.
    rewrite Nat.Div0.add_mod_idemp_l. f_equal. lia.
  - intros H. destruct (G1 H) as [E1 A1].
    assert (H2 : (replay_buffer_size (agent r2)
                  <= length (replay_buffer (agent r2)))%nat) by lia.
    destruct (G2 H2) as [E2 A2]. split; [lia | congruence].
Qed.

Lemma target_follows_refl (r : Run state network env rng) : target_follows r r.
Proof. unfold target_follows. repeat split; try reflexivity; lia. Qed.

Lemma target_follows_reset (r : Run state network env rng) (e : env) :
  target_follows r {| agent := set_envs (agent r) (Some e); gen := gen r;
                      set_weights_log := set_weights_log r |}.
Proof. unfold target_follows. cbn. repeat split; try reflexivity; lia. Qed.

Lemma target_follows_trans (r1 r2 r3 : Run state network env rng) :
  target_follows r1 r2 -> target_follows r2 r3 -> target_follows r1 r3.
Proof.
  intros (C1 & S1 & M1 & Z1 & W1 & P1) (C2 & S2 & M2 & Z2 & W2 & P2).
  rewrite C1 in W2, P2.
  unfold target_follows.
  split; [congruence|]. split; [congruence|]. split; [lia|].
  split; [|split].
  - intros E.
    destruct Z1 as [T1 A1]; [lia|]. destruct Z2 as [T2 A2]; [lia|].
    split; congruence.
  - intros H. rewrite W2 by exact H. apply W1. lia.
  - intros Hlt Hpast.
    destruct (Z.eq_dec (total_steps (agent r3)) (total_steps (agent r2))) as [E|E].
    + destruct (Z2 E) as [T2 A2]. rewrite T2, A2.
      apply P1; lia.
    + apply P2; [lia | exact Hpast].
Qed.

End RunRelations.

Section RunProperties.

Context {state network env rng : Type}.
Variable predict : network -> list state -> tensor3.
Variable fit : network -> list state -> tensor3 -> network * Q.
Variable env_reset : env -> env * state.
Variable env_step : env -> nat -> env * (state * Q * bool).
Variable epsilon_greedy : rng -> list Q -> nat -> nat -> rng * nat.
Variable uniform_random_replay :
  rng -> list (Transition state) -> nat -> rng * Batch state.

Lemma step_buffer_after (each_ep : nat) (r r' : Run state network env rng)
  (s s' : state) (done : bool) :
  step_body predict fit env_step epsilon_greedy uniform_random_replay
            each_ep r s = Ok (r', s', done) ->
  buffer_after r r' 1.
Proof.
  intros H.
  destruct (step_body_logged _ _ _ _ _ _ _ _ _ _ _ H) as [(_ & _ & Ht & _) _].
  destruct (step_body_buffer _ _ _ _ _ _ _ _ _ _ _ H)
    as (Hs & action & reward & Hbuf).
  cbv zeta in Hbuf.
  unfold buffer_after. split; [exact Hs|]. split; [exact Ht|].
  destruct (Nat.eqb_spec (S (length (replay_buffer (agent r))))
                         (replay_buffer_size (agent r))) as [E|E].
  - rewrite Hbuf. split.
    + intros _. rewrite Nat.add_1_r, E, Nat.Div0.mod_same. reflexivity.
    + intros Hge. lia.
  - destruct Hbuf as [-> Hactor]. rewrite length_app. cbn [length]. split.
    + intros Hlt. rewrite Nat.mod_small by lia. reflexivity.
    + intros _. auto.
Qed.

Lemma step_target_follows (each_ep : nat) (r r' : Run state network env rng)
  (s s' : state) (done : bool) :
  step_body predict fit env_step epsilon_greedy uniform_random_replay
            each_ep r s = Ok (r', s', done) ->
  target_follows r r'.
Proof.
  intros H.
  destruct (step_body_logged _ _ _ _ _ _ _ _ _ _ _ H)
    as [(Hc & Hs & Ht & _) Hsync].
  change (Z.of_nat 1) with 1%Z in Ht.
  unfold target_follows.
  split; [exact Hc|]. split; [exact Hs|]. split; [lia|].
  split; [intros E; lia|].
  destruct (Z.ltb_spec (Cfg.weights_update_frequency (config (agent r)))
                       (total_steps (agent r) + 1)) as [Hp|Hp].
  - destruct Hsync as (_ & Hsome & Heq). split; [intros; lia|].
    intros _ _. auto.
  - destruct Hsync as (_ & Heq). split; [intros _; exact Heq|].
    intros _ Hpast. lia.
Qed.

Lemma transition_buffer_after (r r' : Run state network env rng) :
  transition predict fit env_reset env_step epsilon_greedy
             uniform_random_replay r = Ok r' ->
  exists k, buffer_after r r' k.
Proof.
  apply (transition_related predict fit env_reset env_step epsilon_greedy
           uniform_random_replay buffer_after).
  - apply buffer_after_refl.
  - apply buffer_after_reset.
  - apply buffer_after_trans.
  - intros each_ep r0 s r0' s' done. apply step_buffer_after.
Qed.

Lemma transition_target_follows (r r' : Run state network env rng) :
  transition predict fit env_reset env_step epsilon_greedy
             uniform_random_replay r = Ok r' ->
  target_follows r r'.
Proof.
  intros H.
  destruct (transition_related predict fit env_reset env_step epsilon_greedy
              uniform_random_replay (fun a b _ => target_follows a b)) with (r := r) (r' := r')
    as [_ Hk].
  - intros; apply target_follows_refl.
  - intros; apply target_follows_reset.
  - intros; eapply target_follows_trans; eassumption.
  - intros; eapply step_target_follows; eassumption.
  - exact H.
  - exact Hk.
Qed.

End RunProperties.

(** A property of [transition], applied to the run by hand. *)
Ltac on_demo_run thm :=
  eapply (thm unit unit unit unit
            (fun _ _ => prob_demo)
            (fun w _ _ => (w, 0))
            (fun e => (e, tt))
            (fun e _ => (e, (tt, 0, false)))
            (fun g _ _ _ => (g, 0%nat))
            (fun g _ _ =>
               (g, {| current_states := []; actions := []; next_states := [];
                      rewards := []; terminals := [] |}))
            demo_run).

(** ** The replay buffer *)

(** X9.  The replay buffer of [transition] is drained, not slid: a run
    that starts with the buffer below [replay_buffer_size] ends with it
    below [replay_buffer_size], holding (initial length + number of steps)
    modulo [replay_buffer_size] transitions. *)
Theorem replay_buffer_cycles {state network env rng : Type}
  (predict : network -> list state -> tensor3)
  (fit : network -> list state -> tensor3 -> network * Q)
  (env_reset : env -> env * state)
  (env_step : env -> nat -> env * (state * Q * bool))
  (epsilon_greedy : rng -> list Q -> nat -> nat -> rng * nat)
  (uniform_random_replay :
     rng -> list (Transition state) -> nat -> rng * Batch state)
  (r r' : Run state network env rng) :
  transition predict fit env_reset env_step epsilon_greedy
             uniform_random_replay r = Ok r' ->
  (length (replay_buffer (agent r)) < replay_buffer_size (agent r))%nat ->
  exists k : nat,
    total_steps (agent r') = (total_steps (agent r) + Z.of_nat k)%Z
    /\ length (replay_buffer (agent r')) =
       ((length (replay_buffer (agent r)) + k)
          mod replay_buffer_size (agent r))%nat
    /\ (length (replay_buffer (agent r')) < replay_buffer_size (agent r'))%nat.
Proof.
  intros H Hlt.
  destruct (transition_buffer_after _ _ _ _ _ _ _ _ H) as (k & Hs & Ht & Hl & _).
  exists k. split; [exact Ht|]. split; [exact (Hl Hlt)|].
  assert (Hsize : replay_buffer_size (agent r') = replay_buffer_size (agent r))
    by apply Hs.
  rewrite (Hl Hlt), Hsize. apply Nat.mod_upper_bound. lia.
Qed.

Lemma replay_buffer_cycles_demo :
  exists r',
    drain_transition = Ok r'
    /\ total_steps (agent r') = 4%Z
    /\ replay_buffer_size (agent r') = 3%nat
    /\ length (replay_buffer (agent r')) = 1%nat
    /\ exists k : nat,
         total_steps (agent r') = (total_steps (agent drain_run) + Z.of_nat k)%Z
         /\ length (replay_buffer (agent r')) =
            ((length (replay_buffer (agent drain_run)) + k)
               mod replay_buffer_size (agent drain_run))%nat
         /\ (length (replay_buffer (agent r'))
             < replay_buffer_size (agent r'))%nat.
Proof.
  eexists. split; [vm_compute; reflexivity|].
  split; [reflexivity|]. split; [reflexivity|]. split; [reflexivity|].
  eapply (replay_buffer_cycles
            (fun _ _ => prob_demo)
            (fun w _ _ => (w, 0))
            (fun e => (e, tt))
            (fun e _ => (e, (tt, 0, false)))
            (fun g _ _ _ => (g, 0%nat))
            one_transition_replay
            drain_run).
  - vm_compute. reflexivity.
  - simpl. lia.
Defined.

(** X10.  The test of line 148 is an equality: when
    [replay_buffer_size] is 0, or the buffer already holds at least
    [replay_buffer_size] transitions, [transition] never calls
    [train_by_replay]; the actor network stays as it was and the buffer
    grows by one transition per step. *)
Theorem never_trains_at_or_above_capacity {state network env rng : Type}
  (predict : network -> list state -> tensor3)
  (fit : network -> list state -> tensor3 -> network * Q)
  (env_reset : env -> env * state)
  (env_step : env -> nat -> env * (state * Q * bool))
  (epsilon_greedy : rng -> list Q -> nat -> nat -> rng * nat)
  (uniform_random_replay :
     rng -> list (Transition state) -> nat -> rng * Batch state)
  (r r' : Run state network env rng) :
  transition predict fit env_reset env_step epsilon_greedy
             uniform_random_replay r = Ok r' ->
  (replay_buffer_size (agent r) <= length (replay_buffer (agent r)))%nat ->
  actor_network (agent r') = actor_network (agent r)
  /\ exists k : nat,
       total_steps (agent r') = (total_steps (agent r) + Z.of_nat k)%Z
       /\ length (replay_buffer (agent r')) =
          (length (replay_buffer (agent r)) + k)%nat.
Proof.
  intros H Hge.
  destruct (transition_buffer_after _ _ _ _ _ _ _ _ H) as (k & _ & Ht & _ & Hg).
  destruct (Hg Hge) as [Hl Ha]. split; [exact Ha|]. eauto.
Qed.

(** X11.  [transition] changes the step count, the networks, the
    environment and the replay buffer only: the configuration, the
    support (atoms, vmin, vmax, delta_z, n_atoms) and the sizes of the
    agent are the same after the run. *)
Theorem transition_keeps_settings {state network env rng : Type}
  (predict : network -> list state -> tensor3)
  (fit : network -> list state -> tensor3 -> network * Q)
  (env_reset : env -> env * state)
  (env_step : env -> nat -> env * (state * Q * bool))
  (epsilon_greedy : rng -> list Q -> nat -> nat -> rng * nat)
  (uniform_random_replay :
     rng -> list (Transition state) -> nat -> rng * Batch state)
  (r r' : Run state network env rng) :
  transition predict fit env_reset env_step epsilon_greedy
             uniform_random_replay r = Ok r' ->
  same_settings (agent r) (agent r').
Proof.
  intros H.
  destruct (transition_buffer_after _ _ _ _ _ _ _ _ H) as (k & Hs & _).
  exact Hs.
Qed.

Lemma transition_keeps_settings_demo :
  exists r', demo_transition = Ok r'
             /\ same_settings (agent demo_run) (agent r').
Proof.
  eexists. split; [vm_compute; reflexivity|].
  on_demo_run @transition_keeps_settings.
  vm_compute. reflexivity.
Defined.

(** ** The target network *)

(** X12.  Over a run of [transition]: while the step count has not
    passed [weights_update_frequency] the target network is the one the
    run started with; once a step has been taken past it, the target
    network at the end of the run is the actor network at the end of the
    run. *)
Theorem target_network_after_run {state network env rng : Type}
  (predict : network -> list state -> tensor3)
  (fit : network -> list state -> tensor3 -> network * Q)
  (env_reset : env -> env * state)
  (env_step : env -> nat -> env * (state * Q * bool))
  (epsilon_greedy : rng -> list Q -> nat -> nat -> rng * nat)
  (uniform_random_replay :
     rng -> list (Transition state) -> nat -> rng * Batch state)
  (r r' : Run state network env rng) :
  transition predict fit env_reset env_step epsilon_greedy
             uniform_random_replay r = Ok r' ->
  ((total_steps (agent r')
    <= Cfg.weights_update_frequency (config (agent r)))%Z ->
   target_network (agent r') = target_network (agent r))
  /\ ((total_steps (agent r) < total_steps (agent r'))%Z ->
      (Cfg.weights_update_frequency (config (agent r))
       < total_steps (agent r'))%Z ->
      is_Some (actor_network (agent r'))
      /\ target_network (agent r') = actor_network (agent r')).
Proof.
  intros H.
  destruct (transition_target_follows _ _ _ _ _ _ _ _ H)
    as (_ & _ & _ & _ & Hw & Hp).
  split; assumption.
Qed.

Lemma target_network_after_run_demo :
  exists r',
    demo_transition = Ok r'
    /\ ((total_steps (agent r')
         <= Cfg.weights_update_frequency (config (agent demo_run)))%Z ->
        target_network (agent r') = target_network (agent demo_run))
    /\ ((total_steps (agent demo_run) < total_steps (agent r'))%Z ->
        (Cfg.weights_update_frequency (config (agent demo_run))
         < total_steps (agent r'))%Z ->
        is_Some (actor_network (agent r'))
        /\ target_network (agent r') = actor_network (agent r')).
Proof.
  eexists. split; [vm_compute; reflexivity|].
  on_demo_run @target_network_after_run.
  vm_compute. reflexivity.
Defined.

Lemma never_trains_at_or_above_capacity_demo :
  exists r',
    transition
      (fun _ _ => prob_demo)
      (fun w _ _ => (w, 0))
      (fun e => (e, tt))
      (fun e _ => (e, (tt, 0, false)))
      (fun g _ _ _ => (g, 0%nat))
      (fun g _ _ =>
         (g, {| current_states := []; actions := []; next_states := [];
                rewards := []; terminals := [] |}))
      demo_run_full = Ok r'
    /\ actor_network (agent r') = actor_network (agent demo_run_full)
    /\ exists k : nat,
         total_steps (agent r')
         = (total_steps (agent demo_run_full) + Z.of_nat k)%Z
         /\ length (replay_buffer (agent r')) =
            (length (replay_buffer (agent demo_run_full)) + k)%nat.
Proof.
  eexists. split; [vm_compute; reflexivity|].
  eapply (never_trains_at_or_above_capacity
            (fun _ _ => prob_demo)
            (fun w _ _ => (w, 0))
            (fun e => (e, tt))
            (fun e _ => (e, (tt, 0, false)))
            (fun g _ _ _ => (g, 0%nat))
            (fun g _ _ =>
               (g, {| current_states := []; actions := []; next_states := [];
                      rewards := []; terminals := [] |}))
            demo_run_full).
  - vm_compute. reflexivity.
  - vm_compute. lia.
Defined.

(** ** An agent whose collaborators are not set *)

Lemma init_unwired {state network env : Type} (cfg : Cfg.t)
  (self : Agent state network env) :
  __init__ cfg = Ok self ->
  envs self = None /\ actor_network self = None /\ target_network self = None
  /\ episodes self = Cfg.episodes cfg /\ total_steps self = 0%Z
  /\ replay_buffer self = [].
Proof.
  unfold __init__. intros H.
  apply bind_Ok in H as (z & _ & H).
  destruct (Cfg.Categorical_n_atoms cfg - 1 =? 0)%Z; [discriminate|].
  injection H as <-. cbn. repeat split.
Qed.

(** X13.  [__init__] leaves [envs], [actor_network] and [target_network]
    at None.  Until they are assigned, the action choice of [eval_step],
    [eval_step] itself and every [transition] of at least one episode
    raise AttributeError; a [transition] of zero episodes returns without
    doing anything. *)
Theorem unwired_agent_raises_AttributeError {state network env rng : Type}
  (cfg : Cfg.t) (self : Agent state network env) :
  __init__ cfg = Ok self ->
  (forall predict s, eval_action predict self s = Raise AttributeError)
  /\ (forall predict env_reset env_render env_step render,
         eval_step predict env_reset env_render env_step render self
         = Raise AttributeError)
  /\ (forall predict fit env_reset env_step epsilon_greedy
             (uniform_random_replay :
                rng -> list (Transition state) -> nat -> rng * Batch state)
             g log,
         transition predict fit env_reset env_step epsilon_greedy
                    uniform_random_replay
                    {| agent := self; gen := g; set_weights_log := log |}
         = if (Cfg.episodes cfg =? 0)%nat
           then Ok {| agent := self; gen := g; set_weights_log := log |}
           else Raise AttributeError).
Proof.
  intros Hinit.
  destruct (init_unwired cfg self Hinit) as (He & Ha & Ht & Hep & _ & _).
  split; [|split].
  - intros predict s. unfold eval_action. rewrite Ha. reflexivity.
  - intros predict env_reset env_render env_step render.
    unfold eval_step. change (seq 0 100) with (0%nat :: seq 1 99).
    cbn [for_each]. unfold eval_episode at 1. rewrite He. reflexivity.
  - intros predict fit env_reset env_step epsilon_greedy urr g log.
    unfold transition. cbn [agent]. rewrite Hep.
    destruct (Cfg.episodes cfg) as [|n]; [reflexivity|].
    change (seq 0 (S n)) with (0%nat :: seq 1 n).
    cbn [for_each Nat.eqb]. unfold episode at 1. cbn [agent].
    rewrite He. reflexivity.
Qed.

Lemma unwired_agent_raises_AttributeError_demo :
  (forall predict s, eval_action predict demo_agent s = Raise AttributeError)
  /\ (forall predict env_reset env_render env_step render,
         eval_step predict env_reset env_render env_step render demo_agent
         = Raise AttributeError)
  /\ (forall predict fit env_reset env_step epsilon_greedy
             (uniform_random_replay :
                unit -> list (Transition unit) -> nat -> unit * Batch unit)
             g log,
         transition predict fit env_reset env_step epsilon_greedy
                    uniform_random_replay
                    {| agent := demo_agent; gen := g; set_weights_log := log |}
         = if (Cfg.episodes cfg_demo =? 0)%nat
           then Ok {| agent := demo_agent; gen := g; set_weights_log := log |}
           else Raise AttributeError).
Proof.
  apply (unwired_agent_raises_AttributeError (rng:=unit) cfg_demo demo_agent).
  reflexivity.
Defined.

(** ** [eval_step] *)

Lemma only_env_changed_refl {state network env : Type}
  (a : Agent state network env) : only_env_changed a a.
Proof. unfold only_env_changed. split; [apply same_settings_refl | auto]. Qed.

Lemma only_env_changed_set_envs {state network env : Type}
  (a : Agent state network env) (e : option env) :
  only_env_changed a (set_envs a e).
Proof.
  unfold only_env_changed, same_settings. cbn. repeat split.
Qed.

Lemma only_env_changed_trans {state network env : Type}
  (a b c : Agent state network env) :
  only_env_changed a b -> only_env_changed b c -> only_env_changed a c.
Proof.
  intros (S1 & A1 & T1 & N1 & B1) (S2 & A2 & T2 & N2 & B2).
  split; [eapply same_settings_trans; eassumption|].
  repeat split; congruence.
Qed.

Section EvalProperties.

Context {state network env : Type}.
Variable predict : network -> list state -> tensor3.
Variable env_reset : env -> env * state.
Variable env_render : env -> env.
Variable env_step : env -> nat -> env * (state * Q * bool).

Lemma eval_steps_spec (n : nat) (self self' : Agent state network env)
  (s : state) (taken taken' : list nat) :
  eval_steps predict env_step n self s taken = Ok (self', taken') ->
  only_env_changed self self'
  /\ exists acts, taken' = taken ++ acts
                  /\ (length acts <= n)%nat
                  /\ ((0 < n)%nat -> (1 <= length acts)%nat).
Proof.
  revert self s taken; induction n as [|n IH]; intros self s taken H;
    cbn [eval_steps] in H.
  - injection H as <- <-. split; [apply only_env_changed_refl|].
    exists []. rewrite app_nil_r. repeat split; simpl; lia.
  - apply bind_Ok in H as (action & _ & H).
    apply bind_Ok in H as (e & _ & H).
    destruct (env_step e action) as [e' [[next_state reward] done]].
    destruct done.
    + injection H as <- <-. split; [apply only_env_changed_set_envs|].
      exists [action]. repeat split; simpl; lia.
    + apply IH in H as (Hk & acts & -> & Hle & _).
      split.
      * eapply only_env_changed_trans; [apply only_env_changed_set_envs | exact Hk].
      * exists (action :: acts). rewrite <- app_assoc.
        repeat split; simpl; lia.
Qed.

Lemma eval_episodes_spec (render : bool) (eps : list nat)
  (self self' : Agent state network env) (trace trace' : list (list nat)) :
  for_each (eval_episode predict env_reset env_render env_step render)
           eps (self, trace) = Ok (self', trace') ->
  only_env_changed self self'
  /\ exists new, trace' = trace ++ new
                 /\ length new = length eps
                 /\ Forall (fun ep => (1 <= length ep <= 200)%nat) new.
Proof.
  revert self trace; induction eps as [|ep eps IH]; intros self trace H;
    cbn [for_each] in H.
  - injection H as <- <-. split; [apply only_env_changed_refl|].
    exists []. rewrite app_nil_r. repeat split. constructor.
  - apply bind_Ok in H as ([self1 trace1] & Hep & H).
    unfold eval_episode in Hep.
    apply bind_Ok in Hep as (e & _ & Hep).
    destruct (env_reset e) as [e' s].
    apply bind_Ok in Hep as ([self0 taken] & Hsteps & Hep).
    injection Hep as <- <-.
    apply eval_steps_spec in Hsteps as (Hk0 & acts & Hacts & Hle & Hge).
    simpl in Hacts. subst taken.
    apply IH in H as (Hk1 & new & -> & Hlen & Hall).
    split.
    + eapply only_env_changed_trans; [|exact Hk1].
      eapply only_env_changed_trans; [apply only_env_changed_set_envs | exact Hk0].
    + exists (acts :: new). rewrite <- app_assoc.
      split; [reflexivity|]. split; [simpl; lia|].
      constructor; [|exact Hall]. split; [apply Hge; lia | exact Hle].
Qed.

End EvalProperties.

(** X14.  [eval_step] runs exactly 100 episodes of at least 1 and at
    most 200 environment steps each, and touches nothing of the agent but
    its environment: the networks, the replay buffer, the step count and
    the settings are as before. *)
Theorem eval_step_bounded_and_passive {state network env : Type}
  (predict : network -> list state -> tensor3)
  (env_reset : env -> env * state)
  (env_render : env -> env)
  (env_step : env -> nat -> env * (state * Q * bool))
  (render : bool) (self self' : Agent state network env)
  (trace : list (list nat)) :
  eval_step predict env_reset env_render env_step render self
  = Ok (self', trace) ->
  only_env_changed self self'
  /\ length trace = 100%nat
  /\ Forall (fun ep => (1 <= length ep <= 200)%nat) trace.
Proof.
  intros H. unfold eval_step in H.
  apply eval_episodes_spec in H as (Hk & new & -> & Hlen & Hall).
  rewrite length_seq in Hlen. simpl. auto.
Qed.

Lemma eval_step_bounded_and_passive_demo :
  exists self' trace,
    eval_step (fun _ _ => prob_demo) (fun e => (e, tt)) (fun e => e)
              (fun e _ => (e, (tt, 0, true))) true (agent demo_run)
    = Ok (self', trace)
    /\ only_env_changed (agent demo_run) self'
    /\ length trace = 100%nat
    /\ Forall (fun ep => (1 <= length ep <= 200)%nat) trace.
Proof.
  eexists _, _. split; [vm_compute; reflexivity|].
  eapply (eval_step_bounded_and_passive
            (fun _ _ => prob_demo) (fun e => (e, tt)) (fun e => e)
            (fun e _ => (e, (tt, 0, true))) true (agent demo_run)).
  vm_compute. reflexivity.
Defined.
